(** * Aravalli delineation: a shallow embedding of the raster-to-vector core

    The development follows [src/aravalli/new_method.py],
    [src/aravalli/old_method.py], [src/aravalli/stats.py] and the driver
    [src/aravalli/core.py].

    Conventions of the embedding.
    - A finite floating-point number is a rational [Q]; a cell of the
      elevation array is an [option Q], [None] standing for every value
      that [np.isfinite] rejects (NaN and the infinities).
    - A 2-D numpy array is a list of rows; an array produced elementwise
      from others is tabulated over the shape of its first operand.
    - shapely, rasterio, matplotlib and geopandas are third-party code:
      their operations are fields of the interfaces [Shapely] and
      [Toolkit], and every definition is parameterised by them.
    - A Python call that may raise returns a [result]. *)

From Stdlib Require Import ZArith QArith Qround Qminmax Qabs.
From Stdlib Require Import String.
From Stdlib Require Import List Bool Lia Permutation Sorted.
Import ListNotations.

Local Open Scope Z_scope.

(** ** Exceptions and fallible results *)

Inductive exn : Type :=
| ZeroDivisionError
| ValueError (msg : string)
| LibraryError (msg : string).

Inductive result (A : Type) : Type :=
| Ok (a : A)
| Raise (e : exn).

Arguments Ok {A} a.
Arguments Raise {A} e.

Definition bind {A B : Type} (m : result A) (k : A -> result B) : result B :=
  match m with
  | Ok a => k a
  | Raise e => Raise e
  end.

Notation "x <- m ;; k" := (bind m (fun x => k))
  (at level 61, m at next level, right associativity).

Definition raises {A : Type} (m : result A) : Prop := exists e, m = Raise e.

(** ** Python and numpy scalars *)

Module Py.

(** [a / b] on Python floats. *)
Definition div (a b : Q) : result Q :=
  if Qeq_bool b 0 then Raise ZeroDivisionError else Ok (a / b)%Q.

(** [int(x)]: truncation towards zero. *)
Definition int (x : Q) : Z := Z.quot (Qnum x) (Zpos (Qden x)).

(** [np.ceil] and [np.floor], read back as integers. *)
Definition ceil (x : Q) : Z := Qceiling x.
Definition floor (x : Q) : Z := Qfloor x.

(** [round(x, ndigits)]: to the nearest multiple of [10^-ndigits], ties to
    the even multiple. *)
Definition round_half_even (x : Q) : Z :=
  let fl := Qfloor x in
  match ((x - inject_Z fl)%Q ?= (1 # 2))%Q with
  | Lt => fl
  | Gt => fl + 1
  | Eq => if Z.even fl then fl else fl + 1
  end.

Definition round (x : Q) (ndigits : nat) : Q :=
  let scale := inject_Z (10 ^ Z.of_nat ndigits) in
  (inject_Z (round_half_even (x * scale)) / scale)%Q.

Definition Qleb (x y : Q) : bool := Qle_bool x y.
Definition Qltb (x y : Q) : bool := negb (Qle_bool y x).

End Py.

(** ** numpy arrays of rank two *)

Module Np.

Definition array (A : Type) := list (list A).

Definition nrows {A} (g : array A) : nat := length g.
Definition ncols {A} (g : array A) : nat :=
  match g with
  | [] => 0%nat
  | row :: _ => length row
  end.

Definition get {A} (d : A) (g : array A) (r c : nat) : A :=
  nth c (nth r g []) d.

Definition tabulate {A} (n m : nat) (f : nat -> nat -> A) : array A :=
  map (fun r => map (fun c => f r c) (seq 0 m)) (seq 0 n).

Definition map2d {A B} (f : A -> B) (g : array A) : array B :=
  map (map f) g.

(** Row-major flattening, the order of boolean indexing and [np.argwhere]. *)
Definition ravel {A} (g : array A) : list A := concat g.

(** [np.isfinite(Z)]. *)
Definition isfinite (g : array (option Q)) : array bool :=
  map2d (fun x => match x with Some _ => true | None => false end) g.

(** [Z[np.isfinite(Z)]]. *)
Definition finite_values (g : array (option Q)) : list Q :=
  flat_map (fun x => match x with Some q => [q] | None => [] end) (ravel g).

(** [np.any] and [np.sum] of a boolean array. *)
Definition any (m : array bool) : bool := existsb (fun b => b) (ravel m).
Definition count (m : array bool) : Z :=
  Z.of_nat (length (filter (fun b => b) (ravel m))).

(** Minimum and maximum of a non-empty list; [None] on the empty list,
    where numpy's reductions have no identity. *)
Definition min_list (l : list Q) : option Q :=
  match l with
  | [] => None
  | x :: xs => Some (fold_left Qmin xs x)
  end.

Definition max_list (l : list Q) : option Q :=
  match l with
  | [] => None
  | x :: xs => Some (fold_left Qmax xs x)
  end.

(** [np.where(finite, Z, fill)]. *)
Definition where_finite (g : array (option Q)) (fill : Q) : array Q :=
  map2d (fun x => match x with Some q => q | None => fill end) g.

(** [np.argwhere(mask)]: the (row, column) pairs of the true cells. *)
Definition argwhere (m : array bool) : list (nat * nat) :=
  flat_map (fun r =>
      flat_map (fun c => if get false m r c then [(r, c)] else [])
               (seq 0 (length (nth r m []))))
    (seq 0 (nrows m)).

(** [np.arange(start, stop, step)] for a non-zero step. *)
Definition arange (start stop step : Q) : list Q :=
  let n := Z.to_nat (Qceiling ((stop - start) / step)) in
  map (fun i => (start + inject_Z (Z.of_nat i) * step)%Q) (seq 0 n).

End Np.

(** ** scipy.ndimage *)

Module Ndimage.

Import Np.

(** Index extension of mode ['reflect'] (d c b a | a b c d | d c b a). *)
Definition reflect (n : nat) (i : Z) : nat :=
  let p := 2 * Z.of_nat n in
  let k := i mod p in
  Z.to_nat (if k <? Z.of_nat n then k else p - 1 - k).

(** Offsets covered by a filter of a given size with origin 0. *)
Definition window_offsets (size : Z) : list Z :=
  map (fun k => Z.of_nat k - size / 2) (seq 0 (Z.to_nat size)).

Definition window_values (g : array Q) (size : Z) (r c : nat) : list Q :=
  flat_map (fun dr =>
      map (fun dc =>
             get 0%Q g (reflect (nrows g) (Z.of_nat r + dr))
                       (reflect (ncols g) (Z.of_nat c + dc)))
          (window_offsets size))
    (window_offsets size).

(** [minimum_filter(g, size=size)] and [maximum_filter(g, size=size)]
    with the default mode ['reflect']. *)
Definition minimum_filter (g : array Q) (size : Z) : array Q :=
  tabulate (nrows g) (ncols g) (fun r c =>
    match min_list (window_values g size r c) with
    | Some v => v
    | None => get 0%Q g r c
    end).

Definition maximum_filter (g : array Q) (size : Z) : array Q :=
  tabulate (nrows g) (ncols g) (fun r c =>
    match max_list (window_values g size r c) with
    | Some v => v
    | None => get 0%Q g r c
    end).

(** [generate_binary_structure(2, 1)]: the 4-connected cross, as the
    offsets of its true cells. *)
Definition generate_binary_structure_2_1 : list (Z * Z) :=
  [(-1, 0); (0, -1); (0, 0); (0, 1); (1, 0)].

(** A cell read at a signed position; outside the array it has the
    [border_value], which both morphological operators leave at 0. *)
Definition get_border (m : array bool) (r c : Z) : bool :=
  if (0 <=? r) && (0 <=? c) then get false m (Z.to_nat r) (Z.to_nat c)
  else false.

Definition dilate_once (structure : list (Z * Z)) (m : array bool) : array bool :=
  tabulate (nrows m) (ncols m) (fun r c =>
    existsb (fun d => get_border m (Z.of_nat r - fst d) (Z.of_nat c - snd d))
            structure).

Definition erode_once (structure : list (Z * Z)) (m : array bool) : array bool :=
  tabulate (nrows m) (ncols m) (fun r c =>
    forallb (fun d => get_border m (Z.of_nat r + fst d) (Z.of_nat c + snd d))
            structure).

(** [binary_dilation] and [binary_erosion] with [iterations >= 1] repeat
    the one-step operator; the callers below never pass less than 1. *)
Definition binary_dilation (m : array bool) (structure : list (Z * Z))
    (iterations : Z) : array bool :=
  Nat.iter (Z.to_nat iterations) (dilate_once structure) m.

Definition binary_erosion (m : array bool) (structure : list (Z * Z))
    (iterations : Z) : array bool :=
  Nat.iter (Z.to_nat iterations) (erode_once structure) m.

(** [binary_closing]: the dilation, then the erosion of the result, each
    with the same structure and iteration count. *)
Definition binary_closing (m : array bool) (structure : list (Z * Z))
    (iterations : Z) : array bool :=
  binary_erosion (binary_dilation m structure iterations) structure iterations.

End Ndimage.

(** ** Data model shared by the pipelines *)

(** The coefficients of the rasterio affine transform that the code reads:
    [x = c + col * a], [y = f + row * e]. *)
Record Affine : Type := mkAffine {
  tr_a : Q;
  tr_c : Q;
  tr_e : Q;
  tr_f : Q
}.

(** The dictionary returned by a DEM adapter ([dem.py]). *)
Record dem_data : Type := mkDem {
  elevation : Np.array (option Q);
  transform : Affine;
  crs : string;
  pixel_size_m : Q
}.

(** A matplotlib contour path: its vertices and its optional codes. *)
Record mpl_path : Type := mkPath {
  vertices : list (Q * Q);
  codes : option (list Z)
}.

(** A row of a GeoDataFrame: the optional [layer] column and the geometry.
    The frame itself is the list of its rows; the empty frame is []. *)
Record feature (G : Type) : Type := mkFeature {
  layer : option string;
  geometry : G
}.

Arguments mkFeature {G} layer geometry.
Arguments layer {G} _.
Arguments geometry {G} _.

Definition GeoDataFrame (G : Type) := list (feature G).

(** shapely: the geometry operations the pipelines call. *)
Class Shapely (G : Type) : Type := {
  is_valid : G -> bool;
  is_empty : G -> bool;
  area : G -> Q;
  buffer : G -> Q -> G;
  unary_union : list G -> G;
  contains : G -> Q * Q -> bool;
  distance : G -> G -> Q;
  (** [Polygon(vertices)]; [None] when the constructor raises. *)
  Polygon : list (Q * Q) -> option G;
  (** the single parts of a possibly multi-part geometry *)
  parts : G -> list G;
  (** [STRtree(geoms).query(g)]: indices of candidate geometries *)
  strtree_query : list G -> G -> list nat
}.

(** rasterio, matplotlib, numpy's floating-point kernels and geopandas. *)
Class Toolkit (G : Type) : Type := {
  (** [rasterio.features.shapes(mask.astype(uint8), mask=mask, transform)] *)
  shapes : Np.array bool -> Affine -> list (G * Z);
  (** [ax.contour(X, Y, Z_filled, levels=[level])] flattened to its paths *)
  contour : Affine -> Np.array Q -> Q -> result (list mpl_path);
  (** lines 251-257 of [old_method.py]: [np.gradient] with the pixel size
      as spacing, then [degrees(arctan(sqrt(dx^2 + dy^2)))]; a NaN cell is
      [None], and [np.gradient] raises on an axis shorter than 2 *)
  gradient_slope_degrees : Np.array (option Q) -> Q -> result (Np.array (option Q));
  (** [gpd.overlay(layer, aoi, how='intersection')] *)
  overlay_intersection : GeoDataFrame G -> G -> GeoDataFrame G;
  (** [gpd.clip(layer, district)]; [None] when it raises *)
  clip : GeoDataFrame G -> G -> option (GeoDataFrame G);
  (** [np.std] and [np.median] of the finite elevations *)
  np_std : list Q -> Q;
  np_median : list Q -> Q
}.

(** ** new_method.py *)

Module NewMethod.

Import Np Ndimage.

Record params : Type := mkParams {
  method : string;
  relief_threshold_m : Q;
  range_proximity_m : Q;
  relief_radius_m : Q;
  contour_interval_m : Q
}.

Record closed_contour (G : Type) : Type := mkContour {
  cc_elevation : Q;
  cc_geometry : G
}.

Arguments mkContour {G} _ _.
Arguments cc_elevation {G} _.
Arguments cc_geometry {G} _.

Record hill_footprint (G : Type) : Type := mkHill {
  peak_elev : Q;
  base_elev : Q;
  relief : Q;
  hill_geometry : G
}.

Arguments mkHill {G} _ _ _ _.
Arguments peak_elev {G} _.
Arguments base_elev {G} _.
Arguments relief {G} _.
Arguments hill_geometry {G} _.

(** [max(lo, int(meters / pixel_size))], made odd: lines 97-99 with
    [lo = 3], lines 254-256 with [lo = 5] and 500 m. *)
Definition odd_window (lo : Z) (meters pixel_size : Q) : result Z :=
  q <- Py.div meters pixel_size ;;
  let window_size := Z.max lo (Py.int q) in
  Ok (if window_size mod 2 =? 0 then window_size + 1 else window_size).

Definition window_size (relief_radius pixel_size : Q) : result Z :=
  odd_window 3 relief_radius pixel_size.

Definition peak_window (pixel_size : Q) : result Z :=
  odd_window 5 (500 # 1) pixel_size.

(** Lines 104-105: the fill value is the least finite elevation, or 0
    when there is none.  Line 193 of the contour method is the same
    expression without the alternative, behind the guard of line 190. *)
Definition relief_fill (Zg : array (option Q)) : Q :=
  match min_list (finite_values Zg) with
  | Some v => v
  | None => 0%Q
  end.

Definition Z_filled (Zg : array (option Q)) : array Q :=
  where_finite Zg (relief_fill Zg).

(** Lines 107-110: [relief = Z_filled - minimum_filter(Z_filled)]. *)
Definition relief_grid (Zg : array (option Q)) (window : Z) : array Q :=
  let filled := Z_filled Zg in
  let local_min := minimum_filter filled window in
  tabulate (nrows filled) (ncols filled) (fun r c =>
    (get 0%Q filled r c - get 0%Q local_min r c)%Q).

(** Line 114: [(relief >= relief_threshold) & Z_finite]. *)
Definition relief_mask (Zg : array (option Q)) (window : Z) (threshold : Q)
    : array bool :=
  let rel := relief_grid Zg window in
  let Z_finite := isfinite Zg in
  tabulate (nrows rel) (ncols rel) (fun r c =>
    Py.Qleb threshold (get 0%Q rel r c) && get false Z_finite r c).

Section WithLibraries.

Context {G : Type} `{SH : Shapely G} `{TK : Toolkit G}.

(** [_polygonize_mask] (lines 327-348). *)
Definition _polygonize_mask (mask : array bool) (tr : Affine) : GeoDataFrame G :=
  let geoms :=
    flat_map (fun gv : G * Z =>
        let (geom, val) := gv in
        if val =? 1 then
          if is_valid geom && negb (is_empty geom) then [geom] else []
        else [])
      (shapes mask tr) in
  map (mkFeature None) geoms.

(** [_compute_relief_method] (lines 66-154). *)
Definition _compute_relief_method (dem : dem_data) (p : params)
    : result (GeoDataFrame G) :=
  let Zg := elevation dem in
  window <- window_size (relief_radius_m p) (pixel_size_m dem) ;;
  let mask := relief_mask Zg window (relief_threshold_m p) in
  let masked_pixels := count mask in
  (* line 118 only logs a percentage; numpy's division by a zero count
     of finite cells gives nan and a warning, no exception *)
  if masked_pixels =? 0 then Ok []
  else
    let polygons := _polygonize_mask mask (transform dem) in
    match polygons with
    | [] => Ok []
    | _ =>
      let new_union :=
        unary_union (map (fun row => buffer (geometry row) 0%Q) polygons) in
      let half_proximity := (range_proximity_m p / 2)%Q in
      let new_clustered := [buffer new_union half_proximity] in
      let new_clustered := unary_union new_clustered in
      let new_clustered := buffer new_clustered (- half_proximity)%Q in
      Ok [mkFeature (Some "NEW_2025_relief"%string) new_clustered]
    end.

(** Lines 196-198: the contour levels. numpy divides by a zero interval
    without raising, but [np.arange] then cannot compute a length. *)
Definition contour_levels (filled : array Q) (contour_interval : Q)
    : result (list Q) :=
  match min_list (ravel filled), max_list (ravel filled) with
  | Some lo, Some hi =>
    if Qeq_bool contour_interval 0 then
      Raise (ValueError "arange: cannot compute length")
    else
      let min_elev :=
        (inject_Z (Py.floor (lo / contour_interval)) * contour_interval)%Q in
      let max_elev :=
        (inject_Z (Py.ceil (hi / contour_interval)) * contour_interval)%Q in
      Ok (arange min_elev (max_elev + contour_interval)%Q contour_interval)
  | _, _ => Raise (ValueError "zero-size array to reduction operation")
  end.

(** [np.allclose(u, v, atol=atol)] on two vertices, with numpy's default
    relative tolerance 1e-5. *)
Definition allclose (u v : Q * Q) (atol : Q) : bool :=
  let close x y := Py.Qleb (Qabs (x - y)) (atol + (1 # 100000) * Qabs y)%Q in
  close (fst u) (fst v) && close (snd u) (snd v).

(** Lines 224-235: what one path contributes to [closed_contours]. *)
Definition closed_ring (pixel_size level : Q) (path : mpl_path)
    : list (closed_contour G) :=
  match codes path with
  | None => []
  | Some _ =>
    if (3 <? length (vertices path))%nat then
      if allclose (hd (0, 0)%Q (vertices path))
                  (last (vertices path) (0, 0)%Q) pixel_size then
        match Polygon (vertices path) with
        | Some poly =>
          if is_valid poly && Py.Qltb 0 (area poly)
          then [mkContour level poly] else []
        | None => []
        end
      else []
    else []
  end.

(** Lines 219-235: the loop over the levels inside the [try] block; the
    first call of [ax.contour] that raises leaves the block. *)
Fixpoint trace_levels (dem : dem_data) (filled : array Q) (levels : list Q)
    (closed_contours : list (closed_contour G))
    : result (list (closed_contour G)) :=
  match levels with
  | [] => Ok closed_contours
  | level :: rest =>
    paths <- contour (transform dem) filled level ;;
    trace_levels dem filled rest
      (closed_contours ++ flat_map (closed_ring (pixel_size_m dem) level) paths)
  end.

(** The order of the sort key. *)
Definition by_elevation (x y : closed_contour G) : Prop :=
  (cc_elevation x <= cc_elevation y)%Q.

(** [closed_contours.sort(key=lambda x: x['elevation'])]: a stable sort. *)
Fixpoint insert_contour (x : closed_contour G) (l : list (closed_contour G))
    : list (closed_contour G) :=
  match l with
  | [] => [x]
  | y :: ys =>
    if Py.Qleb (cc_elevation x) (cc_elevation y) then x :: y :: ys
    else y :: insert_contour x ys
  end.

Definition sort_contours (l : list (closed_contour G)) : list (closed_contour G) :=
  fold_right insert_contour [] l.

(** Lines 280-291: the scan of the sorted contours for one peak; the
    result is what the scan appends to [hill_footprints]. *)
Fixpoint scan_contours (closed_contours : list (closed_contour G))
    (peak_point : Q * Q) (peak_elev relief_threshold : Q)
    : list (hill_footprint G) :=
  match closed_contours with
  | [] => []
  | contour :: rest =>
    if contains (cc_geometry contour) peak_point then
      let local_relief := (peak_elev - cc_elevation contour)%Q in
      if Py.Qleb relief_threshold local_relief then
        [mkHill peak_elev (cc_elevation contour) local_relief
                (cc_geometry contour)]
      else []
    else scan_contours rest peak_point peak_elev relief_threshold
  end.

(** Lines 272-277: elevation and map position of the peak at [(py, px)]. *)
Definition peak_elevation (filled : array Q) (pk : nat * nat) : Q :=
  get 0%Q filled (fst pk) (snd pk).

Definition peak_point (tr : Affine) (pk : nat * nat) : Q * Q :=
  ((tr_c tr + inject_Z (Z.of_nat (snd pk)) * tr_a tr)%Q,
   (tr_f tr + inject_Z (Z.of_nat (fst pk)) * tr_e tr)%Q).

(** Lines 266-291: the enclosure search. *)
Definition enclosure_search (tr : Affine) (filled : array Q)
    (closed_contours : list (closed_contour G)) (peak_coords : list (nat * nat))
    (relief_threshold : Q) : list (hill_footprint G) :=
  let closed_contours := sort_contours closed_contours in
  flat_map (fun pk =>
      scan_contours closed_contours (peak_point tr pk)
                    (peak_elevation filled pk) relief_threshold)
    peak_coords.

(** Lines 258-262: the peaks. *)
Definition peaks_mask (Zg : array (option Q)) (filled : array Q) (window : Z)
    : array bool :=
  let local_max := maximum_filter filled window in
  let Z_finite := isfinite Zg in
  tabulate (nrows filled) (ncols filled) (fun r c =>
    Qeq_bool (get 0%Q filled r c) (get 0%Q local_max r c)
    && get false Z_finite r c).

(** [_compute_contour_method] (lines 157-324). *)
Definition _compute_contour_method (dem : dem_data) (p : params)
    : result (GeoDataFrame G) :=
  let Zg := elevation dem in
  if negb (any (isfinite Zg)) then Ok []
  else
    let filled := Z_filled Zg in
    levels <- contour_levels filled (contour_interval_m p) ;;
    match trace_levels dem filled levels [] with
    | Raise _ => _compute_relief_method dem p
    | Ok [] => _compute_relief_method dem p
    | Ok closed_contours =>
      window <- peak_window (pixel_size_m dem) ;;
      let peak_coords := argwhere (peaks_mask Zg filled window) in
      let hill_footprints :=
        enclosure_search (transform dem) filled closed_contours peak_coords
                         (relief_threshold_m p) in
      match hill_footprints with
      | [] => Ok []
      | _ =>
        let all_hills := unary_union (map hill_geometry hill_footprints) in
        let half_proximity := (range_proximity_m p / 2)%Q in
        let new_clustered := [buffer all_hills half_proximity] in
        let new_clustered := unary_union new_clustered in
        let new_clustered := buffer new_clustered (- half_proximity)%Q in
        Ok [mkFeature (Some "NEW_2025_contour"%string) new_clustered]
      end
    end.

(** [compute_new_delineation] (lines 32-63). *)
Definition compute_new_delineation (dem : dem_data) (p : params)
    : result (GeoDataFrame G) :=
  if String.eqb (method p) "relief" then _compute_relief_method dem p
  else if String.eqb (method p) "contour" then _compute_contour_method dem p
  else Raise (ValueError "Unknown method").

End WithLibraries.

End NewMethod.

(** ** old_method.py *)

Module OldMethod.

Import Np Ndimage.

Record params : Type := mkParams {
  slope_threshold_deg : Q;
  foothill_buffer_m : Q;
  gap_bridge_m : Q
}.

(** [np.nanmean] of the finite cells: NaN when there are none. *)
Definition nanmean (l : list Q) : option Q :=
  match l with
  | [] => None
  | _ => Some (fold_right Qplus 0%Q l / inject_Z (Z.of_nat (length l)))%Q
  end.

Section WithLibraries.

Context {G : Type} `{SH : Shapely G} `{TK : Toolkit G}.

(** [_compute_slope_degrees] (lines 234-262). *)
Definition _compute_slope_degrees (Zg : array (option Q)) (pixel_size : Q)
    : result (array (option Q)) :=
  let fill := nanmean (finite_values Zg) in
  let Z_filled :=
    map2d (fun x => match x with Some q => Some q | None => fill end) Zg in
  slope_deg <- gradient_slope_degrees Z_filled pixel_size ;;
  Ok (tabulate (nrows Zg) (ncols Zg) (fun r c =>
        if get false (isfinite Zg) r c then get None slope_deg r c else None)).

(** [_polygonize_mask] (lines 265-314). *)
Definition _polygonize_mask (mask : array bool) (tr : Affine) : GeoDataFrame G :=
  let geoms :=
    flat_map (fun gv : G * Z =>
        let (geom, val) := gv in
        if val =? 1 then
          if is_valid geom && negb (is_empty geom) then [geom] else []
        else [])
      (shapes mask tr) in
  map (mkFeature None) geoms.

(** [compute_old_delineation] (lines 24-136). [urban_mask] is what
    [_generate_urban_mask] returned: [None], or the rasterised mask. *)
Definition compute_old_delineation (dem : dem_data)
    (urban_mask : option (array bool)) (p : params)
    : result (GeoDataFrame G) :=
  let Zg := elevation dem in
  let pixel_size := pixel_size_m dem in
  (* Step 1 *)
  slope_deg <- _compute_slope_degrees Zg pixel_size ;;
  (* Step 2 *)
  let slope_mask :=
    tabulate (nrows slope_deg) (ncols slope_deg) (fun r c =>
      match get None slope_deg r c with
      | Some s => Py.Qltb (slope_threshold_deg p) s
      | None => false
      end && get false (isfinite Zg) r c) in
  let masked_pixels := count slope_mask in
  (* line 69 only logs a percentage, as line 118 of the NEW method *)
  (* Step 2a *)
  let '(slope_mask, masked_pixels) :=
    match urban_mask with
    | Some urban =>
      if count urban >? 0 then
        let slope_mask :=
          tabulate (nrows slope_mask) (ncols slope_mask) (fun r c =>
            get false slope_mask r c && negb (get false urban r c)) in
        (slope_mask, count slope_mask)
      else (slope_mask, masked_pixels)
    | None => (slope_mask, masked_pixels)
    end in
  if masked_pixels =? 0 then Ok []
  else
    (* Step 3 *)
    q_buffer <- Py.div (foothill_buffer_m p) pixel_size ;;
    let buffer_pixels := Py.ceil q_buffer in
    q_gap <- Py.div (gap_bridge_m p) pixel_size ;;
    let gap_pixels := Py.ceil (q_gap / 2)%Q in
    let slope_mask :=
      if gap_pixels >? 0 then
        let struct_gap := generate_binary_structure_2_1 in
        binary_closing slope_mask struct_gap gap_pixels
      else slope_mask in
    let slope_mask :=
      if buffer_pixels >? 0 then
        let struct_buffer := generate_binary_structure_2_1 in
        binary_dilation slope_mask struct_buffer buffer_pixels
      else slope_mask in
    (* Step 4 *)
    let polygons := _polygonize_mask slope_mask (transform dem) in
    match polygons with
    | [] => Ok []
    | _ =>
      let old_union :=
        unary_union (map (fun row => buffer (geometry row) 0%Q) polygons) in
      Ok [mkFeature (Some "OLD_FSI_like"%string) old_union]
    end.

(** Step 4 on its own (lines 114-131): the layer obtained from a final
    raster mask. *)
Definition vector_layer (mask : array bool) (tr : Affine) : GeoDataFrame G :=
  match _polygonize_mask mask tr with
  | [] => []
  | polygons =>
    [mkFeature (Some "OLD_FSI_like"%string)
       (unary_union (map (fun row => buffer (geometry row) 0%Q) polygons))]
  end.

End WithLibraries.

End OldMethod.

(** ** stats.py *)

Module Stats.

Import Np.

Record district (G : Type) : Type := mkDistrict {
  name : string;
  state : string;
  district_geometry : G
}.

Arguments mkDistrict {G} _ _ _.
Arguments name {G} _.
Arguments state {G} _.
Arguments district_geometry {G} _.

Record district_row : Type := mkDistrictRow {
  District : string;
  State : string;
  District_Area_km2 : Q;
  OLD_Area_km2 : Q;
  NEW_Area_km2 : Q;
  Change_km2 : Q;
  Change_pct : Q;
  OLD_pct_of_District : Q;
  NEW_pct_of_District : Q
}.

Record elevation_stats : Type := mkElevationStats {
  es_min : Q;
  es_max : Q;
  es_mean : Q;
  es_std : Q;
  es_median : Q
}.

Record distance_row : Type := mkDistanceRow {
  hill_id : nat;
  nearest_id : Z;
  distance_m : Q
}.

Record statistics : Type := mkStatistics {
  old_total_area_km2 : Q;
  new_total_area_km2 : Q;
  per_district : list district_row;
  elevation_summary : elevation_stats;
  hill_distances : option (list distance_row)
}.

Definition million : Q := 1000000 # 1.

Section WithLibraries.

Context {G : Type} `{SH : Shapely G} `{TK : Toolkit G}.

(** [gdf.area.sum() / 1e6 if not gdf.empty else 0]. *)
Definition area_km2 (gdf : GeoDataFrame G) : Q :=
  match gdf with
  | [] => 0%Q
  | _ => (fold_right Qplus 0 (map (fun row => area (geometry row)) gdf) / million)%Q
  end.

(** [_clip_to_geometry] (lines 107-117). *)
Definition _clip_to_geometry (gdf : GeoDataFrame G) (geom : G) : GeoDataFrame G :=
  match gdf with
  | [] => gdf
  | _ =>
    match clip gdf geom with
    | Some clipped => clipped
    | None => []
    end
  end.

(** The body of the loop over the districts (lines 57-87). *)
Definition district_statistics (old_gdf new_gdf : GeoDataFrame G)
    (d : district G) : district_row :=
  let district_geom := district_geometry d in
  let old_in_district := _clip_to_geometry old_gdf district_geom in
  let new_in_district := _clip_to_geometry new_gdf district_geom in
  let old_district_area := area_km2 old_in_district in
  let new_district_area := area_km2 new_in_district in
  let change_km2 := (new_district_area - old_district_area)%Q in
  let change_pct :=
    if Py.Qltb 0 old_district_area
    then (change_km2 / old_district_area * 100)%Q else 0%Q in
  let district_area := (area district_geom / million)%Q in
  let old_pct_of_district :=
    if Py.Qltb 0 district_area
    then (old_district_area / district_area * 100)%Q else 0%Q in
  let new_pct_of_district :=
    if Py.Qltb 0 district_area
    then (new_district_area / district_area * 100)%Q else 0%Q in
  mkDistrictRow (name d) (state d)
    (Py.round district_area 2) (Py.round old_district_area 2)
    (Py.round new_district_area 2) (Py.round change_km2 2)
    (Py.round change_pct 1) (Py.round old_pct_of_district 1)
    (Py.round new_pct_of_district 1).

(** Lines 92-102: [np.min] of an empty selection raises. *)
Definition elevation_statistics (Zg : array (option Q)) : result elevation_stats :=
  let Z_valid := finite_values Zg in
  match min_list Z_valid, max_list Z_valid with
  | Some lo, Some hi =>
    let mean :=
      (fold_right Qplus 0 Z_valid / inject_Z (Z.of_nat (length Z_valid)))%Q in
    Ok (mkElevationStats lo hi mean (np_std Z_valid) (np_median Z_valid))
  | _, _ =>
    Raise (ValueError "zero-size array to reduction operation minimum which has no identity")
  end.

(** [compute_statistics] (lines 23-104); the entry [hill_distances] is
    filled in by the caller. *)
Definition compute_statistics (old_gdf new_gdf : GeoDataFrame G)
    (districts : list (district G)) (dem : dem_data) : result statistics :=
  let old_area := area_km2 old_gdf in
  let new_area := area_km2 new_gdf in
  let district_stats := map (district_statistics old_gdf new_gdf) districts in
  es <- elevation_statistics (elevation dem) ;;
  Ok (mkStatistics old_area new_area district_stats es None).

(** [hills_gdf.explode(index_parts=False).reset_index(drop=True)]. *)
Definition explode (hills_gdf : GeoDataFrame G) : GeoDataFrame G :=
  flat_map (fun row => map (mkFeature (layer row)) (parts (geometry row)))
           hills_gdf.

(** Lines 158-168: one step of the loop over the candidates. [min_dist] is
    [None] while it is still [float('inf')]. *)
Definition nearest_step (geoms : list G) (i : nat) (geom : G)
    (acc : option Q * Z) (j : nat) : option Q * Z :=
  if Nat.eqb i j then acc
  else
    let dist := distance geom (nth j geoms geom) in
    match fst acc with
    | None => (Some dist, Z.of_nat j)
    | Some min_dist =>
      if Py.Qltb dist min_dist then (Some dist, Z.of_nat j) else acc
    end.

(** Lines 154-175: what hill [i] appends to [distances]. *)
Definition hill_distance (geoms : list G) (max_distance_m : Q)
    (i : nat) (geom : G) : list distance_row :=
  let candidates := strtree_query geoms (buffer geom max_distance_m) in
  let '(min_dist, nearest_idx) :=
    fold_left (nearest_step geoms i geom) candidates (None, -1) in
  match min_dist with
  | Some d =>
    if Py.Qltb d max_distance_m
    then [mkDistanceRow i nearest_idx (Py.round d 1)] else []
  | None => []
  end.

(** [compute_hill_distances] (lines 120-189). [explode_raises] tells
    whether the call of [explode] raised, in which case the frame is used
    as it is. *)
Definition compute_hill_distances (explode_raises : bool)
    (hills_gdf : GeoDataFrame G) (max_distance_m : Q)
    : option (list distance_row) :=
  match hills_gdf with
  | [] => None
  | _ =>
    let hills := if explode_raises then hills_gdf else explode hills_gdf in
    if (length hills <? 2)%nat then None
    else
      let geoms := map geometry hills in
      let distances :=
        flat_map (fun ig => hill_distance geoms max_distance_m (fst ig) (snd ig))
                 (combine (seq 0 (length geoms)) geoms) in
      match distances with
      | [] => None
      | _ => Some distances
      end
  end.

End WithLibraries.

(** The rows of the returned table; [None] has no rows. *)
Definition table_rows (t : option (list distance_row)) : list distance_row :=
  match t with
  | Some rows => rows
  | None => []
  end.

End Stats.

(** ** core.py *)

Module Core.

Import Np.

Record analysis (G : Type) : Type := mkAnalysis {
  old_layer : GeoDataFrame G;
  new_layer : GeoDataFrame G;
  stats : Stats.statistics
}.

Arguments mkAnalysis {G} _ _ _.
Arguments old_layer {G} _.
Arguments new_layer {G} _.
Arguments stats {G} _.

Section WithLibraries.

Context {G : Type} `{SH : Shapely G} `{TK : Toolkit G}.

(** [run_analysis], from the loaded DEM on (lines 96-156): the two
    delineations, the clip to the area of interest, the statistics and
    the hill distances.  The layers and tables are written out only after
    these steps (lines 158-206), so a run that raises here has produced
    no output.  [aoi] is the dissolved area of interest, [urban_mask] what
    the OSM query of the OLD method returned, [explode_raises] as in
    [Stats.compute_hill_distances]. *)
Definition run_analysis (dem : dem_data) (aoi : G)
    (districts : list (Stats.district G))
    (urban_mask : option (array bool)) (explode_raises : bool)
    (old_params : OldMethod.params) (new_params : NewMethod.params)
    : result (analysis G) :=
  (* line 98: np.nanmin of a zero-size array raises *)
  _ <- match ravel (elevation dem) with
       | [] => Raise (ValueError "zero-size array to reduction operation")
       | _ => Ok tt
       end ;;
  old_gdf <- OldMethod.compute_old_delineation dem urban_mask old_params ;;
  new_gdf <- NewMethod.compute_new_delineation dem new_params ;;
  let old_clipped :=
    match old_gdf with [] => old_gdf | _ => overlay_intersection old_gdf aoi end in
  let new_clipped :=
    match new_gdf with [] => new_gdf | _ => overlay_intersection new_gdf aoi end in
  st <- Stats.compute_statistics old_clipped new_clipped districts dem ;;
  let hill_distances :=
    Stats.compute_hill_distances explode_raises new_gdf (10000 # 1) in
  Ok (mkAnalysis old_clipped new_clipped
        (Stats.mkStatistics (Stats.old_total_area_km2 st)
           (Stats.new_total_area_km2 st) (Stats.per_district st)
           (Stats.elevation_summary st) hill_distances)).

End WithLibraries.

End Core.

(** ** An executable model of the libraries

    Geometries are finite unions of closed intervals of one transect (the
    x axis).  A geometry is valid when its intervals are well formed and
    pairwise disjoint; a zero-width buffer dissolves overlapping intervals,
    as shapely's does with overlapping rings.  The model serves to run the
    pipelines on concrete inputs. *)

Module Transect.

Import Np.

Definition interval := (Q * Q)%type.
Definition geom := list interval.

Definition wf (iv : interval) : bool := Py.Qleb (fst iv) (snd iv).

Definition overlaps (u v : interval) : bool :=
  Py.Qleb (fst u) (snd v) && Py.Qleb (fst v) (snd u).

Fixpoint pairwise_disjoint (g : geom) : bool :=
  match g with
  | [] => true
  | u :: rest =>
    forallb (fun v => negb (overlaps u v)) rest && pairwise_disjoint rest
  end.

Definition valid (g : geom) : bool := forallb wf g && pairwise_disjoint g.

Definition empty (g : geom) : bool :=
  match g with [] => true | _ => false end.

Definition length_of (g : geom) : Q :=
  fold_right Qplus 0%Q (map (fun iv => snd iv - fst iv)%Q g).

Definition absorb (iv : interval) (acc : geom) : geom :=
  let (hit, rest) := partition (overlaps iv) acc in
  (fold_left Qmin (map fst hit) (fst iv),
   fold_left Qmax (map snd hit) (snd iv)) :: rest.

Definition dissolve (g : geom) : geom := fold_right absorb [] (filter wf g).

Definition grow (g : geom) (d : Q) : geom :=
  dissolve (map (fun iv => (fst iv - d, snd iv + d)%Q) g).

Definition union (gs : list geom) : geom :=
  match gs with
  | [g] => g
  | _ => dissolve (concat gs)
  end.

Definition inside (g : geom) (pt : Q * Q) : bool :=
  existsb (fun iv => Py.Qltb (fst iv) (fst pt) && Py.Qltb (fst pt) (snd iv)) g.

Definition gap (u v : interval) : Q :=
  Qmax 0 (Qmax (fst v - snd u) (fst u - snd v)).

Definition separation (g h : geom) : Q :=
  match min_list (flat_map (fun u => map (gap u) h) g) with
  | Some d => d
  | None => 0%Q
  end.

Definition hull (g : geom) : option interval :=
  match min_list (map fst g), max_list (map snd g) with
  | Some lo, Some hi => Some (lo, hi)
  | _, _ => None
  end.

Definition ring (vs : list (Q * Q)) : option geom :=
  match min_list (map fst vs), max_list (map fst vs) with
  | Some lo, Some hi => Some [(lo, hi)]
  | _, _ => None
  end.

Definition query (geoms : list geom) (g : geom) : list nat :=
  flat_map (fun jh : nat * geom =>
      match hull g, hull (snd jh) with
      | Some u, Some v => if overlaps u v then [fst jh] else []
      | _, _ => []
      end)
    (combine (seq 0 (length geoms)) geoms).

#[global] Instance shapely : Shapely geom := {
  is_valid := valid;
  is_empty := empty;
  area := length_of;
  buffer := grow;
  unary_union := union;
  contains := inside;
  distance := separation;
  Polygon := ring;
  parts := fun g => map (fun iv => [iv]) g;
  strtree_query := query
}.

(** Every true cell of the mask is traced as the interval its column
    covers. *)
Definition trace_cells (mask : array bool) (tr : Affine) : list (geom * Z) :=
  map (fun pk : nat * nat =>
         let x := (tr_c tr + inject_Z (Z.of_nat (snd pk)) * tr_a tr)%Q in
         ([(x, x + tr_a tr)%Q], 1))
      (argwhere mask).

(** The slope of a cell is the absolute difference to its right-hand
    neighbour over the pixel size; NaN propagates, and an axis shorter
    than 2 raises as [np.gradient] does. *)
Definition row_slope (pixel_size : Q) (row : list (option Q)) : list (option Q) :=
  map (fun c =>
         match nth c row None, nth (Nat.min (S c) (length row - 1)) row None with
         | Some u, Some v => Some (Qabs (v - u) / pixel_size)%Q
         | _, _ => None
         end)
      (seq 0 (length row)).

Definition slope (g : array (option Q)) (pixel_size : Q)
    : result (array (option Q)) :=
  if ((nrows g <? 2) || (ncols g <? 2))%nat then
    Raise (ValueError "Shape of array too small to calculate a numerical gradient")
  else Ok (map (row_slope pixel_size) g).

Definition meet (g h : geom) : geom :=
  dissolve (flat_map (fun u =>
      map (fun v => (Qmax (fst u) (fst v), Qmin (snd u) (snd v))) h) g).

Definition crop (gdf : GeoDataFrame geom) (h : geom) : GeoDataFrame geom :=
  flat_map (fun row =>
      match meet (geometry row) h with
      | [] => []
      | g => [mkFeature (layer row) g]
      end) gdf.

(** A tracer that returns one ring overlapping itself, as a ring through a
    pinch point does: invalid as traced, valid once dissolved. *)
Definition trace_pinched (_ : array bool) (_ : Affine) : list (geom * Z) :=
  [([(0, 2); (1, 3)]%Q, 1)].

(** The toolkit, for a given tracer and a given behaviour of the
    contouring call. *)
Definition toolkit
    (tracing : array bool -> Affine -> list (geom * Z))
    (contouring : Affine -> array Q -> Q -> result (list mpl_path))
    : Toolkit geom := {|
  shapes := tracing;
  contour := contouring;
  gradient_slope_degrees := slope;
  overlay_intersection := crop;
  clip := fun gdf h => Some (crop gdf h);
  np_std := fun _ => 0%Q;
  np_median := fun l => nth (length l / 2) l 0%Q
|}.

Definition contour_unavailable (_ : Affine) (_ : array Q) (_ : Q)
    : result (list mpl_path) :=
  Raise (LibraryError "QuadContourSet object has no attribute collections").

Definition contour_open (_ : Affine) (_ : array Q) (level : Q)
    : result (list mpl_path) :=
  Ok [mkPath [(0, 0); (100, 0); (200, 0); (300, 0)]%Q (Some [1; 2; 2; 2])].

(** The level set of the first row: one closed rectangle around every
    maximal run of cells at or above the level. *)
Fixpoint runs (level : Q) (row : list Q) (col : nat) (start : option nat)
    : list (nat * nat) :=
  match row with
  | [] => match start with Some s => [(s, col)] | None => [] end
  | z :: rest =>
    if Py.Qleb level z then
      runs level rest (S col) (match start with Some s => Some s | None => Some col end)
    else
      match start with
      | Some s => (s, col) :: runs level rest (S col) None
      | None => runs level rest (S col) None
      end
  end.

Definition contour_rows (tr : Affine) (filled : array Q) (level : Q)
    : result (list mpl_path) :=
  Ok (map (fun se : nat * nat =>
             let x0 := (tr_c tr + inject_Z (Z.of_nat (fst se)) * tr_a tr - (1 # 2) * tr_a tr)%Q in
             let x1 := (tr_c tr + inject_Z (Z.of_nat (snd se)) * tr_a tr - (1 # 2) * tr_a tr)%Q in
             mkPath [(x0, 0); (x1, 0); (x1, 1); (x0, 1); (x0, 0)]%Q
                    (Some [1; 2; 2; 2; 79]))
          (runs level (nth 0 filled []) 0 None)).

End Transect.

(** ** Operations as the specification words them

    These definitions follow sections 4.2 and 4.6 of the specification;
    the theorems below compare them with the code. *)

Module Spec.

Import Np Ndimage.

(** [threshold(metricGrid, >, value)] combined with the finite mask. *)
Definition threshold_gt (metric : array (option Q)) (value : Q)
    (finite : array bool) : array bool :=
  tabulate (nrows metric) (ncols metric) (fun r c =>
    match get None metric r c with
    | Some s => Py.Qltb value s
    | None => false
    end && get false finite r c).

(** [excludeMask(mask, exclusionMask)]: AND with the negation of the
    exclusion; an absent exclusion is a no-op. *)
Definition excludeMask (mask : array bool) (exclusion : option (array bool))
    : array bool :=
  match exclusion with
  | None => mask
  | Some ex =>
    tabulate (nrows mask) (ncols mask) (fun r c =>
      get false mask r c && negb (get false ex r c))
  end.

(** The first two stages of the OLD order of operations: threshold, then
    exclude urban. *)
Definition classify (slope : array (option Q)) (threshold : Q)
    (finite : array bool) (exclusion : option (array bool)) : array bool :=
  excludeMask (threshold_gt slope threshold finite) exclusion.

(** [morphologicalClose(mask, radiusMeters, pixelSize)]. *)
Definition morphologicalClose (mask : array bool) (radiusMeters pixelSize : Q)
    : array bool :=
  let n := Z.to_nat (Qceiling (radiusMeters / pixelSize / 2)) in
  Nat.iter n (erode_once generate_binary_structure_2_1)
    (Nat.iter n (dilate_once generate_binary_structure_2_1) mask).

(** [dilate(mask, radiusMeters, pixelSize)]. *)
Definition dilate (mask : array bool) (radiusMeters pixelSize : Q)
    : array bool :=
  let n := Z.to_nat (Qceiling (radiusMeters / pixelSize)) in
  Nat.iter n (dilate_once generate_binary_structure_2_1) mask.

Section WithLibraries.

Context {G : Type} `{SH : Shapely G} `{TK : Toolkit G}.

(** [clusterByProximity(geometry, proximityMeters)]. *)
Definition clusterByProximity (geom : G) (proximityMeters : Q) : G :=
  buffer (buffer geom (proximityMeters / 2)%Q) (- (proximityMeters / 2))%Q.

(** [nearestNeighborDistances]: the single parts of the polygons. *)
Definition single_parts (polygons : GeoDataFrame G) : list G :=
  flat_map parts (map geometry polygons).

(** A part has a neighbour in range when another part is closer than
    [maxSearchRadius]. *)
Definition neighbour_in_range (all_parts : list G) (maxSearchRadius : Q)
    (i : nat) (part : G) : Prop :=
  exists k other,
    nth_error all_parts k = Some other /\ k <> i
    /\ (distance part other < maxSearchRadius)%Q.

(** A record names a part, the other part at minimum exact distance from
    it, and that distance to one decimal. *)
Definition nearest_record (all_parts : list G) (maxSearchRadius : Q)
    (row : Stats.distance_row) : Prop :=
  exists part j nearest,
    nth_error all_parts (Stats.hill_id row) = Some part
    /\ nth_error all_parts j = Some nearest
    /\ j <> Stats.hill_id row
    /\ Stats.nearest_id row = Z.of_nat j
    /\ Stats.distance_m row = Py.round (distance part nearest) 1
    /\ (distance part nearest < maxSearchRadius)%Q
    /\ forall k other,
         nth_error all_parts k = Some other -> k <> Stats.hill_id row ->
         (distance part nearest <= distance part other)%Q.

End WithLibraries.

End Spec.

(** ** Python strings *)

From Stdlib Require Import Ascii.
From Stdlib Require DecimalString.

Module PyStr.

(** [str(n)] for a natural number. *)
Definition decimal (n : nat) : string :=
  DecimalString.NilEmpty.string_of_uint (Nat.to_uint n).

(** [str(z)] for an integer. *)
Definition str (z : Z) : string :=
  if z <? 0 then ("-" ++ decimal (Z.abs_nat z))%string
  else decimal (Z.abs_nat z).

Fixpoint zeros (n : nat) : string :=
  match n with
  | O => ""%string
  | S k => String "0"%char (zeros k)
  end.

(** [f"{n:0{width}d}"] for a natural number: at least [width] digits,
    padded with zeros on the left. *)
Definition format_0d (width n : nat) : string :=
  (zeros (width - String.length (decimal n)) ++ decimal n)%string.

(** The blanks that [int] strips: the ASCII characters for which
    [str.isspace] holds. *)
Definition is_space (c : ascii) : bool :=
  let n := nat_of_ascii c in
  ((9 <=? n) && (n <=? 13) || (28 <=? n) && (n <=? 32))%nat.

Definition digit_value (c : ascii) : option Z :=
  let n := nat_of_ascii c in
  if ((48 <=? n) && (n <=? 57))%nat then Some (Z.of_nat (n - 48)) else None.

Fixpoint lstrip (l : list ascii) : list ascii :=
  match l with
  | c :: rest => if is_space c then lstrip rest else l
  | [] => []
  end.

Definition strip (l : list ascii) : list ascii :=
  rev (lstrip (rev (lstrip l))).

(** Decimal digits, with single underscores allowed between digits. *)
Fixpoint digits_value (l : list ascii) (acc : Z) (after_digit : bool)
    : option Z :=
  match l with
  | [] => if after_digit then Some acc else None
  | c :: rest =>
    if Ascii.eqb c "_"%char then
      if after_digit then digits_value rest acc false else None
    else
      match digit_value c with
      | Some d => digits_value rest (10 * acc + d) true
      | None => None
      end
  end.

(** [int(s)] for an ASCII string; [None] stands for the ValueError. *)
Definition int (s : string) : option Z :=
  match strip (list_ascii_of_string s) with
  | "+"%char :: rest => digits_value rest 0 false
  | "-"%char :: rest => option_map Z.opp (digits_value rest 0 false)
  | l => digits_value l 0 false
  end.

(** [s[a:b]] for [0 <= a <= b]. *)
Definition slice (s : string) (a b : nat) : string :=
  String.substring a (b - a) s.

(** [range(a, b)]. *)
Definition range (a b : Z) : list Z :=
  map (fun i => a + Z.of_nat i) (seq 0 (Z.to_nat (b - a))).

End PyStr.

(** ** srtm_download.py *)

Module SrtmDownload.

(** Lines 41-43: the name of the tile whose south-west corner is
    [(lat, lon)]. *)
Definition tile_name (lat lon : Z) : string :=
  let lat_hem := if 0 <=? lat then "N"%string else "S"%string in
  let lon_hem := if 0 <=? lon then "E"%string else "W"%string in
  (lat_hem ++ PyStr.format_0d 2 (Z.abs_nat lat)
   ++ lon_hem ++ PyStr.format_0d 3 (Z.abs_nat lon))%string.

(** [get_srtm_tile_names] (lines 19-46); [bounds] is
    [(minx, miny, maxx, maxy)]. *)
Definition get_srtm_tile_names (bounds : Q * Q * Q * Q) : list string :=
  let '(minx, miny, maxx, maxy) := bounds in
  let lat_min := Py.floor miny in
  let lat_max := Py.floor maxy in
  let lon_min := Py.floor minx in
  let lon_max := Py.floor maxx in
  flat_map (fun lat =>
      map (fun lon => tile_name lat lon) (PyStr.range lon_min (lon_max + 1)))
    (PyStr.range lat_min (lat_max + 1)).

Inductive parse_error : Type :=
| IndexError
| IntValueError.

(** Lines 68-81 of [download_srtm_tile_opentopography]: the one-degree
    box [(south, north, west, east)] read back from a tile name
    ([download_srtm_tile_usgs] reads the name the same way, lines
    142-145). *)
Definition tile_request_box (tile_name : string)
    : parse_error + (Z * Z * Z * Z) :=
  match String.get 0 tile_name with
  | None => inl IndexError
  | Some lat_hem =>
    match PyStr.int (PyStr.slice tile_name 1 3) with
    | None => inl IntValueError
    | Some lat =>
      match String.get 3 tile_name with
      | None => inl IndexError
      | Some lon_hem =>
        match PyStr.int (PyStr.slice tile_name 4 7) with
        | None => inl IntValueError
        | Some lon =>
          let lat_val := if Ascii.eqb lat_hem "N"%char then lat else - lat in
          let lon_val := if Ascii.eqb lon_hem "E"%char then lon else - lon in
          inr (lat_val, lat_val + 1, lon_val, lon_val + 1)
        end
      end
    end
  end.

End SrtmDownload.

(** ** dem_providers.py *)

Module DemProviders.

(** [_cop_tile_id] (lines 32-40). *)
Definition _cop_tile_id (lat lon : Z) : string :=
  let ns := if 0 <=? lat then "N"%string else "S"%string in
  let ew := if 0 <=? lon then "E"%string else "W"%string in
  (ns ++ PyStr.format_0d 2 (Z.abs_nat lat) ++ "_00_"
   ++ ew ++ PyStr.format_0d 3 (Z.abs_nat lon) ++ "_00")%string.

(** [get_tile_names_for_bounds] (lines 43-67). *)
Definition get_tile_names_for_bounds (bounds : Q * Q * Q * Q)
    : list (Z * Z * string) :=
  let '(minx, miny, maxx, maxy) := bounds in
  let lat_min := Py.floor miny in
  let lat_max := Py.floor maxy in
  let lon_min := Py.floor minx in
  let lon_max := Py.floor maxx in
  flat_map (fun lat =>
      map (fun lon => (lat, lon, _cop_tile_id lat lon))
          (PyStr.range lon_min (lon_max + 1)))
    (PyStr.range lat_min (lat_max + 1)).

(** Lines 239-241 of [download_dem_for_bounds]: the SRTM name used for
    the fallback download of a tile. *)
Definition srtm_tile_id (lat lon : Z) : string :=
  let ns := if 0 <=? lat then "N"%string else "S"%string in
  let ew := if 0 <=? lon then "E"%string else "W"%string in
  (ns ++ PyStr.format_0d 2 (Z.abs_nat lat)
   ++ ew ++ PyStr.format_0d 3 (Z.abs_nat lon))%string.

(** [download_dem_for_bounds] (lines 197-264), for given outcomes of the
    two downloads of a tile ([None]: the tile is unavailable) and of the
    merge.  The function returns the output path it was given; the value
    here is the list of tile files it merged into that path. *)
Definition download_dem_for_bounds {Path : Type}
    (download_copernicus_tile : Z -> Z -> string -> option Path)
    (download_srtm_tile_opentopo : Z -> Z -> string -> option Path)
    (merge_srtm_tiles : list Path -> result unit)
    (bounds : Q * Q * Q * Q) (provider : string) : result (list Path) :=
  let tiles := get_tile_names_for_bounds bounds in
  let tile_paths :=
    flat_map (fun tile : Z * Z * string =>
        let '(lat, lon, tile_id) := tile in
        let tile_path :=
          if String.eqb provider "copernicus"
          then download_copernicus_tile lat lon tile_id else None in
        let tile_path :=
          match tile_path with
          | None => download_srtm_tile_opentopo lat lon (srtm_tile_id lat lon)
          | Some _ => tile_path
          end in
        match tile_path with
        | Some path => [path]
        | None => []
        end)
      tiles in
  match tile_paths with
  | [] => Raise (LibraryError "RuntimeError: Failed to download any DEM tiles")
  | _ =>
    _ <- merge_srtm_tiles tile_paths ;;
    Ok tile_paths
  end.

End DemProviders.

(** ** core.py: the projected coordinate system *)

Module CoreCrs.

(** The zone computed on line 254 of [estimate_utm_crs]. *)
Definition utm_zone (lon : Q) : Z := Py.int ((lon + (180 # 1)) / (6 # 1)) + 1.

(** [estimate_utm_crs] (lines 242-262). *)
Definition estimate_utm_crs (lat lon : Q) : string :=
  let zone := utm_zone lon in
  let epsg := if Py.Qleb 0 lat then 32600 + zone else 32700 + zone in
  ("EPSG:" ++ PyStr.str epsg)%string.

End CoreCrs.

(** ** stats.py: elevation within a polygon *)

Module StatsPolygon.

Import Np.



Section WithLibraries.

Context {G : Type} `{SH : Shapely G} `{TK : Toolkit G}.


End WithLibraries.

End StatsPolygon.


(** ** old_method.py: the mask before the morphological stages *)

Module OldMethodMask.

Import Np.

(** Line 65: [(slope_deg > slope_threshold) & np.isfinite(Z)]. *)
Definition slope_mask (slope_deg : array (option Q)) (slope_threshold : Q)
    (Zg : array (option Q)) : array bool :=
  tabulate (nrows slope_deg) (ncols slope_deg) (fun r c =>
    match get None slope_deg r c with
    | Some s => Py.Qltb slope_threshold s
    | None => false
    end && get false (isfinite Zg) r c).

(** Lines 65-83 of [compute_old_delineation]: [slope_mask] and
    [masked_pixels] as they stand when line 85 tests the count. *)
Definition urban_filtered (slope_deg : array (option Q)) (slope_threshold : Q)
    (Zg : array (option Q)) (urban_mask : option (array bool))
    : array bool * Z :=
  let slope_mask := slope_mask slope_deg slope_threshold Zg in
  let masked_pixels := count slope_mask in
  match urban_mask with
  | Some urban =>
    if count urban >? 0 then
      let slope_mask :=
        tabulate (nrows slope_mask) (ncols slope_mask) (fun r c =>
          get false slope_mask r c && negb (get false urban r c)) in
      (slope_mask, count slope_mask)
    else (slope_mask, masked_pixels)
  | None => (slope_mask, masked_pixels)
  end.

End OldMethodMask.
(** ** Concrete inputs

    Small elevation grids and parameter sets on which the definitions are
    run. *)

Module Examples.

Import Np.

Definition m (n : Z) : option Q := Some (inject_Z n).

Definition small_grid : array (option Q) :=
  [[m 5; None; m 9];
   [m 7; m 2; m 4]].

(** A ridge along a transect sampled at 30 m, with one missing cell. *)
Definition ridge : dem_data :=
  mkDem [[m 0; m 0; m 50; m 120; m 200; m 120; m 50; m 0; m 0; None];
         [m 0; m 0; m 50; m 120; m 200; m 120; m 50; m 0; m 0; None];
         [m 0; m 0; m 50; m 120; m 200; m 120; m 50; m 0; m 0; None]]
        (mkAffine (30 # 1) 0 (- (30 # 1)) 0) "EPSG:32643" (30 # 1).

(** A grid without a single finite value. *)
Definition void : dem_data :=
  mkDem [[None; None; None]; [None; None; None]]
        (mkAffine (30 # 1) 0 (- (30 # 1)) 0) "EPSG:32643" (30 # 1).

Definition relief_params : NewMethod.params :=
  NewMethod.mkParams "relief" (100 # 1) (500 # 1) (150 # 1) (50 # 1).

Definition contour_params : NewMethod.params :=
  NewMethod.mkParams "contour" (100 # 1) (500 # 1) (150 # 1) (50 # 1).

Definition old_params : OldMethod.params :=
  OldMethod.mkParams (1 # 1) (30 # 1) (60 # 1).

(** The libraries of the transect model: cells traced one by one, and a
    contouring call that works, that raises, or that finds only open
    lines. *)
Definition tk_rows : Toolkit Transect.geom :=
  Transect.toolkit Transect.trace_cells Transect.contour_rows.

Definition tk_unavailable : Toolkit Transect.geom :=
  Transect.toolkit Transect.trace_cells Transect.contour_unavailable.

Definition tk_open : Toolkit Transect.geom :=
  Transect.toolkit Transect.trace_cells Transect.contour_open.

Definition tk_pinched : Toolkit Transect.geom :=
  Transect.toolkit Transect.trace_pinched Transect.contour_rows.

(** The slope grid of the ridge in the transect model. *)
Definition ridge_slope : array (option Q) :=
  Eval vm_compute in
    match OldMethod._compute_slope_degrees (TK := tk_rows)
            (elevation ridge) (pixel_size_m ridge) with
    | Ok slope_deg => slope_deg
    | Raise _ => []
    end.

(** Built-up cells on the eastern flank of the ridge. *)
Definition ridge_urban : array bool :=
  [[false; false; false; false; false; true; true; false; false; false];
   [false; false; false; false; false; true; true; false; false; false];
   [false; false; false; false; false; false; true; false; false; false]].

(** Three columns of cells with a single cell between them. *)
Definition dotted_mask : array bool :=
  [[false; false; false; false; false; false; false];
   [false; true; false; false; false; true; false];
   [false; true; false; true; false; true; false];
   [false; true; false; false; false; true; false];
   [false; false; false; false; false; false; false]].

(** Closed contours around the ridge, in the order the levels were traced
    from the top down, with two rings at the 100 m level. *)
Definition ridge_contours : list (NewMethod.closed_contour Transect.geom) :=
  [NewMethod.mkContour (150 # 1) [(105, 135)]%Q;
   NewMethod.mkContour (100 # 1) [(75, 165)]%Q;
   NewMethod.mkContour (100 # 1) [(60, 180)]%Q;
   NewMethod.mkContour (50 # 1) [(45, 195)]%Q;
   NewMethod.mkContour (150 # 1) [(400, 500)]%Q].

(** Three hills along a line, 100 m and 300 m apart, as one multi-part
    feature. *)
Definition three_hills : GeoDataFrame Transect.geom :=
  [mkFeature (Some "NEW_2025_relief"%string)
     [(0, 10); (110, 120); (420, 430)]%Q].

(** A plateau: every cell at 250 m. *)
Definition plateau : dem_data :=
  mkDem [[m 250; m 250; m 250]; [m 250; m 250; m 250]; [m 250; m 250; m 250]]
        (mkAffine (30 # 1) 0 (- (30 # 1)) 0) "EPSG:32643" (30 # 1).

(** The ridge with a degenerate transform: a pixel size of zero. *)
Definition ridge_unscaled : dem_data :=
  mkDem (elevation ridge) (transform ridge) "EPSG:32643" 0.

Definition ridge_unscaled_slope : array (option Q) :=
  Eval vm_compute in
    match OldMethod._compute_slope_degrees (TK := tk_rows)
            (elevation ridge_unscaled) (pixel_size_m ridge_unscaled) with
    | Ok slope_deg => slope_deg
    | Raise _ => []
    end.

(** OLD parameters whose slope threshold every finite slope exceeds. *)
Definition old_params_permissive : OldMethod.params :=
  OldMethod.mkParams (- (1 # 1)) (30 # 1) (60 # 1).

End Examples.

(** * Properties *)

(** ** Arrays *)

Section ArrayFacts.

Import Np.

Context {A : Type}.

Lemma nrows_tabulate (n m : nat) (f : nat -> nat -> A) :
  nrows (tabulate n m f) = n.
Proof. unfold nrows, tabulate. now rewrite length_map, length_seq. Qed.

Lemma ncols_tabulate (n m : nat) (f : nat -> nat -> A) :
  (0 < n)%nat -> ncols (tabulate n m f) = m.
Proof.
  intros Hn. unfold ncols, tabulate.
  destruct n as [|n]; [lia|].
  simpl. now rewrite length_map, length_seq.
Qed.

Lemma get_tabulate (d : A) (n m : nat) (f : nat -> nat -> A) (r c : nat) :
  (r < n)%nat -> (c < m)%nat -> get d (tabulate n m f) r c = f r c.
Proof.
  intros Hr Hc. unfold get, tabulate.
  rewrite (nth_indep _ [] (map (fun c0 => f 0%nat c0) (seq 0 m)))
    by now rewrite length_map, length_seq.
  rewrite (map_nth (fun r0 => map (fun c0 => f r0 c0) (seq 0 m)) (seq 0 n) 0%nat r).
  rewrite seq_nth by assumption. simpl.
  rewrite (nth_indep _ d (f r 0%nat)) by now rewrite length_map, length_seq.
  rewrite (map_nth (fun c0 => f r c0) (seq 0 m) 0%nat c).
  now rewrite seq_nth.
Qed.

Lemma get_outside (d : A) (g : array A) (r c : nat) :
  (nrows g <= r)%nat -> get d g r c = d.
Proof.
  intros Hr. unfold get. rewrite (nth_overflow g) by exact Hr. now destruct c.
Qed.

Lemma tabulate_ext (n m : nat) (f h : nat -> nat -> A) :
  (forall r c, (r < n)%nat -> (c < m)%nat -> f r c = h r c) ->
  tabulate n m f = tabulate n m h.
Proof.
  intros E. unfold tabulate.
  apply map_ext_in. intros r Hr. apply in_seq in Hr.
  apply map_ext_in. intros c Hc. apply in_seq in Hc.
  apply E; lia.
Qed.

(** Reading back every cell of a tabulated array rebuilds it. *)
Lemma tabulate_get (d : A) (n m : nat) (f : nat -> nat -> A) :
  let t := tabulate n m f in
  tabulate (nrows t) (ncols t) (fun r c => get d t r c) = t.
Proof.
  intros t. subst t. rewrite nrows_tabulate.
  destruct n as [|n]; [reflexivity|].
  rewrite ncols_tabulate by lia.
  apply tabulate_ext. intros r c Hr Hc. now apply get_tabulate.
Qed.

Lemma get_In (d : A) (g : array A) (r c : nat) :
  get d g r c = d \/ In (get d g r c) (ravel g).
Proof.
  unfold get, ravel.
  destruct (Nat.lt_ge_cases r (length g)) as [Hr|Hr].
  - destruct (Nat.lt_ge_cases c (length (nth r g []))) as [Hc|Hc].
    + right. apply in_concat. exists (nth r g []). split.
      * now apply nth_In.
      * now apply nth_In.
    + left. now apply nth_overflow.
  - left. rewrite (nth_overflow g) by exact Hr. now destruct c.
Qed.

End ArrayFacts.

(** ** Scalars *)

Lemma Qleb_true (x y : Q) : Py.Qleb x y = true <-> (x <= y)%Q.
Proof. unfold Py.Qleb. apply Qle_bool_iff. Qed.

Lemma Qleb_false (x y : Q) : Py.Qleb x y = false -> (y <= x)%Q.
Proof.
  intros H. apply Qlt_le_weak, Qnot_le_lt. intros L.
  apply Qleb_true in L. congruence.
Qed.

Lemma Qltb_true (x y : Q) : Py.Qltb x y = true <-> (x < y)%Q.
Proof.
  unfold Py.Qltb. rewrite negb_true_iff. split.
  - intros H. apply Qnot_le_lt. intros L. apply Qle_bool_iff in L. congruence.
  - intros H. destruct (Qle_bool y x) eqn:E; [|reflexivity].
    apply Qle_bool_iff in E. exfalso. exact (Qlt_not_le _ _ H E).
Qed.

Lemma Qltb_false (x y : Q) : Py.Qltb x y = false <-> (y <= x)%Q.
Proof.
  unfold Py.Qltb. rewrite negb_false_iff. apply Qle_bool_iff.
Qed.

Lemma div_positive (a b : Q) : (0 < b)%Q -> Py.div a b = Ok (a / b)%Q.
Proof.
  intros Hb. unfold Py.div.
  destruct (Qeq_bool b 0) eqn:E; [|reflexivity].
  apply Qeq_bool_eq in E. rewrite E in Hb. now apply Qlt_irrefl in Hb.
Qed.

Lemma div_nonzero (a b : Q) : ~ (b == 0)%Q -> Py.div a b = Ok (a / b)%Q.
Proof.
  intros Hb. unfold Py.div.
  destruct (Qeq_bool b 0) eqn:E; [|reflexivity].
  apply Qeq_bool_eq in E. contradiction.
Qed.

Lemma fold_left_Qmin_le (l : list Q) (x y : Q) :
  In y (x :: l) -> (fold_left Qmin l x <= y)%Q.
Proof.
  revert x y. induction l as [|z l IH]; intros x y H; simpl in *.
  - destruct H as [->|[]]. apply Qle_refl.
  - destruct H as [->|[->|H]].
    + eapply Qle_trans; [apply IH; now left|]. apply Q.le_min_l.
    + eapply Qle_trans; [apply IH; now left|]. apply Q.le_min_r.
    + apply IH. now right.
Qed.

Lemma min_list_le (l : list Q) (m y : Q) :
  Np.min_list l = Some m -> In y l -> (m <= y)%Q.
Proof.
  destruct l as [|x l]; simpl; [discriminate|].
  intros [= <-] H. now apply fold_left_Qmin_le.
Qed.

(** ** The window of the local-relief filter *)

Section Window.

Import NewMethod.

Lemma odd_window_odd (lo : Z) (meters pixel_size : Q) :
  Z.odd lo = true -> (0 < pixel_size)%Q ->
  exists w, odd_window lo meters pixel_size = Ok w
            /\ Z.odd w = true /\ lo <= w.
Proof.
  intros Hlo Hpx. unfold odd_window.
  rewrite (div_positive _ _ Hpx). cbn [bind].
  set (w := Z.max lo (Py.int (meters / pixel_size))).
  assert (Hw : lo <= w) by (unfold w; lia).
  destruct (w mod 2 =? 0) eqn:E; eexists; split; try reflexivity; split.
  - apply Z.eqb_eq in E. rewrite Z.odd_add. cbn.
    rewrite <- Z.negb_even, Zeven_mod, E. reflexivity.
  - lia.
  - apply Z.eqb_neq in E. rewrite <- Z.negb_even, Zeven_mod.
    apply negb_true_iff. now apply Z.eqb_neq.
  - exact Hw.
Qed.

(** C9. For every [radiusMeters > 0] and [pixelSize > 0] the relief method
    computes a window size, and that size is an odd integer that is at
    least 3. *)
Theorem window_size_odd_and_at_least_3 (radiusMeters pixelSize : Q) :
  (0 < radiusMeters)%Q -> (0 < pixelSize)%Q ->
  exists w, window_size radiusMeters pixelSize = Ok w
            /\ Z.odd w = true /\ 3 <= w.
Proof.
  intros _ Hpx. now apply odd_window_odd.
Qed.

Lemma window_size_odd_and_at_least_3_witness :
  (0 < 2000 # 1)%Q /\ (0 < 30 # 1)%Q /\
  exists w, window_size (2000 # 1) (30 # 1) = Ok w
            /\ Z.odd w = true /\ 3 <= w.
Proof.
  split; [reflexivity|]. split; [reflexivity|].
  apply window_size_odd_and_at_least_3; reflexivity.
Defined.

Example window_size_2000_30 : window_size (2000 # 1) (30 # 1) = Ok 67.
Proof. reflexivity. Qed.

Example window_size_even_quotient : window_size (120 # 1) (30 # 1) = Ok 5.
Proof. reflexivity. Qed.

Example window_size_small_radius : window_size (1 # 1) (30 # 1) = Ok 3.
Proof. reflexivity. Qed.

Example window_size_zero_pixel : window_size (2000 # 1) 0 = Raise ZeroDivisionError.
Proof. reflexivity. Qed.

End Window.

(** ** The local-relief grid of the fast method *)

Section Relief.

Import Np Ndimage NewMethod.

Lemma nrows_map2d {A B} (f : A -> B) (g : array A) :
  nrows (map2d f g) = nrows g.
Proof. unfold nrows, map2d. apply length_map. Qed.

Lemma ncols_map2d {A B} (f : A -> B) (g : array A) :
  ncols (map2d f g) = ncols g.
Proof. destruct g as [|row g]; [reflexivity|]. cbn. apply length_map. Qed.

Lemma reflect_inside (n r : nat) : (r < n)%nat -> reflect n (Z.of_nat r + 0) = r.
Proof.
  intros Hr. unfold reflect. rewrite Z.add_0_r.
  rewrite Z.mod_small by lia.
  assert (E : (Z.of_nat r <? Z.of_nat n) = true) by (apply Z.ltb_lt; lia).
  rewrite E. apply Nat2Z.id.
Qed.

Lemma window_offsets_centre (size : Z) : 1 <= size -> In 0 (window_offsets size).
Proof.
  intros Hs. unfold window_offsets. apply in_map_iff.
  exists (Z.to_nat (size / 2)). split.
  - rewrite Z2Nat.id; [lia|]. apply Z.div_pos; lia.
  - apply in_seq. split; [lia|]. cbn.
    apply Z2Nat.inj_lt; [apply Z.div_pos; lia | lia |].
    apply Z.div_lt; lia.
Qed.

(** The centred window contains the cell itself. *)
Lemma window_values_centre (g : array Q) (size : Z) (r c : nat) :
  1 <= size -> (r < nrows g)%nat -> (c < ncols g)%nat ->
  In (get 0%Q g r c) (window_values g size r c).
Proof.
  intros Hs Hr Hc. unfold window_values.
  apply in_flat_map. exists 0. split; [now apply window_offsets_centre|].
  apply in_map_iff. exists 0. split; [|now apply window_offsets_centre].
  now rewrite !reflect_inside.
Qed.

Lemma minimum_filter_le (g : array Q) (size : Z) (r c : nat) :
  1 <= size -> (r < nrows g)%nat -> (c < ncols g)%nat ->
  (get 0%Q (minimum_filter g size) r c <= get 0%Q g r c)%Q.
Proof.
  intros Hs Hr Hc. unfold minimum_filter.
  rewrite get_tabulate by assumption.
  destruct (min_list (window_values g size r c)) as [v|] eqn:E.
  - eapply min_list_le; [exact E|]. now apply window_values_centre.
  - apply Qle_refl.
Qed.

Lemma relief_grid_cell (Zg : array (option Q)) (size : Z) (r c : nat) :
  (r < nrows Zg)%nat -> (c < ncols Zg)%nat ->
  get 0%Q (relief_grid Zg size) r c =
  (get 0%Q (Z_filled Zg) r c
   - get 0%Q (minimum_filter (Z_filled Zg) size) r c)%Q.
Proof.
  intros Hr Hc. unfold relief_grid.
  rewrite get_tabulate; [reflexivity| |];
    unfold Z_filled, where_finite; now rewrite ?nrows_map2d, ?ncols_map2d.
Qed.

Lemma relief_grid_shape (Zg : array (option Q)) (size : Z) :
  nrows (relief_grid Zg size) = nrows Zg
  /\ ((0 < nrows Zg)%nat -> ncols (relief_grid Zg size) = ncols Zg).
Proof.
  unfold relief_grid, Z_filled, where_finite. split.
  - now rewrite nrows_tabulate, nrows_map2d.
  - intros H. rewrite ncols_tabulate; rewrite ?nrows_map2d, ?ncols_map2d; auto.
Qed.

(** C10. In the fast relief method the relief grid (filled elevation minus
    its sliding-window minimum) is non-negative at every cell, for every
    input grid and every window size, because the centred window contains
    the cell itself; so with a relief threshold of 0 the relief mask
    contains every finite-elevation cell. *)
Theorem relief_grid_nonnegative (Zg : array (option Q)) (size : Z) (r c : nat) :
  1 <= size -> (r < nrows Zg)%nat -> (c < ncols Zg)%nat ->
  (0 <= get 0%Q (relief_grid Zg size) r c)%Q
  /\ (get false (isfinite Zg) r c = true ->
      get false (relief_mask Zg size 0%Q) r c = true).
Proof.
  intros Hs Hr Hc.
  assert (Hrel : (0 <= get 0%Q (relief_grid Zg size) r c)%Q).
  { rewrite relief_grid_cell by assumption.
    apply (Qplus_le_l _ _ (get 0%Q (minimum_filter (Z_filled Zg) size) r c)).
    ring_simplify.
    apply minimum_filter_le; [exact Hs| |];
      unfold Z_filled, where_finite; now rewrite ?nrows_map2d, ?ncols_map2d. }
  split; [exact Hrel|].
  intros Hfin. unfold relief_mask.
  destruct (relief_grid_shape Zg size) as [Hn Hm].
  rewrite get_tabulate; [| rewrite Hn; exact Hr | rewrite Hm; [exact Hc|lia]].
  rewrite Hfin, andb_true_r. now apply Qleb_true.
Qed.

Lemma relief_grid_nonnegative_witness :
  1 <= 3 /\ (1 < nrows Examples.small_grid)%nat
  /\ (2 < ncols Examples.small_grid)%nat
  /\ (0 <= get 0%Q (relief_grid Examples.small_grid 3) 1 2)%Q
  /\ (get false (isfinite Examples.small_grid) 1 2 = true ->
      get false (relief_mask Examples.small_grid 3 0%Q) 1 2 = true).
Proof.
  split; [lia|]. split; [cbn; lia|]. split; [cbn; lia|].
  apply (relief_grid_nonnegative Examples.small_grid 3 1 2); cbn; lia.
Defined.

Example relief_grid_example :
  relief_grid Examples.small_grid 3 = [[3; 0; 7]; [5; 0; 2]]%Q.
Proof. reflexivity. Qed.

Example relief_mask_threshold_0 :
  relief_mask Examples.small_grid 3 0%Q = isfinite Examples.small_grid.
Proof. reflexivity. Qed.

End Relief.

(** ** The enclosure search of the contour method *)

Section Enclosure.

Import Np NewMethod.

Context {G : Type} `{SH : Shapely G}.

Lemma insert_contour_perm (x : closed_contour G) (l : list (closed_contour G)) :
  Permutation (x :: l) (insert_contour x l).
Proof.
  induction l as [|y l IH]; cbn.
  - apply Permutation_refl.
  - destruct (Py.Qleb (cc_elevation x) (cc_elevation y)).
    + apply Permutation_refl.
    + eapply perm_trans; [apply perm_swap|]. now apply perm_skip.
Qed.

Lemma insert_contour_sorted (x : closed_contour G) (l : list (closed_contour G)) :
  StronglySorted by_elevation l ->
  StronglySorted by_elevation (insert_contour x l).
Proof.
  induction 1 as [|y l Hs IH Hy]; cbn.
  - constructor; constructor.
  - destruct (Py.Qleb (cc_elevation x) (cc_elevation y)) eqn:E.
    + apply Qleb_true in E. constructor.
      * now constructor.
      * constructor; [exact E|].
        eapply Forall_impl; [|exact Hy].
        intros z Hz. unfold by_elevation in *. eapply Qle_trans; eassumption.
    + apply Qleb_false in E. constructor; [exact IH|].
      eapply Permutation_Forall; [apply insert_contour_perm|].
      now constructor.
Qed.

Lemma sort_contours_perm (l : list (closed_contour G)) :
  Permutation l (sort_contours l).
Proof.
  induction l as [|x l IH]; cbn; [constructor|].
  eapply perm_trans; [apply perm_skip, IH|]. apply insert_contour_perm.
Qed.

Lemma sort_contours_sorted (l : list (closed_contour G)) :
  StronglySorted by_elevation (sort_contours l).
Proof.
  induction l as [|x l IH]; cbn; [constructor|].
  now apply insert_contour_sorted.
Qed.

(** Equal elevations keep their order: inserting in front of a list whose
    elevations are all at least the new one leaves the new one in front. *)
Lemma insert_contour_stable (x : closed_contour G) (l : list (closed_contour G)) :
  Forall (by_elevation x) l -> insert_contour x l = x :: l.
Proof.
  destruct 1 as [|y l Hy _]; cbn; [reflexivity|].
  apply Qleb_true in Hy. now rewrite Hy.
Qed.

(** What the scan of one peak appends: nothing when no contour contains
    the peak; otherwise it is decided by the first contour that does. *)
Lemma scan_contours_first (cs : list (closed_contour G)) (pt : Q * Q)
    (pe thr : Q) :
  ((forall c, In c cs -> contains (cc_geometry c) pt = false)
   /\ scan_contours cs pt pe thr = [])
  \/ (exists before c after,
        cs = before ++ c :: after
        /\ (forall c', In c' before -> contains (cc_geometry c') pt = false)
        /\ contains (cc_geometry c) pt = true
        /\ scan_contours cs pt pe thr =
           if Py.Qleb thr (pe - cc_elevation c)
           then [mkHill pe (cc_elevation c) (pe - cc_elevation c)%Q
                        (cc_geometry c)]
           else []).
Proof.
  induction cs as [|c cs IH]; cbn.
  - left. split; [intros c []|reflexivity].
  - destruct (contains (cc_geometry c) pt) eqn:E.
    + right. exists [], c, cs. repeat split; auto. intros c' [].
    + destruct IH as [[Hno Hs]|(before & c0 & after & -> & Hb & Hc & Hs)].
      * left. split; [|exact Hs]. intros c' [<-|H]; auto.
      * right. exists (c :: before), c0, after. repeat split; auto.
        intros c' [<-|H]; auto.
Qed.

Lemma sorted_split_lowest (before after : list (closed_contour G))
    (c : closed_contour G) :
  StronglySorted by_elevation (before ++ c :: after) ->
  forall c', In c' after -> by_elevation c c'.
Proof.
  induction before as [|b before IH]; cbn; intros Hs c' Hin.
  - inversion Hs as [|? ? _ Hall]; subst.
    rewrite Forall_forall in Hall. now apply Hall.
  - inversion Hs; subst. now apply IH.
Qed.

(** C1. The closed contours are sorted ascending by elevation; for every
    peak the scan accepts the first contour of that order whose polygon
    contains the peak point, which is a lowest containing contour, and
    looks no further; the relief is the peak elevation minus that contour's
    elevation, and the peak is kept as a hill footprint only if the relief
    is at least the threshold. *)
Theorem enclosure_search_lowest_contour (tr : Affine) (filled : array Q)
    (contours : list (closed_contour G)) (peaks : list (nat * nat)) (thr : Q) :
  let sorted := sort_contours contours in
  StronglySorted by_elevation sorted
  /\ Permutation contours sorted
  /\ enclosure_search tr filled contours peaks thr =
     flat_map (fun pk => scan_contours sorted (peak_point tr pk)
                           (peak_elevation filled pk) thr) peaks
  /\ forall pk,
       let pt := peak_point tr pk in
       let pe := peak_elevation filled pk in
       ((forall c, In c contours -> contains (cc_geometry c) pt = false)
        /\ scan_contours sorted pt pe thr = [])
       \/ (exists before c after,
             sorted = before ++ c :: after
             /\ (forall c', In c' before ->
                            contains (cc_geometry c') pt = false)
             /\ contains (cc_geometry c) pt = true
             /\ (forall c', In c' contours ->
                            contains (cc_geometry c') pt = true ->
                            (cc_elevation c <= cc_elevation c')%Q)
             /\ scan_contours sorted pt pe thr =
                if Qle_bool thr (pe - cc_elevation c)
                then [mkHill pe (cc_elevation c) (pe - cc_elevation c)%Q
                             (cc_geometry c)]
                else []).
Proof.
  intros sorted.
  pose proof (sort_contours_sorted contours) as Hsorted.
  pose proof (sort_contours_perm contours) as Hperm.
  fold sorted in Hsorted, Hperm.
  split; [exact Hsorted|]. split; [exact Hperm|]. split; [reflexivity|].
  intros pk pt pe.
  destruct (scan_contours_first sorted pt pe thr)
    as [[Hno Hs]|(before & c & after & Heq & Hb & Hc & Hs)].
  - left. split; [|exact Hs].
    intros c Hin. apply Hno. eapply Permutation_in; eassumption.
  - right. exists before, c, after. repeat split; auto.
    intros c' Hin Hc'.
    assert (Hin' : In c' sorted) by (eapply Permutation_in; eassumption).
    rewrite Heq in Hin'. apply in_app_or in Hin'.
    destruct Hin' as [Hbefore|[<-|Hafter]].
    + rewrite (Hb _ Hbefore) in Hc'. discriminate.
    + apply Qle_refl.
    + rewrite Heq in Hsorted.
      exact (sorted_split_lowest before after c Hsorted c' Hafter).
Qed.

End Enclosure.

(** The peak of the ridge at row 0, column 4 (x = 120 m, 200 m high) is
    assigned the 50 m contour, the lowest one around it; the sort keeps the
    two 100 m rings in their order of arrival. *)
Example enclosure_search_on_ridge :
  NewMethod.sort_contours Examples.ridge_contours
  = [NewMethod.mkContour (50 # 1) [(45, 195)]%Q;
     NewMethod.mkContour (100 # 1) [(75, 165)]%Q;
     NewMethod.mkContour (100 # 1) [(60, 180)]%Q;
     NewMethod.mkContour (150 # 1) [(105, 135)]%Q;
     NewMethod.mkContour (150 # 1) [(400, 500)]%Q]
  /\ NewMethod.enclosure_search (transform Examples.ridge)
       (NewMethod.Z_filled (elevation Examples.ridge))
       Examples.ridge_contours [(0, 4)]%nat (100 # 1)
     = [NewMethod.mkHill (200 # 1) (50 # 1) ((200 # 1) - (50 # 1))%Q
          [(45, 195)]%Q].
Proof. split; reflexivity. Qed.

(** A point whose lowest enclosing contour leaves less relief than the
    threshold contributes nothing: the flank cell at column 3 (120 m high)
    lies in the 50 m ring, 70 m above it. *)
Example enclosure_search_below_threshold :
  NewMethod.enclosure_search (transform Examples.ridge)
    (NewMethod.Z_filled (elevation Examples.ridge))
    Examples.ridge_contours [(0, 3)]%nat (100 # 1)
  = [].
Proof. reflexivity. Qed.

(** ** The polygonizer *)

Section Polygonizer.

Import Np.

Context {G : Type} `{SH : Shapely G} `{TK : Toolkit G}.

(** The test a traced polygon has to pass. *)
Lemma polygonize_flat_map_filter (keep : G * Z -> bool) (l : list (G * Z)) :
  (forall gv, keep gv =
     (snd gv =? 1) && (is_valid (fst gv) && negb (is_empty (fst gv)))) ->
  flat_map (fun gv : G * Z =>
      let (geom, val) := gv in
      if val =? 1 then
        if is_valid geom && negb (is_empty geom) then [geom] else []
      else []) l
  = map fst (filter keep l).
Proof.
  intros Hkeep. induction l as [|[geom val] l IH]; cbn; [reflexivity|].
  rewrite Hkeep. cbn.
  destruct (val =? 1); cbn; [|exact IH].
  destruct (is_valid geom && negb (is_empty geom)); cbn; [|exact IH].
  now rewrite IH.
Qed.

(** C2, as amended. In both copies of the polygonizer a traced polygon is
    kept, unchanged, exactly when its value is 1 and it is valid and not
    empty as traced; any other polygon is dropped, and no zero-width
    buffer is applied to it first. *)
Theorem polygonize_mask_keeps_valid_as_traced (mask : array bool) (tr : Affine) :
  let keep (gv : G * Z) :=
    (snd gv =? 1) && (is_valid (fst gv) && negb (is_empty (fst gv))) in
  NewMethod._polygonize_mask mask tr =
    map (fun gv => mkFeature None (fst gv)) (filter keep (shapes mask tr))
  /\ OldMethod._polygonize_mask mask tr =
    map (fun gv => mkFeature None (fst gv)) (filter keep (shapes mask tr)).
Proof.
  intros keep.
  unfold NewMethod._polygonize_mask, OldMethod._polygonize_mask.
  rewrite (polygonize_flat_map_filter keep) by reflexivity.
  now rewrite map_map.
Qed.

End Polygonizer.

(** C2, as stated, fails: the traced ring [(0,2);(1,3)] is invalid, its
    zero-width buffer is valid and not empty, and both polygonizers return
    nothing for it. *)
Lemma polygonize_mask_drops_repairable :
  In ([(0, 2); (1, 3)]%Q, 1)
     (shapes (Toolkit := Examples.tk_pinched) [[true]] (transform Examples.ridge))
  /\ is_valid ([(0, 2); (1, 3)]%Q : Transect.geom) = false
  /\ is_valid (buffer ([(0, 2); (1, 3)]%Q : Transect.geom) 0%Q) = true
  /\ is_empty (buffer ([(0, 2); (1, 3)]%Q : Transect.geom) 0%Q) = false
  /\ NewMethod._polygonize_mask (TK := Examples.tk_pinched)
       [[true]] (transform Examples.ridge) = []
  /\ OldMethod._polygonize_mask (TK := Examples.tk_pinched)
       [[true]] (transform Examples.ridge) = [].
Proof.
  split; [now left|]. repeat split; reflexivity.
Qed.

(** ** The two NEW methods *)

Section NewMethods.

Import Np NewMethod.

Context {G : Type} `{SH : Shapely G} `{TK : Toolkit G}.

(** With a non-zero pixel size the relief method returns a layer. *)
Lemma relief_method_returns (dem : dem_data) (p : params) :
  ~ (pixel_size_m dem == 0)%Q ->
  exists gdf, _compute_relief_method dem p = Ok gdf.
Proof.
  intros Hpx. unfold _compute_relief_method, window_size, odd_window.
  rewrite (div_nonzero _ _ Hpx). cbn [bind].
  match goal with |- context [count ?m =? 0] => destruct (count m =? 0) end;
    [eexists; reflexivity|].
  match goal with |- context [_polygonize_mask ?m ?t] =>
    destruct (_polygonize_mask m t) end; eexists; reflexivity.
Qed.

(** C3. When the contour method reaches contour generation and the tracing
    raises, or ends without a closed contour, the method returns what the
    fast relief method returns for the same DEM and parameters; with a
    non-zero pixel size that is a layer, not an error. *)
Theorem contour_method_falls_back (dem : dem_data) (p : params)
    (levels : list Q) :
  any (isfinite (elevation dem)) = true ->
  contour_levels (Z_filled (elevation dem)) (contour_interval_m p) = Ok levels ->
  (exists e, trace_levels dem (Z_filled (elevation dem)) levels [] = Raise e)
  \/ trace_levels dem (Z_filled (elevation dem)) levels [] = Ok [] ->
  _compute_contour_method dem p = _compute_relief_method dem p
  /\ (~ (pixel_size_m dem == 0)%Q ->
      exists gdf, _compute_contour_method dem p = Ok gdf).
Proof.
  intros Hfin Hlev Htrace.
  assert (E : _compute_contour_method dem p = _compute_relief_method dem p).
  { unfold _compute_contour_method. rewrite Hfin. cbn [negb].
    rewrite Hlev. cbn [bind].
    destruct Htrace as [[e ->]| ->]; reflexivity. }
  split; [exact E|].
  intros Hpx. rewrite E. now apply relief_method_returns.
Qed.

(** C7. Given that the union of a one-element series is its element, the
    layer of either NEW method is the union of what its polygonization
    (relief) or enclosure search (contour) produced, buffered outwards by
    half the proximity distance and then inwards by the same amount. *)
Theorem proximity_clustering_after_union (dem : dem_data) (p : params) :
  (forall g : G, unary_union [g] = g) ->
  (forall w,
      window_size (relief_radius_m p) (pixel_size_m dem) = Ok w ->
      let mask := relief_mask (elevation dem) w (relief_threshold_m p) in
      let polygons := _polygonize_mask mask (transform dem) in
      count mask <> 0 -> polygons <> [] ->
      _compute_relief_method dem p =
      Ok [mkFeature (Some "NEW_2025_relief"%string)
            (Spec.clusterByProximity
               (unary_union (map (fun row => buffer (geometry row) 0%Q) polygons))
               (range_proximity_m p))])
  /\ (forall levels contours w,
      any (isfinite (elevation dem)) = true ->
      contour_levels (Z_filled (elevation dem)) (contour_interval_m p) = Ok levels ->
      trace_levels dem (Z_filled (elevation dem)) levels [] = Ok contours ->
      contours <> [] ->
      peak_window (pixel_size_m dem) = Ok w ->
      let hills :=
        enclosure_search (transform dem) (Z_filled (elevation dem)) contours
          (argwhere (peaks_mask (elevation dem) (Z_filled (elevation dem)) w))
          (relief_threshold_m p) in
      hills <> [] ->
      _compute_contour_method dem p =
      Ok [mkFeature (Some "NEW_2025_contour"%string)
            (Spec.clusterByProximity
               (unary_union (map hill_geometry hills))
               (range_proximity_m p))]).
Proof.
  intros Hunion. split.
  - intros w Hw mask polygons Hcount Hpoly.
    unfold _compute_relief_method. rewrite Hw. cbn [bind].
    fold mask. apply Z.eqb_neq in Hcount. rewrite Hcount.
    fold polygons. destruct polygons as [|row rest] eqn:E; [contradiction|].
    cbv zeta. rewrite Hunion. reflexivity.
  - intros levels contours w Hfin Hlev Htrace Hne Hw hills Hhills.
    unfold _compute_contour_method. rewrite Hfin. cbn [negb].
    rewrite Hlev. cbn [bind]. rewrite Htrace.
    destruct contours as [|c0 rest]; [contradiction|].
    rewrite Hw. cbn [bind]. fold hills.
    destruct hills as [|h0 hrest] eqn:E; [contradiction|].
    cbv zeta. rewrite Hunion. reflexivity.
Qed.

End NewMethods.

Lemma contour_method_falls_back_witness :
  Np.any (Np.isfinite (elevation Examples.ridge)) = true
  /\ NewMethod.contour_levels (NewMethod.Z_filled (elevation Examples.ridge))
       (NewMethod.contour_interval_m Examples.contour_params)
     = Ok [0; 50; 100; 150; 200]%Q
  /\ (exists e,
        NewMethod.trace_levels (TK := Examples.tk_unavailable) Examples.ridge
          (NewMethod.Z_filled (elevation Examples.ridge))
          [0; 50; 100; 150; 200]%Q [] = Raise e)
  /\ NewMethod._compute_contour_method (TK := Examples.tk_unavailable)
       Examples.ridge Examples.contour_params
     = NewMethod._compute_relief_method (TK := Examples.tk_unavailable)
         Examples.ridge Examples.contour_params
  /\ (~ (pixel_size_m Examples.ridge == 0)%Q ->
      exists gdf,
        NewMethod._compute_contour_method (TK := Examples.tk_unavailable)
          Examples.ridge Examples.contour_params = Ok gdf).
Proof.
  split; [reflexivity|]. split; [reflexivity|].
  split; [eexists; reflexivity|].
  apply (contour_method_falls_back (TK := Examples.tk_unavailable)
           Examples.ridge Examples.contour_params [0; 50; 100; 150; 200]%Q).
  - reflexivity.
  - reflexivity.
  - left. eexists. reflexivity.
Defined.

(** The other way into the fallback: contour lines, none of them closed. *)
Example contour_method_open_lines :
  NewMethod.trace_levels (TK := Examples.tk_open) Examples.ridge
    (NewMethod.Z_filled (elevation Examples.ridge)) [0; 50; 100; 150; 200]%Q []
  = Ok []
  /\ NewMethod._compute_contour_method (TK := Examples.tk_open)
       Examples.ridge Examples.contour_params
     = Ok [mkFeature (Some "NEW_2025_relief"%string) [(360 # 4, 720 # 4)]%Q].
Proof. split; reflexivity. Qed.

Lemma proximity_clustering_after_union_witness :
  (forall g : Transect.geom, unary_union [g] = g)
  /\ NewMethod._compute_relief_method (TK := Examples.tk_rows)
       Examples.ridge Examples.contour_params
     = Ok [mkFeature (Some "NEW_2025_relief"%string)
             (Spec.clusterByProximity
                (unary_union
                   (map (fun row => buffer (geometry row) 0%Q)
                      (NewMethod._polygonize_mask (TK := Examples.tk_rows)
                         (NewMethod.relief_mask (elevation Examples.ridge) 5
                            (100 # 1))
                         (transform Examples.ridge))))
                (500 # 1))]
  /\ NewMethod._compute_contour_method (TK := Examples.tk_rows)
       Examples.ridge Examples.contour_params
     = Ok [mkFeature (Some "NEW_2025_contour"%string)
             (Spec.clusterByProximity
                (unary_union
                   (map NewMethod.hill_geometry
                      (NewMethod.enclosure_search (transform Examples.ridge)
                         (NewMethod.Z_filled (elevation Examples.ridge))
                         [NewMethod.mkContour 0 [(-30 # 2, 570 # 2)];
                          NewMethod.mkContour 50 [(90 # 2, 390 # 2)];
                          NewMethod.mkContour 100 [(150 # 2, 330 # 2)];
                          NewMethod.mkContour 150 [(210 # 2, 270 # 2)];
                          NewMethod.mkContour 200 [(210 # 2, 270 # 2)]]%Q
                         (Np.argwhere
                            (NewMethod.peaks_mask (elevation Examples.ridge)
                               (NewMethod.Z_filled (elevation Examples.ridge))
                               17))
                         (100 # 1))))
                (500 # 1))].
Proof.
  assert (law : forall g : Transect.geom, unary_union [g] = g)
    by (intros g; reflexivity).
  destruct (proximity_clustering_after_union (TK := Examples.tk_rows)
              Examples.ridge Examples.contour_params law) as [Hrelief Hcontour].
  split; [exact law|]. split.
  - apply (Hrelief 5); [reflexivity| |]; vm_compute; discriminate.
  - apply (Hcontour [0; 50; 100; 150; 200]%Q); try reflexivity;
      vm_compute; discriminate.
Defined.

Example contour_method_on_ridge :
  NewMethod._compute_contour_method (TK := Examples.tk_rows)
    Examples.ridge Examples.contour_params
  = Ok [mkFeature (Some "NEW_2025_contour"%string) [(-120 # 8, 2280 # 8)]%Q].
Proof. reflexivity. Qed.

(** ** A grid without finite values *)

Section NoFiniteValues.

Import Np.

Lemma ravel_map2d {A B} (f : A -> B) (g : array A) :
  ravel (map2d f g) = map f (ravel g).
Proof. unfold ravel, map2d. symmetry. apply concat_map. Qed.

Lemma any_false_cells (mask : array bool) :
  any mask = false -> forall b, In b (ravel mask) -> b = false.
Proof.
  unfold any. intros H b Hin.
  destruct b; [|reflexivity].
  assert (E : existsb (fun b => b) (ravel mask) = true)
    by (apply existsb_exists; now exists true).
  congruence.
Qed.

Lemma count_zero_cells (mask : array bool) :
  count mask = 0 <-> forall b, In b (ravel mask) -> b = false.
Proof.
  unfold count. split.
  - intros H b Hin. destruct b; [|reflexivity].
    assert (Hf : In true (filter (fun b => b) (ravel mask)))
      by (apply filter_In; now split).
    destruct (filter (fun b => b) (ravel mask)); [contradiction|discriminate].
  - intros H.
    replace (filter (fun b => b) (ravel mask)) with (@nil bool); [reflexivity|].
    symmetry. induction (ravel mask) as [|b l IH]; cbn; [reflexivity|].
    rewrite (H b) by now left. apply IH. intros b' Hb'. apply H. now right.
Qed.

Lemma cells_false_get (mask : array bool) (r c : nat) :
  (forall b, In b (ravel mask) -> b = false) -> get false mask r c = false.
Proof.
  intros H. destruct (get_In false mask r c) as [E|Hin]; [exact E|now apply H].
Qed.

Lemma ravel_tabulate_cells {A} (n k : nat) (f : nat -> nat -> A) (x : A) :
  In x (ravel (tabulate n k f)) ->
  exists r c, (r < n)%nat /\ (c < k)%nat /\ x = f r c.
Proof.
  unfold ravel, tabulate. intros H.
  apply in_concat in H. destruct H as (row & Hrow & Hx).
  apply in_map_iff in Hrow. destruct Hrow as (r & <- & Hr).
  apply in_map_iff in Hx. destruct Hx as (c & <- & Hc).
  apply in_seq in Hr. apply in_seq in Hc.
  exists r, c. repeat split; lia.
Qed.

Lemma count_tabulate_false (n k : nat) (f : nat -> nat -> bool) :
  (forall r c, (r < n)%nat -> (c < k)%nat -> f r c = false) ->
  count (tabulate n k f) = 0.
Proof.
  intros H. apply count_zero_cells. intros b Hin.
  apply ravel_tabulate_cells in Hin. destruct Hin as (r & c & Hr & Hc & ->).
  now apply H.
Qed.

Lemma no_finite_cell (Zg : array (option Q)) (r c : nat) :
  any (isfinite Zg) = false -> get false (isfinite Zg) r c = false.
Proof.
  intros H. apply cells_false_get. now apply any_false_cells.
Qed.

Lemma no_finite_values (Zg : array (option Q)) :
  any (isfinite Zg) = false -> finite_values Zg = [].
Proof.
  unfold any, isfinite, finite_values. rewrite ravel_map2d.
  induction (ravel Zg) as [|x l IH]; cbn; [reflexivity|].
  destruct x as [q|]; cbn; [discriminate|exact IH].
Qed.

Context {G : Type} `{SH : Shapely G} `{TK : Toolkit G}.

(** The OLD method classifies nothing and returns the empty layer, unless
    the gradient raised. *)
Lemma old_method_no_finite (dem : dem_data) (urban : option (array bool))
    (p : OldMethod.params) :
  any (isfinite (elevation dem)) = false ->
  raises (OldMethod.compute_old_delineation dem urban p)
  \/ OldMethod.compute_old_delineation dem urban p = Ok [].
Proof.
  intros Hfin. unfold OldMethod.compute_old_delineation.
  destruct (OldMethod._compute_slope_degrees (elevation dem) (pixel_size_m dem))
    as [slope_deg|e]; cbn [bind]; [|left; now exists e].
  right.
  set (slope_mask := tabulate _ _ _).
  assert (H0 : count slope_mask = 0).
  { apply count_tabulate_false. intros r c _ _.
    rewrite (no_finite_cell _ _ _ Hfin). apply andb_false_r. }
  assert (H1 : count (tabulate (nrows slope_mask) (ncols slope_mask)
                        (fun r c => get false slope_mask r c
                                    && negb (get false
                                               (match urban with
                                                | Some u => u
                                                | None => []
                                                end) r c))) = 0).
  { apply count_tabulate_false. intros r c _ _.
    rewrite cells_false_get; [reflexivity|]. now apply count_zero_cells. }
  destruct urban as [u|].
  - destruct (count u >? 0).
    + rewrite H1. reflexivity.
    + rewrite H0. reflexivity.
  - rewrite H0. reflexivity.
Qed.

(** Both NEW methods return the empty layer, unless the window size could
    not be computed or the method name is unknown. *)
Lemma relief_method_no_finite (dem : dem_data) (p : NewMethod.params) :
  any (isfinite (elevation dem)) = false ->
  raises (NewMethod._compute_relief_method dem p)
  \/ NewMethod._compute_relief_method dem p = Ok [].
Proof.
  intros Hfin. unfold NewMethod._compute_relief_method.
  destruct (NewMethod.window_size (NewMethod.relief_radius_m p) (pixel_size_m dem))
    as [w|e]; cbn [bind]; [|left; now exists e].
  right.
  replace (count (NewMethod.relief_mask (elevation dem) w
                    (NewMethod.relief_threshold_m p))) with 0; [reflexivity|].
  symmetry. apply count_tabulate_false. intros r c _ _.
  rewrite (no_finite_cell _ _ _ Hfin). apply andb_false_r.
Qed.

Lemma contour_method_no_finite (dem : dem_data) (p : NewMethod.params) :
  any (isfinite (elevation dem)) = false ->
  NewMethod._compute_contour_method dem p = Ok [].
Proof.
  intros Hfin. unfold NewMethod._compute_contour_method. now rewrite Hfin.
Qed.

Lemma new_method_no_finite (dem : dem_data) (p : NewMethod.params) :
  any (isfinite (elevation dem)) = false ->
  raises (NewMethod.compute_new_delineation dem p)
  \/ NewMethod.compute_new_delineation dem p = Ok [].
Proof.
  intros Hfin. unfold NewMethod.compute_new_delineation.
  destruct (String.eqb _ "relief"); [now apply relief_method_no_finite|].
  destruct (String.eqb _ "contour").
  - right. now apply contour_method_no_finite.
  - left. eexists. reflexivity.
Qed.

Lemma statistics_no_finite (old_gdf new_gdf : GeoDataFrame G)
    (districts : list (Stats.district G)) (dem : dem_data) :
  any (isfinite (elevation dem)) = false ->
  raises (Stats.compute_statistics old_gdf new_gdf districts dem).
Proof.
  intros Hfin. unfold Stats.compute_statistics, Stats.elevation_statistics.
  rewrite (no_finite_values _ Hfin). cbn. eexists. reflexivity.
Qed.

(** C4. For a DEM grid without any finite elevation value the analysis run
    ends in an error: it returns no layers and no statistics. *)
Theorem run_analysis_no_finite_values (dem : dem_data) (aoi : G)
    (districts : list (Stats.district G)) (urban : option (array bool))
    (explode_raises : bool) (old_params : OldMethod.params)
    (new_params : NewMethod.params) :
  any (isfinite (elevation dem)) = false ->
  raises (Core.run_analysis dem aoi districts urban explode_raises
            old_params new_params).
Proof.
  intros Hfin. unfold Core.run_analysis.
  destruct (ravel (elevation dem)); cbn [bind]; [eexists; reflexivity|].
  destruct (old_method_no_finite dem urban old_params Hfin) as [[e ->]| ->];
    cbn [bind]; [eexists; reflexivity|].
  destruct (new_method_no_finite dem new_params Hfin) as [[e ->]| ->];
    cbn [bind]; [eexists; reflexivity|].
  destruct (statistics_no_finite [] [] districts dem Hfin) as [e ->].
  cbn [bind]. eexists. reflexivity.
Qed.

End NoFiniteValues.

Lemma run_analysis_no_finite_values_witness :
  Np.any (Np.isfinite (elevation Examples.void)) = false
  /\ raises (Core.run_analysis (TK := Examples.tk_rows) Examples.void
               [(0, 90)]%Q [Stats.mkDistrict "Alwar" "Rajasthan" [(0, 60)]%Q]
               None false Examples.old_params Examples.relief_params).
Proof.
  split; [reflexivity|].
  now apply (run_analysis_no_finite_values (TK := Examples.tk_rows)).
Defined.

(** On such a grid the delineations themselves do not raise: each returns
    the empty layer, and the error comes from the elevation statistics. *)
Example delineations_of_void :
  OldMethod.compute_old_delineation (TK := Examples.tk_rows)
    Examples.void None Examples.old_params = Ok []
  /\ NewMethod.compute_new_delineation (TK := Examples.tk_rows)
       Examples.void Examples.relief_params = Ok []
  /\ NewMethod.compute_new_delineation (TK := Examples.tk_rows)
       Examples.void Examples.contour_params = Ok []
  /\ Core.run_analysis (TK := Examples.tk_rows) Examples.void
       [(0, 90)]%Q [Stats.mkDistrict "Alwar" "Rajasthan" [(0, 60)]%Q]
       None false Examples.old_params Examples.relief_params
     = Raise (ValueError
         "zero-size array to reduction operation minimum which has no identity").
Proof. repeat split; reflexivity. Qed.

(** ** The raster stages of the OLD method *)

Section OldPipeline.

Import Np Ndimage OldMethod.

Context {G : Type} `{SH : Shapely G} `{TK : Toolkit G}.

(** An exclusion mask without a true cell excludes nothing. *)
Lemma excludeMask_nothing (n k : nat) (f : nat -> nat -> bool)
    (urban : array bool) :
  count urban = 0 ->
  Spec.excludeMask (tabulate n k f) (Some urban) = tabulate n k f.
Proof.
  intros H0. unfold Spec.excludeMask.
  transitivity (tabulate (nrows (tabulate n k f)) (ncols (tabulate n k f))
                  (fun r c => get false (tabulate n k f) r c)).
  - apply tabulate_ext. intros r c _ _.
    rewrite (cells_false_get urban) by now apply count_zero_cells.
    apply andb_true_r.
  - apply (tabulate_get false n k f).
Qed.

(** The guarded calls of lines 99-109 are iterations of the one-step
    operators; no iteration at all when the count is not positive. *)
Lemma guarded_closing (mask : array bool) (gap_pixels : Z) :
  (if gap_pixels >? 0
   then binary_closing mask generate_binary_structure_2_1 gap_pixels
   else mask)
  = Nat.iter (Z.to_nat gap_pixels) (erode_once generate_binary_structure_2_1)
      (Nat.iter (Z.to_nat gap_pixels)
         (dilate_once generate_binary_structure_2_1) mask).
Proof.
  destruct (gap_pixels >? 0) eqn:E; [reflexivity|].
  assert (gap_pixels <= 0) by (rewrite Z.gtb_ltb in E; apply Z.ltb_ge in E; lia).
  replace (Z.to_nat gap_pixels) with 0%nat by lia. reflexivity.
Qed.

Lemma guarded_dilation (mask : array bool) (buffer_pixels : Z) :
  (if buffer_pixels >? 0
   then binary_dilation mask generate_binary_structure_2_1 buffer_pixels
   else mask)
  = Nat.iter (Z.to_nat buffer_pixels)
      (dilate_once generate_binary_structure_2_1) mask.
Proof.
  destruct (buffer_pixels >? 0) eqn:E; [reflexivity|].
  assert (buffer_pixels <= 0) by (rewrite Z.gtb_ltb in E; apply Z.ltb_ge in E; lia).
  replace (Z.to_nat buffer_pixels) with 0%nat by lia. reflexivity.
Qed.

(** The OLD method with its guards resolved. *)
Lemma compute_old_delineation_stages (dem : dem_data)
    (urban : option (array bool)) (p : params) (slope_deg : array (option Q)) :
  _compute_slope_degrees (elevation dem) (pixel_size_m dem) = Ok slope_deg ->
  ~ (pixel_size_m dem == 0)%Q ->
  compute_old_delineation dem urban p =
  let cross := generate_binary_structure_2_1 in
  let gap_pixels :=
    Z.to_nat (Qceiling (gap_bridge_m p / pixel_size_m dem / 2)) in
  let buffer_pixels :=
    Z.to_nat (Qceiling (foothill_buffer_m p / pixel_size_m dem)) in
  let excluded :=
    Spec.excludeMask
      (Spec.threshold_gt slope_deg (slope_threshold_deg p)
         (isfinite (elevation dem))) urban in
  if count excluded =? 0 then Ok []
  else
    Ok (vector_layer
          (Nat.iter buffer_pixels (dilate_once cross)
             (Nat.iter gap_pixels (erode_once cross)
                (Nat.iter gap_pixels (dilate_once cross) excluded)))
          (transform dem)).
Proof.
  intros Hslope Hpx. unfold compute_old_delineation.
  rewrite Hslope. cbn [bind]. cbv zeta.
  fold (Spec.threshold_gt slope_deg (slope_threshold_deg p)
          (isfinite (elevation dem))).
  set (thresholded := Spec.threshold_gt _ _ _).
  assert (Hstage :
    (match urban with
     | Some u =>
       if count u >? 0 then
         (tabulate (nrows thresholded) (ncols thresholded) (fun r c =>
            get false thresholded r c && negb (get false u r c)),
          count (tabulate (nrows thresholded) (ncols thresholded) (fun r c =>
            get false thresholded r c && negb (get false u r c))))
       else (thresholded, count thresholded)
     | None => (thresholded, count thresholded)
     end)
    = (Spec.excludeMask thresholded urban,
       count (Spec.excludeMask thresholded urban))).
  { destruct urban as [u|]; [|reflexivity].
    destruct (count u >? 0) eqn:E; [reflexivity|].
    assert (H0 : count u = 0).
    { rewrite Z.gtb_ltb in E. apply Z.ltb_ge in E. unfold count in *. lia. }
    unfold thresholded, Spec.threshold_gt.
    now rewrite (excludeMask_nothing _ _ _ u H0). }
  rewrite Hstage. clear Hstage.
  set (excluded := Spec.excludeMask thresholded urban).
  destruct (count excluded =? 0); [reflexivity|].
  rewrite !(div_nonzero _ _ Hpx). cbn [bind].
  rewrite guarded_closing, guarded_dilation.
  unfold vector_layer, Py.ceil.
  match goal with |- context [_polygonize_mask ?m ?t] =>
    destruct (_polygonize_mask m t) end; reflexivity.
Qed.

(** C5. The OLD method applies its raster stages in the order: threshold
    of the slope grid, exclusion of the urban cells, morphological closing,
    dilation; the closing works on the excluded mask and the dilation on the
    closed one. *)
Theorem old_pipeline_order (dem : dem_data) (urban : option (array bool))
    (p : params) (slope_deg : array (option Q)) :
  _compute_slope_degrees (elevation dem) (pixel_size_m dem) = Ok slope_deg ->
  ~ (pixel_size_m dem == 0)%Q ->
  compute_old_delineation dem urban p =
  let thresholded :=
    Spec.threshold_gt slope_deg (slope_threshold_deg p)
      (isfinite (elevation dem)) in
  let excluded := Spec.excludeMask thresholded urban in
  if count excluded =? 0 then Ok []
  else
    let closed :=
      Spec.morphologicalClose excluded (gap_bridge_m p) (pixel_size_m dem) in
    let dilated :=
      Spec.dilate closed (foothill_buffer_m p) (pixel_size_m dem) in
    Ok (vector_layer dilated (transform dem)).
Proof.
  intros Hslope Hpx.
  rewrite (compute_old_delineation_stages dem urban p slope_deg Hslope Hpx).
  reflexivity.
Qed.


End OldPipeline.

Lemma old_pipeline_order_witness :
  OldMethod._compute_slope_degrees (TK := Examples.tk_rows)
    (elevation Examples.ridge) (pixel_size_m Examples.ridge)
  = Ok Examples.ridge_slope
  /\ ~ (pixel_size_m Examples.ridge == 0)%Q
  /\ OldMethod.compute_old_delineation (TK := Examples.tk_rows)
       Examples.ridge (Some Examples.ridge_urban) Examples.old_params
     = if Np.count
            (Spec.excludeMask
               (Spec.threshold_gt Examples.ridge_slope (1 # 1)
                  (Np.isfinite (elevation Examples.ridge)))
               (Some Examples.ridge_urban)) =? 0
       then Ok []
       else
         Ok (OldMethod.vector_layer (TK := Examples.tk_rows)
               (Spec.dilate
                  (Spec.morphologicalClose
                     (Spec.excludeMask
                        (Spec.threshold_gt Examples.ridge_slope (1 # 1)
                           (Np.isfinite (elevation Examples.ridge)))
                        (Some Examples.ridge_urban))
                     (60 # 1) (30 # 1))
                  (30 # 1) (30 # 1))
               (transform Examples.ridge)).
Proof.
  assert (Hslope :
    OldMethod._compute_slope_degrees (TK := Examples.tk_rows)
      (elevation Examples.ridge) (pixel_size_m Examples.ridge)
    = Ok Examples.ridge_slope) by reflexivity.
  assert (Hpx : ~ (pixel_size_m Examples.ridge == 0)%Q) by (intros E; discriminate E).
  split; [exact Hslope|]. split; [exact Hpx|].
  exact (old_pipeline_order (TK := Examples.tk_rows) Examples.ridge
           (Some Examples.ridge_urban) Examples.old_params
           Examples.ridge_slope Hslope Hpx).
Defined.


(** The OLD layer of the ridge: the urban cells are taken out, the closing
    keeps the middle row only (the border of the array counts as empty),
    and the dilation buffers it by one cell. *)
Example old_method_on_ridge :
  Spec.classify Examples.ridge_slope (1 # 1)
    (Np.isfinite (elevation Examples.ridge)) (Some Examples.ridge_urban)
  = [[false; true; true; true; true; false; false; false; true; false];
     [false; true; true; true; true; false; false; false; true; false];
     [false; true; true; true; true; true; false; false; true; false]]
  /\ Spec.dilate
       (Spec.morphologicalClose
          (Spec.classify Examples.ridge_slope (1 # 1)
             (Np.isfinite (elevation Examples.ridge))
             (Some Examples.ridge_urban))
          (60 # 1) (30 # 1))
       (30 # 1) (30 # 1)
     = [[false; true; true; true; true; false; false; false; true; false];
        [true; true; true; true; true; true; false; true; true; true];
        [false; true; true; true; true; false; false; false; true; false]]
  /\ OldMethod.compute_old_delineation (TK := Examples.tk_rows)
       Examples.ridge (Some Examples.ridge_urban) Examples.old_params
     = Ok [mkFeature (Some "OLD_FSI_like"%string) [(0, 180); (210, 300)]%Q].
Proof. repeat split; reflexivity. Qed.

(** The order of the two morphological stages matters: closing and then
    dilating the dotted mask differs from dilating and then closing it. *)
Example closing_before_dilation_matters :
  Ndimage.binary_dilation
    (Ndimage.binary_closing Examples.dotted_mask
       Ndimage.generate_binary_structure_2_1 1)
    Ndimage.generate_binary_structure_2_1 1
  = [[false; true; false; false; false; true; false];
     [true; true; true; true; true; true; true];
     [true; true; true; true; true; true; true];
     [true; true; true; true; true; true; true];
     [false; true; false; false; false; true; false]]
  /\ Ndimage.binary_closing
       (Ndimage.binary_dilation Examples.dotted_mask
          Ndimage.generate_binary_structure_2_1 1)
       Ndimage.generate_binary_structure_2_1 1
     = [[false; false; false; false; false; false; false];
        [false; true; true; true; true; true; false];
        [false; true; true; true; true; true; false];
        [false; true; true; true; true; true; false];
        [false; false; false; false; false; false; false]].
Proof. split; reflexivity. Qed.

(** ** Nearest-neighbour distances *)

Section HillDistances.

Import Stats.

Context {G : Type} `{SH : Shapely G} `{TK : Toolkit G}.

(** The loop over the candidates of hill [i]: either no candidate other
    than [i] improved on the accumulator, or the result is a candidate at
    least distance. *)
Lemma nearest_fold (geoms : list G) (i : nat) (geom : G) (cs : list nat)
    (od : option Q) (z : Z) :
  let dist j := distance geom (nth j geoms geom) in
  (fold_left (nearest_step geoms i geom) cs (od, z) = (od, z)
   /\ forall k, In k cs -> k <> i ->
                match od with Some d => (d <= dist k)%Q | None => False end)
  \/ (exists j, In j cs /\ j <> i
        /\ fold_left (nearest_step geoms i geom) cs (od, z)
           = (Some (dist j), Z.of_nat j)
        /\ (forall k, In k cs -> k <> i -> (dist j <= dist k)%Q)
        /\ match od with Some d => (dist j < d)%Q | None => True end).
Proof.
  intros dist. revert od z.
  induction cs as [|j0 cs IH]; intros od z.
  - left. split; [reflexivity|]. intros k [].
  - cbn [fold_left].
    destruct (Nat.eq_dec i j0) as [<-|Eij].
    + assert (E : nearest_step geoms i geom (od, z) i = (od, z))
        by (unfold nearest_step; now rewrite Nat.eqb_refl).
      rewrite E. clear E.
      destruct (IH od z) as [[Hres Hall]|(j & Hj & Hne & Hres & Hmin & Hlt)].
      * left. split; [exact Hres|].
        intros k [<-|Hk] Hki; [congruence|now apply Hall].
      * right. exists j. split; [now right|]. split; [exact Hne|].
        split; [exact Hres|]. split; [|exact Hlt].
        intros k [<-|Hk] Hki; [congruence|now apply Hmin].
    + assert (E : nearest_step geoms i geom (od, z) j0 =
                  match od with
                  | None => (Some (dist j0), Z.of_nat j0)
                  | Some d =>
                    if Py.Qltb (dist j0) d then (Some (dist j0), Z.of_nat j0)
                    else (Some d, z)
                  end).
      { unfold nearest_step. apply Nat.eqb_neq in Eij. rewrite Eij.
        destruct od; reflexivity. }
      rewrite E. clear E.
      destruct od as [d|].
      * destruct (Py.Qltb (dist j0) d) eqn:Elt.
        -- apply Qltb_true in Elt.
           destruct (IH (Some (dist j0)) (Z.of_nat j0))
             as [[Hres Hall]|(j & Hj & Hne & Hres & Hmin & Hlt)].
           ++ right. exists j0. split; [now left|]. split; [congruence|].
              split; [exact Hres|]. split; [|exact Elt].
              intros k [<-|Hk] Hki; [apply Qle_refl|now apply Hall].
           ++ right. exists j. split; [now right|]. split; [exact Hne|].
              split; [exact Hres|]. split.
              ** intros k [<-|Hk] Hki; [now apply Qlt_le_weak|now apply Hmin].
              ** eapply Qlt_trans; eassumption.
        -- apply Qltb_false in Elt.
           destruct (IH (Some d) z)
             as [[Hres Hall]|(j & Hj & Hne & Hres & Hmin & Hlt)].
           ++ left. split; [exact Hres|].
              intros k [<-|Hk] Hki; [exact Elt|now apply Hall].
           ++ right. exists j. split; [now right|]. split; [exact Hne|].
              split; [exact Hres|]. split; [|exact Hlt].
              intros k [<-|Hk] Hki; [|now apply Hmin].
              apply Qlt_le_weak. eapply Qlt_le_trans; eassumption.
      * destruct (IH (Some (dist j0)) (Z.of_nat j0))
          as [[Hres Hall]|(j & Hj & Hne & Hres & Hmin & Hlt)].
        -- right. exists j0. split; [now left|]. split; [congruence|].
           split; [exact Hres|]. split; [|exact I].
           intros k [<-|Hk] Hki; [apply Qle_refl|now apply Hall].
        -- right. exists j. split; [now right|]. split; [exact Hne|].
           split; [exact Hres|]. split; [|exact I].
           intros k [<-|Hk] Hki; [now apply Qlt_le_weak|now apply Hmin].
Qed.

Section Indexed.

Variables (geoms : list G) (max_distance_m : Q).

(** The spatial index returns positions of its own geometries, and misses
    none that lies within the search radius. *)
Hypothesis query_in_range :
  forall g j, In j (strtree_query geoms g) -> (j < length geoms)%nat.

Hypothesis query_complete :
  forall i j gi gj,
    nth_error geoms i = Some gi -> nth_error geoms j = Some gj ->
    (distance gi gj < max_distance_m)%Q ->
    In j (strtree_query geoms (buffer gi max_distance_m)).

Lemma hill_distance_nearest (i : nat) (gi : G) :
  nth_error geoms i = Some gi ->
  (hill_distance geoms max_distance_m i gi = []
   /\ forall k gk, nth_error geoms k = Some gk -> k <> i ->
                   (max_distance_m <= distance gi gk)%Q)
  \/ (exists j gj,
        nth_error geoms j = Some gj /\ j <> i
        /\ (distance gi gj < max_distance_m)%Q
        /\ hill_distance geoms max_distance_m i gi
           = [mkDistanceRow i (Z.of_nat j) (Py.round (distance gi gj) 1)]
        /\ forall k gk, nth_error geoms k = Some gk -> k <> i ->
                        (distance gi gj <= distance gi gk)%Q).
Proof.
  intros Hi. unfold hill_distance.
  set (cs := strtree_query geoms (buffer gi max_distance_m)).
  assert (Hnth : forall k gk, nth_error geoms k = Some gk ->
                              nth k geoms gi = gk).
  { intros k gk Hk. now apply nth_error_nth. }
  destruct (nearest_fold geoms i gi cs None (-1))
    as [[Hres Hall]|(j & Hj & Hne & Hres & Hmin & _)]; rewrite Hres.
  - left. split; [reflexivity|].
    intros k gk Hk Hki. apply Qnot_lt_le. intros Hlt.
    exact (Hall k (query_complete i k gi gk Hi Hk Hlt) Hki).
  - destruct (nth_error geoms j) as [gj|] eqn:Ej.
    2:{ apply nth_error_None in Ej. apply query_in_range in Hj. lia. }
    rewrite (Hnth j gj Ej) in *.
    destruct (Py.Qltb (distance gi gj) max_distance_m) eqn:Elt.
    + apply Qltb_true in Elt. right. exists j, gj. repeat split; auto.
      intros k gk Hk Hki.
      destruct (Qlt_le_dec (distance gi gk) max_distance_m) as [Hlt|Hge].
      * specialize (Hmin k (query_complete i k gi gk Hi Hk Hlt) Hki).
        now rewrite (Hnth k gk Hk) in Hmin.
      * apply Qlt_le_weak. eapply Qlt_le_trans; eassumption.
    + apply Qltb_false in Elt. left. split; [reflexivity|].
      intros k gk Hk Hki. apply Qnot_lt_le. intros Hlt.
      specialize (Hmin k (query_complete i k gi gk Hi Hk Hlt) Hki).
      rewrite (Hnth k gk Hk) in Hmin.
      apply (Qlt_irrefl max_distance_m).
      eapply Qle_lt_trans; [exact Elt|].
      eapply Qle_lt_trans; eassumption.
Qed.

End Indexed.

Lemma In_enumerate {A} (l : list A) (a i : nat) (x : A) :
  In (i, x) (combine (seq a (length l)) l)
  <-> (a <= i)%nat /\ nth_error l (i - a) = Some x.
Proof.
  revert a. induction l as [|y l IH]; intros a; cbn.
  - split; [intros []|]. intros [_ H]. destruct (i - a)%nat; discriminate.
  - rewrite IH. split.
    + intros [[= <- <-]|[Ha Hx]].
      * split; [lia|]. now rewrite Nat.sub_diag.
      * split; [lia|]. replace (i - a)%nat with (S (i - S a)) by lia. exact Hx.
    + intros [Ha Hx]. destruct (i - a)%nat as [|k] eqn:E.
      * left. cbn in Hx. injection Hx as <-. f_equal. lia.
      * right. split; [lia|]. cbn in Hx. now replace (i - S a)%nat with k by lia.
Qed.

Lemma explode_parts (hills_gdf : GeoDataFrame G) :
  map geometry (explode hills_gdf) = flat_map parts (map geometry hills_gdf).
Proof.
  unfold explode. induction hills_gdf as [|row rest IH]; cbn; [reflexivity|].
  rewrite map_app, IH, map_map. cbn. now rewrite map_id.
Qed.

Lemma length_explode (hills_gdf : GeoDataFrame G) :
  length (explode hills_gdf)
  = length (flat_map parts (map geometry hills_gdf)).
Proof. now rewrite <- explode_parts, length_map. Qed.

(** The function in terms of the exploded parts. *)
Lemma compute_hill_distances_parts (hills_gdf : GeoDataFrame G)
    (max_distance_m : Q) (geoms : list G) (all_rows : list distance_row) :
  geoms = flat_map parts (map geometry hills_gdf) ->
  all_rows =
    flat_map (fun ig => hill_distance geoms max_distance_m (fst ig) (snd ig))
             (combine (seq 0 (length geoms)) geoms) ->
  compute_hill_distances false hills_gdf max_distance_m =
  match hills_gdf with
  | [] => None
  | _ =>
    if (length geoms <? 2)%nat then None
    else match all_rows with [] => None | _ => Some all_rows end
  end.
Proof.
  intros -> ->. unfold compute_hill_distances.
  destruct hills_gdf as [|row0 rest]; [reflexivity|].
  now rewrite length_explode, explode_parts.
Qed.

(** The table is the concatenation of what the hills append, or empty. *)
Lemma table_rows_cases (hills_gdf : GeoDataFrame G) (max_distance_m : Q) :
  let geoms := flat_map parts (map geometry hills_gdf) in
  let all_rows :=
    flat_map (fun ig => hill_distance geoms max_distance_m (fst ig) (snd ig))
             (combine (seq 0 (length geoms)) geoms) in
  let table :=
    table_rows (compute_hill_distances false hills_gdf max_distance_m) in
  (table = [] \/ table = all_rows)
  /\ ((2 <= length geoms)%nat -> table = all_rows).
Proof.
  intros geoms all_rows table. subst table.
  rewrite (compute_hill_distances_parts hills_gdf max_distance_m
             geoms all_rows eq_refl eq_refl).
  destruct hills_gdf as [|row0 rest].
  - split; [now left|]. cbn. lia.
  - destruct (length geoms <? 2)%nat eqn:E.
    + split; [now left|]. apply Nat.ltb_lt in E. lia.
    + destruct all_rows; cbn; split; auto.
Qed.

Section Table.

Variables (hills_gdf : GeoDataFrame G) (max_distance_m : Q).

Let geoms := flat_map parts (map geometry hills_gdf).
Let table :=
  table_rows (compute_hill_distances false hills_gdf max_distance_m).

Hypothesis query_in_range :
  forall g j, In j (strtree_query geoms g) -> (j < length geoms)%nat.

Hypothesis query_complete :
  forall i j gi gj,
    nth_error geoms i = Some gi -> nth_error geoms j = Some gj ->
    (distance gi gj < max_distance_m)%Q ->
    In j (strtree_query geoms (buffer gi max_distance_m)).

Lemma table_row_origin (row : distance_row) :
  In row table ->
  exists i gi,
    nth_error geoms i = Some gi
    /\ In row (hill_distance geoms max_distance_m i gi).
Proof.
  intros Hin.
  destruct (table_rows_cases hills_gdf max_distance_m) as [[E|E] _];
    fold geoms in E; fold table in E; rewrite E in Hin; [contradiction|].
  apply in_flat_map in Hin. destruct Hin as ([i gi] & Hig & Hrow).
  apply In_enumerate in Hig. destruct Hig as [_ Hi].
  rewrite Nat.sub_0_r in Hi. now exists i, gi.
Qed.

Lemma table_rows_nearest (row : distance_row) :
  In row table ->
  exists gi j gj,
    nth_error geoms (hill_id row) = Some gi
    /\ nth_error geoms j = Some gj
    /\ j <> hill_id row
    /\ nearest_id row = Z.of_nat j
    /\ distance_m row = Py.round (distance gi gj) 1
    /\ (distance gi gj < max_distance_m)%Q
    /\ forall k gk, nth_error geoms k = Some gk -> k <> hill_id row ->
                    (distance gi gj <= distance gi gk)%Q.
Proof.
  intros Hin. destruct (table_row_origin row Hin) as (i & gi & Hi & Hrow).
  destruct (hill_distance_nearest geoms max_distance_m
              query_in_range query_complete i gi Hi)
    as [[E _]|(j & gj & Hj & Hne & Hlt & E & Hmin)]; rewrite E in Hrow.
  - contradiction.
  - destruct Hrow as [<-|[]]. cbn. exists gi, j, gj. repeat split; auto.
Qed.

Lemma table_covers (i : nat) (gi : G) :
  nth_error geoms i = Some gi ->
  (exists k gk, nth_error geoms k = Some gk /\ k <> i
                /\ (distance gi gk < max_distance_m)%Q)
  <-> (exists row, In row table /\ hill_id row = i).
Proof.
  intros Hi. split.
  - intros (k & gk & Hk & Hne & Hlt).
    assert (Hlen : (2 <= length geoms)%nat).
    { assert (i < length geoms)%nat by (apply nth_error_Some; congruence).
      assert (k < length geoms)%nat by (apply nth_error_Some; congruence).
      lia. }
    destruct (table_rows_cases hills_gdf max_distance_m) as [_ E].
    fold geoms in E. fold table in E. specialize (E Hlen).
    destruct (hill_distance_nearest geoms max_distance_m
                query_in_range query_complete i gi Hi)
      as [[_ Hfar]|(j & gj & Hj & Hji & Hjlt & Erow & Hmin)].
    + exfalso. apply (Qlt_irrefl max_distance_m).
      eapply Qle_lt_trans; [exact (Hfar k gk Hk Hne)|exact Hlt].
    + exists (mkDistanceRow i (Z.of_nat j) (Py.round (distance gi gj) 1)).
      split; [|reflexivity]. rewrite E.
      apply in_flat_map. exists (i, gi). split.
      * apply In_enumerate. rewrite Nat.sub_0_r. split; [lia|exact Hi].
      * cbn [fst snd]. rewrite Erow. now left.
  - intros (row & Hin & Hid).
    destruct (table_rows_nearest row Hin)
      as (gi' & j & gj & Hi' & Hj & Hne & _ & _ & Hlt & _).
    rewrite Hid in Hi', Hne. rewrite Hi in Hi'. injection Hi' as <-.
    now exists j, gj.
Qed.

End Table.

(** C8. When [explode] does not raise and the spatial index returns
    positions of its own geometries and misses none within the search
    radius: the multi-part geometries are exploded into their single
    parts; every row of the result names a part, another part that is at
    least exact distance from it among all other parts, and that distance
    (rounded to one decimal), which is below the search radius; and a part
    has a row exactly when some other part lies within the search radius,
    so that parts without such a neighbour are left out. *)
Theorem nearest_neighbour_table (hills_gdf : GeoDataFrame G)
    (max_distance_m : Q) :
  (forall g j,
      In j (strtree_query (Spec.single_parts hills_gdf) g) ->
      (j < length (Spec.single_parts hills_gdf))%nat) ->
  (forall i j gi gj,
      nth_error (Spec.single_parts hills_gdf) i = Some gi ->
      nth_error (Spec.single_parts hills_gdf) j = Some gj ->
      (distance gi gj < max_distance_m)%Q ->
      In j (strtree_query (Spec.single_parts hills_gdf)
              (buffer gi max_distance_m))) ->
  map geometry (explode hills_gdf) = Spec.single_parts hills_gdf
  /\ (forall row,
        In row (table_rows
                  (compute_hill_distances false hills_gdf max_distance_m)) ->
        Spec.nearest_record (Spec.single_parts hills_gdf) max_distance_m row)
  /\ (forall i gi,
        nth_error (Spec.single_parts hills_gdf) i = Some gi ->
        Spec.neighbour_in_range (Spec.single_parts hills_gdf)
          max_distance_m i gi
        <-> (exists row,
               In row (table_rows
                         (compute_hill_distances false hills_gdf
                            max_distance_m))
               /\ hill_id row = i)).
Proof.
  intros Hrange Hcomplete.
  split; [apply explode_parts|]. split.
  - intros row. now apply table_rows_nearest.
  - intros i gi. now apply table_covers.
Qed.

End HillDistances.

Lemma transect_query_in_range (geoms : list Transect.geom) (g : Transect.geom)
    (j : nat) :
  In j (Transect.query geoms g) -> (j < length geoms)%nat.
Proof.
  unfold Transect.query. intros H.
  apply in_flat_map in H. destruct H as ([j' h] & Hin & Hj).
  apply In_enumerate in Hin. destruct Hin as [_ Hnth].
  rewrite Nat.sub_0_r in Hnth.
  assert (j' < length geoms)%nat by (apply nth_error_Some; congruence).
  cbn [fst snd] in Hj.
  destruct (Transect.hull g); [|contradiction].
  destruct (Transect.hull h); [|contradiction].
  destruct (Transect.overlaps _ _); [|contradiction].
  destruct Hj as [<-|[]]. assumption.
Qed.

Lemma three_hills_query_complete (i j : nat) (gi gj : Transect.geom) :
  nth_error (Spec.single_parts Examples.three_hills) i = Some gi ->
  nth_error (Spec.single_parts Examples.three_hills) j = Some gj ->
  (distance gi gj < 1000 # 1)%Q ->
  In j (strtree_query (Spec.single_parts Examples.three_hills)
          (buffer gi (1000 # 1))).
Proof.
  intros Hi Hj _.
  destruct i as [|[|[|i]]]; cbn in Hi; try (destruct i; discriminate);
    injection Hi as <-;
    destruct j as [|[|[|j]]]; cbn in Hj; try (destruct j; discriminate);
    vm_compute; tauto.
Qed.

Lemma nearest_neighbour_table_witness :
  (forall g j,
      In j (strtree_query (Spec.single_parts Examples.three_hills) g) ->
      (j < length (Spec.single_parts Examples.three_hills))%nat)
  /\ (forall i j gi gj,
        nth_error (Spec.single_parts Examples.three_hills) i = Some gi ->
        nth_error (Spec.single_parts Examples.three_hills) j = Some gj ->
        (distance gi gj < 1000 # 1)%Q ->
        In j (strtree_query (Spec.single_parts Examples.three_hills)
                (buffer gi (1000 # 1))))
  /\ map geometry (Stats.explode Examples.three_hills)
     = Spec.single_parts Examples.three_hills
  /\ (forall row,
        In row (Stats.table_rows
                  (Stats.compute_hill_distances false Examples.three_hills
                     (1000 # 1))) ->
        Spec.nearest_record (Spec.single_parts Examples.three_hills)
          (1000 # 1) row)
  /\ (forall i gi,
        nth_error (Spec.single_parts Examples.three_hills) i = Some gi ->
        Spec.neighbour_in_range (Spec.single_parts Examples.three_hills)
          (1000 # 1) i gi
        <-> (exists row,
               In row (Stats.table_rows
                         (Stats.compute_hill_distances false
                            Examples.three_hills (1000 # 1)))
               /\ Stats.hill_id row = i)).
Proof.
  split; [exact (transect_query_in_range _)|].
  split; [exact three_hills_query_complete|].
  exact (nearest_neighbour_table Examples.three_hills (1000 # 1)
           (transect_query_in_range _) three_hills_query_complete).
Defined.

(** The three hills of the specification's scenario: the middle one is
    100 m from its nearest neighbour, the end ones 100 m and 300 m. *)
Example three_hills_distances :
  Stats.compute_hill_distances false Examples.three_hills (1000 # 1)
  = Some [Stats.mkDistanceRow 0 1 (Py.round (100 # 1) 1);
          Stats.mkDistanceRow 1 0 (Py.round (100 # 1) 1);
          Stats.mkDistanceRow 2 1 (Py.round (300 # 1) 1)].
Proof. vm_compute. reflexivity. Qed.

(** With a search radius of 200 m the third hill has no neighbour in range
    and gets no row. *)
Example three_hills_short_radius :
  map Stats.hill_id
    (Stats.table_rows
       (Stats.compute_hill_distances false Examples.three_hills (200 # 1)))
  = [0; 1]%nat.
Proof. reflexivity. Qed.

(** * Further properties of the pipelines *)

(** ** Windows and masks of the NEW methods *)

Section NewMethodFacts.

Import Np Ndimage NewMethod.

(** X8. The window of the peak filter (lines 254-256) is computed for every
    positive pixel size, and it is odd and at least 5. *)
Theorem peak_window_odd_and_at_least_5 (pixel_size : Q) :
  (0 < pixel_size)%Q ->
  exists w, peak_window pixel_size = Ok w /\ Z.odd w = true /\ 5 <= w.
Proof.
  intros Hpx. now apply odd_window_odd.
Qed.

Lemma peak_window_odd_and_at_least_5_witness :
  (0 < 30 # 1)%Q
  /\ exists w, peak_window (30 # 1) = Ok w /\ Z.odd w = true /\ 5 <= w.
Proof.
  split; [reflexivity|]. apply peak_window_odd_and_at_least_5. reflexivity.
Defined.

Lemma get_tabulate_outside {A} (d : A) (n m : nat) (f : nat -> nat -> A)
    (r c : nat) :
  (n <= r)%nat \/ (m <= c)%nat -> get d (tabulate n m f) r c = d.
Proof.
  intros H. unfold get.
  destruct (Nat.lt_ge_cases r n) as [Hr|Hr].
  - destruct H as [H|H]; [lia|].
    unfold tabulate.
    rewrite (nth_indep _ [] (map (fun c0 => f 0%nat c0) (seq 0 m)))
      by now rewrite length_map, length_seq.
    rewrite (map_nth (fun r0 => map (fun c0 => f r0 c0) (seq 0 m))
               (seq 0 n) 0%nat r).
    apply nth_overflow. now rewrite length_map, length_seq.
  - rewrite (nth_overflow (tabulate n m f))
      by (unfold tabulate; now rewrite length_map, length_seq).
    now destruct c.
Qed.

(** A true cell of a tabulated mask lies inside the table and is a true
    value of the tabulated function. *)
Lemma get_tabulate_true (n m : nat) (f : nat -> nat -> bool) (r c : nat) :
  get false (tabulate n m f) r c = true ->
  (r < n)%nat /\ (c < m)%nat /\ f r c = true.
Proof.
  intros H.
  destruct (Nat.lt_ge_cases r n) as [Hr|Hr];
    [|rewrite get_tabulate_outside in H by (now left); discriminate].
  destruct (Nat.lt_ge_cases c m) as [Hc|Hc];
    [|rewrite get_tabulate_outside in H by (now right); discriminate].
  rewrite get_tabulate in H by assumption. auto.
Qed.

(** X1. The relief mask never contains a cell without a finite elevation, and
    it shrinks when the threshold grows. *)
Theorem relief_mask_finite_and_antitone (Zg : array (option Q)) (window : Z)
    (t1 t2 : Q) (r c : nat) :
  (t1 <= t2)%Q ->
  get false (relief_mask Zg window t2) r c = true ->
  get false (isfinite Zg) r c = true
  /\ get false (relief_mask Zg window t1) r c = true.
Proof.
  intros Ht H. unfold relief_mask in *.
  apply get_tabulate_true in H. destruct H as (Hr & Hc & H).
  apply andb_true_iff in H. destruct H as [Hrel Hfin].
  split; [exact Hfin|].
  rewrite get_tabulate by assumption. rewrite Hfin, andb_true_r.
  apply Qleb_true. apply Qleb_true in Hrel. eapply Qle_trans; eassumption.
Qed.

Lemma relief_mask_finite_and_antitone_witness :
  (0 <= 3 # 1)%Q
  /\ get false (relief_mask Examples.small_grid 3 (3 # 1)) 0 2 = true
  /\ get false (isfinite Examples.small_grid) 0 2 = true
  /\ get false (relief_mask Examples.small_grid 3 0) 0 2 = true.
Proof.
  assert (Ht : (0 <= 3 # 1)%Q) by discriminate.
  assert (H : get false (relief_mask Examples.small_grid 3 (3 # 1)) 0 2 = true)
    by reflexivity.
  split; [exact Ht|]. split; [exact H|].
  exact (relief_mask_finite_and_antitone Examples.small_grid 3 0 (3 # 1) 0 2 Ht H).
Defined.

Lemma reflect_in_range (n : nat) (i : Z) : (0 < n)%nat -> (reflect n i < n)%nat.
Proof.
  intros Hn. unfold reflect.
  assert (Hk : 0 <= i mod (2 * Z.of_nat n) < 2 * Z.of_nat n)
    by (apply Z.mod_pos_bound; lia).
  destruct (i mod (2 * Z.of_nat n) <? Z.of_nat n) eqn:E.
  - apply Z.ltb_lt in E. lia.
  - apply Z.ltb_ge in E. lia.
Qed.

Lemma window_values_cells (g : array Q) (size : Z) (r c : nat) (v : Q) :
  (0 < nrows g)%nat -> (0 < ncols g)%nat ->
  In v (window_values g size r c) ->
  exists r' c', (r' < nrows g)%nat /\ (c' < ncols g)%nat
                /\ v = get 0%Q g r' c'.
Proof.
  intros Hn Hm H. unfold window_values in H.
  apply in_flat_map in H. destruct H as (dr & _ & H).
  apply in_map_iff in H. destruct H as (dc & <- & _).
  eexists _, _. split; [|split; [|reflexivity]]; now apply reflect_in_range.
Qed.

Lemma fold_left_Qmin_ge (l : list Q) (x lo : Q) :
  (lo <= x)%Q -> (forall y, In y l -> (lo <= y)%Q) ->
  (lo <= fold_left Qmin l x)%Q.
Proof.
  revert x. induction l as [|z l IH]; intros x Hx Hl; cbn; [exact Hx|].
  apply IH.
  - apply Q.min_glb; [exact Hx|]. apply Hl. now left.
  - intros y Hy. apply Hl. now right.
Qed.

(** The local minimum stays above every lower bound of the grid. *)
Lemma minimum_filter_ge (g : array Q) (size : Z) (lo : Q) (r c : nat) :
  (forall r' c', (r' < nrows g)%nat -> (c' < ncols g)%nat ->
                 (lo <= get 0%Q g r' c')%Q) ->
  (r < nrows g)%nat -> (c < ncols g)%nat ->
  (lo <= get 0%Q (minimum_filter g size) r c)%Q.
Proof.
  intros Hlo Hr Hc. unfold minimum_filter.
  rewrite get_tabulate by assumption.
  destruct (window_values g size r c) as [|x l] eqn:E; cbn.
  - now apply Hlo.
  - assert (Hcells : forall y, In y (x :: l) -> (lo <= y)%Q).
    { intros y Hy. rewrite <- E in Hy.
      apply window_values_cells in Hy; [|lia|lia].
      destruct Hy as (r' & c' & Hr' & Hc' & ->). now apply Hlo. }
    apply fold_left_Qmin_ge.
    + apply Hcells. now left.
    + intros y Hy. apply Hcells. now right.
Qed.

Lemma Z_filled_shape (Zg : array (option Q)) :
  nrows (Z_filled Zg) = nrows Zg /\ ncols (Z_filled Zg) = ncols Zg.
Proof.
  unfold Z_filled, where_finite. now rewrite nrows_map2d, ncols_map2d.
Qed.

Lemma relief_grid_le_spread (Zg : array (option Q)) (size : Z)
    (lo hi : Q) (r c : nat) :
  (forall r' c', (r' < nrows Zg)%nat -> (c' < ncols Zg)%nat ->
                 (lo <= get 0%Q (Z_filled Zg) r' c' <= hi)%Q) ->
  (r < nrows Zg)%nat -> (c < ncols Zg)%nat ->
  (get 0%Q (relief_grid Zg size) r c <= hi - lo)%Q.
Proof.
  intros Hrange Hr Hc.
  destruct (Z_filled_shape Zg) as [Hn Hm].
  rewrite relief_grid_cell by assumption.
  assert (Hmin : (lo <= get 0%Q (minimum_filter (Z_filled Zg) size) r c)%Q).
  { apply minimum_filter_ge; rewrite ?Hn, ?Hm; try assumption.
    intros r' c' Hr' Hc'. now apply Hrange. }
  destruct (Hrange r c Hr Hc) as [_ Hhi].
  unfold Qminus. apply Qplus_le_compat; [exact Hhi|].
  now apply Qopp_le_compat.
Qed.

(** X2. The local relief of a cell never exceeds the spread of the filled
    elevations. *)
Theorem relief_within_elevation_range (Zg : array (option Q)) (size : Z)
    (lo hi : Q) (r c : nat) :
  (forall r' c', (r' < nrows Zg)%nat -> (c' < ncols Zg)%nat ->
                 (lo <= get 0%Q (Z_filled Zg) r' c' <= hi)%Q) ->
  (r < nrows Zg)%nat -> (c < ncols Zg)%nat ->
  (get 0%Q (relief_grid Zg size) r c <= hi - lo)%Q.
Proof. apply relief_grid_le_spread. Qed.

End NewMethodFacts.

Section NewMethodOutcomes.

Import Np Ndimage NewMethod.

Context {G : Type} `{SH : Shapely G} `{TK : Toolkit G}.

(** X3. When the relief threshold exceeds the spread of the filled elevations
    (on a flat grid: any positive threshold), the relief method classifies
    nothing and returns the empty layer. *)
Theorem relief_method_empty_above_range (dem : dem_data) (p : params)
    (lo hi : Q) :
  ~ (pixel_size_m dem == 0)%Q ->
  (forall r c, (r < nrows (elevation dem))%nat ->
               (c < ncols (elevation dem))%nat ->
               (lo <= get 0%Q (Z_filled (elevation dem)) r c <= hi)%Q) ->
  (hi - lo < relief_threshold_m p)%Q ->
  _compute_relief_method dem p = Ok [].
Proof.
  intros Hpx Hrange Hthr. unfold _compute_relief_method, window_size, odd_window.
  rewrite (div_nonzero _ _ Hpx). cbn [bind].
  match goal with |- context [relief_mask ?z ?w ?t] =>
    replace (count (relief_mask z w t)) with 0; [reflexivity|];
    set (window := w) end.
  symmetry. apply count_tabulate_false. intros r c Hr Hc.
  destruct (relief_grid_shape (elevation dem) window) as [Hn Hm].
  rewrite Hn in Hr. rewrite Hm in Hc by lia.
  replace (Py.Qleb (relief_threshold_m p)
             (get 0%Q (relief_grid (elevation dem) window) r c)) with false;
    [reflexivity|].
  symmetry. destruct (Py.Qleb _ _) eqn:E; [|reflexivity].
  apply Qleb_true in E. exfalso.
  apply (Qlt_irrefl (relief_threshold_m p)).
  eapply Qle_lt_trans; [exact E|].
  eapply Qle_lt_trans; [|exact Hthr].
  now apply relief_grid_le_spread.
Qed.

Lemma relief_method_cases (dem : dem_data) (p : params) :
  ((pixel_size_m dem == 0)%Q ->
   _compute_relief_method dem p = Raise ZeroDivisionError)
  /\ (~ (pixel_size_m dem == 0)%Q ->
      _compute_relief_method dem p = Ok []
      \/ exists g, _compute_relief_method dem p
                   = Ok [mkFeature (Some "NEW_2025_relief"%string) g]).
Proof.
  split.
  - intros Hpx. unfold _compute_relief_method, window_size, odd_window, Py.div.
    apply Qeq_bool_iff in Hpx. now rewrite Hpx.
  - intros Hpx. unfold _compute_relief_method, window_size, odd_window.
    rewrite (div_nonzero _ _ Hpx). cbn [bind].
    match goal with |- context [count ?m =? 0] => destruct (count m =? 0) end;
      [now left|].
    match goal with |- context [_polygonize_mask ?m ?t] =>
      destruct (_polygonize_mask m t) end; [now left|].
    right. eexists. reflexivity.
Qed.

(** X4. The relief method raises exactly for a zero pixel size, and then a
    ZeroDivisionError; otherwise it returns the empty layer or one feature
    tagged NEW_2025_relief. *)
Theorem relief_method_outcome (dem : dem_data) (p : params) :
  ((pixel_size_m dem == 0)%Q ->
   _compute_relief_method dem p = Raise ZeroDivisionError)
  /\ (~ (pixel_size_m dem == 0)%Q ->
      _compute_relief_method dem p = Ok []
      \/ exists g, _compute_relief_method dem p
                   = Ok [mkFeature (Some "NEW_2025_relief"%string) g]).
Proof. apply relief_method_cases. Qed.


End NewMethodOutcomes.

Lemma cells_in_range (g : Np.array Q) (lo hi : Q) :
  forallb (fun r =>
      forallb (fun c => Py.Qleb lo (Np.get 0%Q g r c)
                        && Py.Qleb (Np.get 0%Q g r c) hi)
              (seq 0 (Np.ncols g)))
    (seq 0 (Np.nrows g)) = true ->
  forall r c, (r < Np.nrows g)%nat -> (c < Np.ncols g)%nat ->
              (lo <= Np.get 0%Q g r c <= hi)%Q.
Proof.
  intros H r c Hr Hc.
  rewrite forallb_forall in H.
  assert (Hrow := H r ltac:(apply in_seq; lia)).
  rewrite forallb_forall in Hrow.
  assert (Hcell := Hrow c ltac:(apply in_seq; lia)).
  apply andb_true_iff in Hcell. destruct Hcell as [H1 H2].
  split; now apply Qleb_true.
Qed.

Lemma relief_within_elevation_range_witness :
  (forall r' c', (r' < Np.nrows Examples.small_grid)%nat ->
                 (c' < Np.ncols Examples.small_grid)%nat ->
                 (2 # 1 <= Np.get 0%Q (NewMethod.Z_filled Examples.small_grid) r' c'
                  <= 9 # 1)%Q)
  /\ (0 < Np.nrows Examples.small_grid)%nat
  /\ (2 < Np.ncols Examples.small_grid)%nat
  /\ (Np.get 0%Q (NewMethod.relief_grid Examples.small_grid 3) 0 2
      <= (9 # 1) - (2 # 1))%Q.
Proof.
  assert (Hrange : forall r' c',
    (r' < Np.nrows Examples.small_grid)%nat ->
    (c' < Np.ncols Examples.small_grid)%nat ->
    (2 # 1 <= Np.get 0%Q (NewMethod.Z_filled Examples.small_grid) r' c'
     <= 9 # 1)%Q)
    by (apply (cells_in_range (NewMethod.Z_filled Examples.small_grid));
        reflexivity).
  split; [exact Hrange|]. split; [cbn; lia|]. split; [cbn; lia|].
  apply (relief_within_elevation_range Examples.small_grid 3 (2 # 1) (9 # 1) 0 2
           Hrange); cbn; lia.
Defined.

Lemma relief_method_empty_above_range_witness :
  ~ (pixel_size_m Examples.plateau == 0)%Q
  /\ (forall r c, (r < Np.nrows (elevation Examples.plateau))%nat ->
                  (c < Np.ncols (elevation Examples.plateau))%nat ->
                  (250 # 1
                   <= Np.get 0%Q (NewMethod.Z_filled (elevation Examples.plateau)) r c
                   <= 250 # 1)%Q)
  /\ ((250 # 1) - (250 # 1)
      < NewMethod.relief_threshold_m Examples.relief_params)%Q
  /\ NewMethod._compute_relief_method (TK := Examples.tk_rows)
       Examples.plateau Examples.relief_params = Ok [].
Proof.
  assert (Hpx : ~ (pixel_size_m Examples.plateau == 0)%Q)
    by (intros E; discriminate E).
  assert (Hrange : forall r c,
    (r < Np.nrows (elevation Examples.plateau))%nat ->
    (c < Np.ncols (elevation Examples.plateau))%nat ->
    (250 # 1
     <= Np.get 0%Q (NewMethod.Z_filled (elevation Examples.plateau)) r c
     <= 250 # 1)%Q)
    by (apply (cells_in_range (NewMethod.Z_filled (elevation Examples.plateau)));
        reflexivity).
  assert (Hthr : ((250 # 1) - (250 # 1)
                  < NewMethod.relief_threshold_m Examples.relief_params)%Q)
    by reflexivity.
  split; [exact Hpx|]. split; [exact Hrange|]. split; [exact Hthr|].
  exact (relief_method_empty_above_range (TK := Examples.tk_rows)
           Examples.plateau Examples.relief_params (250 # 1) (250 # 1)
           Hpx Hrange Hthr).
Defined.


(** ** Binary morphology as the OLD method uses it *)

Section Morphology.

Import Np Ndimage.

Lemma get_true_inside (m : array bool) (r c : nat) :
  get false m r c = true -> (r < nrows m)%nat.
Proof.
  intros H. destruct (Nat.lt_ge_cases r (nrows m)) as [Hr|Hr]; [exact Hr|].
  rewrite get_outside in H by exact Hr. discriminate.
Qed.

Lemma get_border_cell (m : array bool) (r c : nat) :
  get_border m (Z.of_nat r) (Z.of_nat c) = get false m r c.
Proof.
  unfold get_border.
  replace (0 <=? Z.of_nat r) with true by (symmetry; apply Z.leb_le; lia).
  replace (0 <=? Z.of_nat c) with true by (symmetry; apply Z.leb_le; lia).
  cbn. now rewrite !Nat2Z.id.
Qed.

Lemma dilate_once_shape (s : list (Z * Z)) (m : array bool) :
  nrows (dilate_once s m) = nrows m
  /\ ((0 < nrows m)%nat -> ncols (dilate_once s m) = ncols m).
Proof.
  unfold dilate_once. split; [apply nrows_tabulate|apply ncols_tabulate].
Qed.

Lemma erode_once_shape (s : list (Z * Z)) (m : array bool) :
  nrows (erode_once s m) = nrows m
  /\ ((0 < nrows m)%nat -> ncols (erode_once s m) = ncols m).
Proof.
  unfold erode_once. split; [apply nrows_tabulate|apply ncols_tabulate].
Qed.

Lemma iter_shape (op : array bool -> array bool) (m : array bool) (n : nat) :
  (forall x, nrows (op x) = nrows x
             /\ ((0 < nrows x)%nat -> ncols (op x) = ncols x)) ->
  nrows (Nat.iter n op m) = nrows m
  /\ ((0 < nrows m)%nat -> ncols (Nat.iter n op m) = ncols m).
Proof.
  intros Hop. induction n as [|n [IHn IHm]]; [cbn; auto|].
  rewrite Nat.iter_succ.
  destruct (Hop (Nat.iter n op m)) as [Hn Hm]. split.
  - now rewrite Hn.
  - intros H. rewrite Hm by (rewrite IHn; exact H). now apply IHm.
Qed.

Lemma dilate_once_extensive (m : array bool) (r c : nat) :
  (c < ncols m)%nat ->
  get false m r c = true ->
  get false (dilate_once generate_binary_structure_2_1 m) r c = true.
Proof.
  intros Hc H. pose proof (get_true_inside m r c H) as Hr.
  unfold dilate_once. rewrite get_tabulate by assumption.
  apply existsb_exists. exists (0, 0). split; [cbn; tauto|].
  cbn [fst snd]. rewrite !Z.sub_0_r. now rewrite get_border_cell.
Qed.

Lemma erode_once_antiextensive (m : array bool) (r c : nat) :
  get false (erode_once generate_binary_structure_2_1 m) r c = true ->
  get false m r c = true.
Proof.
  unfold erode_once. intros H. apply get_tabulate_true in H.
  destruct H as (_ & _ & H). rewrite forallb_forall in H.
  specialize (H (0, 0) ltac:(cbn; tauto)). cbn [fst snd] in H.
  rewrite !Z.add_0_r in H. now rewrite get_border_cell in H.
Qed.

Lemma iter_dilate_extensive (m : array bool) (n : nat) (r c : nat) :
  (c < ncols m)%nat ->
  get false m r c = true ->
  get false (Nat.iter n (dilate_once generate_binary_structure_2_1) m) r c
  = true.
Proof.
  intros Hc H. pose proof (get_true_inside m r c H) as Hr.
  induction n as [|n IH]; [exact H|].
  rewrite Nat.iter_succ.
  destruct (iter_shape (dilate_once generate_binary_structure_2_1) m n
              (dilate_once_shape _)) as [_ Hm'].
  apply dilate_once_extensive; [rewrite Hm' by lia; exact Hc|exact IH].
Qed.

(** X14. Dilation never removes a classified cell and keeps the shape of the
    mask, whatever the number of iterations (the method passes at least
    one): the buffered mask contains the mask it was made from. *)
Theorem binary_dilation_extensive (m : array bool) (iterations : Z)
    (r c : nat) :
  1 <= iterations ->
  (c < ncols m)%nat ->
  get false m r c = true ->
  get false (binary_dilation m generate_binary_structure_2_1 iterations) r c
  = true
  /\ nrows (binary_dilation m generate_binary_structure_2_1 iterations)
     = nrows m
  /\ ncols (binary_dilation m generate_binary_structure_2_1 iterations)
     = ncols m.
Proof.
  intros _ Hc H. pose proof (get_true_inside m r c H) as Hr.
  unfold binary_dilation.
  destruct (iter_shape (dilate_once generate_binary_structure_2_1) m
              (Z.to_nat iterations) (dilate_once_shape _)) as [Hn Hm].
  split; [now apply iter_dilate_extensive|].
  split; [exact Hn|apply Hm; lia].
Qed.

Lemma iter_erode_antiextensive (m : array bool) (n : nat) (r c : nat) :
  get false (Nat.iter n (erode_once generate_binary_structure_2_1) m) r c
  = true ->
  get false m r c = true.
Proof.
  induction n as [|n IH]; [auto|].
  rewrite Nat.iter_succ.
  intros H. apply IH. now apply erode_once_antiextensive.
Qed.

(** X15. Gap bridging reaches no farther than its dilation: a cell of the
    closed mask is a cell of the mask dilated by the same number of
    iterations. *)
Theorem binary_closing_within_dilation (m : array bool) (iterations : Z)
    (r c : nat) :
  1 <= iterations ->
  get false (binary_closing m generate_binary_structure_2_1 iterations) r c
  = true ->
  get false (binary_dilation m generate_binary_structure_2_1 iterations) r c
  = true.
Proof.
  intros _. unfold binary_closing, binary_erosion.
  apply iter_erode_antiextensive.
Qed.

(** An eroded mask has no cell on the border of the array, because the
    outside counts as empty. *)
Lemma erode_once_interior (n k : nat) (f : nat -> nat -> bool) (r c : nat) :
  get false (erode_once generate_binary_structure_2_1 (tabulate n k f)) r c
  = true ->
  (0 < r)%nat /\ (r + 1 < n)%nat /\ (0 < c)%nat /\ (c + 1 < k)%nat.
Proof.
  unfold erode_once. intros H. apply get_tabulate_true in H.
  destruct H as (Hr & Hc & H). rewrite forallb_forall in H.
  pose proof (H (-1, 0) ltac:(cbn; tauto)) as Hup.
  pose proof (H (0, -1) ltac:(cbn; tauto)) as Hleft.
  pose proof (H (1, 0) ltac:(cbn; tauto)) as Hdown.
  pose proof (H (0, 1) ltac:(cbn; tauto)) as Hright.
  cbn [fst snd] in *.
  assert (Hr0 : (0 < r)%nat).
  { destruct r; [|lia]. cbn in Hup. discriminate. }
  assert (Hc0 : (0 < c)%nat).
  { destruct c; [|lia]. unfold get_border in Hleft.
    replace (Z.of_nat 0 + -1) with (-1) in Hleft by lia.
    rewrite andb_false_r in Hleft. discriminate. }
  replace (Z.of_nat r + 1) with (Z.of_nat (r + 1)) in Hdown by lia.
  replace (Z.of_nat c + 0) with (Z.of_nat c) in Hdown by lia.
  rewrite get_border_cell in Hdown.
  replace (Z.of_nat c + 1) with (Z.of_nat (c + 1)) in Hright by lia.
  replace (Z.of_nat r + 0) with (Z.of_nat r) in Hright by lia.
  rewrite get_border_cell in Hright.
  apply get_tabulate_true in Hdown. apply get_tabulate_true in Hright.
  rewrite nrows_tabulate in *.
  lia.
Qed.

Lemma iter_S_tabulated (op : array bool -> array bool) (m : array bool)
    (n : nat) :
  (forall x, exists f, op x = tabulate (nrows x) (ncols x) f) ->
  (forall x, nrows (op x) = nrows x
             /\ ((0 < nrows x)%nat -> ncols (op x) = ncols x)) ->
  (0 < nrows m)%nat ->
  exists f, Nat.iter (S n) op m = tabulate (nrows m) (ncols m) f.
Proof.
  intros Htab Hshape Hm. rewrite Nat.iter_succ.
  destruct (Htab (Nat.iter n op m)) as [f Hf].
  destruct (iter_shape op m n Hshape) as [Hn Hk].
  exists f. now rewrite Hf, Hn, Hk.
Qed.

(** X16. Closing with at least one iteration leaves no classified cell on the
    first or last row or column of the array: gap bridging removes what
    touches the edge of the DEM. *)
Theorem binary_closing_clears_border (m : array bool) (iterations : Z)
    (r c : nat) :
  1 <= iterations ->
  get false (binary_closing m generate_binary_structure_2_1 iterations) r c
  = true ->
  (0 < r)%nat /\ (r + 1 < nrows m)%nat /\ (0 < c)%nat /\ (c + 1 < ncols m)%nat.
Proof.
  intros Hit H. unfold binary_closing, binary_erosion, binary_dilation in H.
  destruct (Z.to_nat iterations) as [|n] eqn:En; [lia|].
  set (D := Nat.iter (S n) (dilate_once generate_binary_structure_2_1) m) in *.
  destruct (Nat.eq_dec (nrows m) 0) as [Hz|Hnz].
  { exfalso. apply get_true_inside in H.
    destruct (iter_shape (erode_once generate_binary_structure_2_1) D (S n)
                (erode_once_shape _)) as [Hn _].
    destruct (iter_shape (dilate_once generate_binary_structure_2_1) m (S n)
                (dilate_once_shape _)) as [Hn' _].
    fold D in Hn'. rewrite Hn, Hn' in H. lia. }
  assert (HD : exists f, D = tabulate (nrows m) (ncols m) f).
  { apply iter_S_tabulated; [|apply dilate_once_shape|lia].
    intros x. eexists. reflexivity. }
  destruct HD as [fD HD].
  assert (HX : exists f,
    Nat.iter n (erode_once generate_binary_structure_2_1) D
    = tabulate (nrows m) (ncols m) f).
  { destruct n as [|n']; [now exists fD|].
    destruct (iter_S_tabulated (erode_once generate_binary_structure_2_1) D n')
      as [f Hf]; [intros x; eexists; reflexivity|apply erode_once_shape| |].
    - rewrite HD, nrows_tabulate. lia.
    - exists f. rewrite Hf. rewrite HD at 1 2.
      rewrite nrows_tabulate, ncols_tabulate by lia. reflexivity. }
  destruct HX as [fX HX].
  rewrite Nat.iter_succ in H. rewrite HX in H.
  now apply erode_once_interior in H.
Qed.

End Morphology.

Lemma binary_dilation_extensive_witness :
  1 <= 2
  /\ (3 < Np.ncols Examples.dotted_mask)%nat
  /\ Np.get false Examples.dotted_mask 2 3 = true
  /\ Np.get false
       (Ndimage.binary_dilation Examples.dotted_mask
          Ndimage.generate_binary_structure_2_1 2) 2 3 = true
  /\ Np.nrows (Ndimage.binary_dilation Examples.dotted_mask
                 Ndimage.generate_binary_structure_2_1 2)
     = Np.nrows Examples.dotted_mask
  /\ Np.ncols (Ndimage.binary_dilation Examples.dotted_mask
                 Ndimage.generate_binary_structure_2_1 2)
     = Np.ncols Examples.dotted_mask.
Proof.
  split; [lia|]. split; [cbn; lia|]. split; [reflexivity|].
  apply (binary_dilation_extensive Examples.dotted_mask 2 2 3);
    [lia|cbn; lia|reflexivity].
Defined.

Lemma binary_closing_within_dilation_witness :
  1 <= 1
  /\ Np.get false
       (Ndimage.binary_closing Examples.dotted_mask
          Ndimage.generate_binary_structure_2_1 1) 2 2 = true
  /\ Np.get false
       (Ndimage.binary_dilation Examples.dotted_mask
          Ndimage.generate_binary_structure_2_1 1) 2 2 = true.
Proof.
  split; [lia|]. split; [reflexivity|].
  apply (binary_closing_within_dilation Examples.dotted_mask 1 2 2);
    [lia|reflexivity].
Defined.

Lemma binary_closing_clears_border_witness :
  1 <= 1
  /\ Np.get false
       (Ndimage.binary_closing Examples.dotted_mask
          Ndimage.generate_binary_structure_2_1 1) 2 1 = true
  /\ (0 < 2)%nat /\ (2 + 1 < Np.nrows Examples.dotted_mask)%nat
  /\ (0 < 1)%nat /\ (1 + 1 < Np.ncols Examples.dotted_mask)%nat.
Proof.
  split; [lia|]. split; [reflexivity|].
  apply (binary_closing_clears_border Examples.dotted_mask 1 2 1);
    [lia|reflexivity].
Defined.

(** A column of classified cells that reaches the first row loses that
    cell to the closing. *)
Example closing_removes_edge_cell :
  Ndimage.binary_closing
    [[false; true; false]; [false; true; false]; [false; true; false];
     [false; false; false]]
    Ndimage.generate_binary_structure_2_1 1
  = [[false; false; false]; [false; true; false]; [false; true; false];
     [false; false; false]].
Proof. reflexivity. Qed.

(** ** The OLD method: what is classified, and when it raises *)

Section OldMethodFacts.

Import Np Ndimage OldMethod.

Context {G : Type} `{SH : Shapely G} `{TK : Toolkit G}.

Lemma count_positive_cell (mask : array bool) (r c : nat) :
  get false mask r c = true -> count mask <> 0.
Proof.
  intros H H0. rewrite count_zero_cells in H0.
  rewrite (cells_false_get mask r c H0) in H. discriminate.
Qed.

(** X12. A cell of the mask that enters the morphological stages is finite,
    steeper than the threshold and outside the urban mask; and when there
    is such a cell the pixel count tested on line 85 is not zero. *)
Theorem classified_cells_finite_steep_nonurban (slope_deg : array (option Q))
    (threshold : Q) (Zg : array (option Q)) (urban : option (array bool))
    (r c : nat) :
  get false (fst (OldMethodMask.urban_filtered slope_deg threshold Zg urban))
      r c = true ->
  get false (isfinite Zg) r c = true
  /\ (exists s, get None slope_deg r c = Some s /\ (threshold < s)%Q)
  /\ (forall u, urban = Some u -> get false u r c = false)
  /\ snd (OldMethodMask.urban_filtered slope_deg threshold Zg urban) <> 0.
Proof.
  assert (Hthr : get false (OldMethodMask.slope_mask slope_deg threshold Zg) r c
                 = true ->
                 get false (isfinite Zg) r c = true
                 /\ exists s, get None slope_deg r c = Some s /\ (threshold < s)%Q).
  { unfold OldMethodMask.slope_mask. intros H. apply get_tabulate_true in H.
    destruct H as (_ & _ & H). apply andb_true_iff in H. destruct H as [Hs Hf].
    split; [exact Hf|].
    destruct (get None slope_deg r c) as [s|]; [|discriminate].
    exists s. split; [reflexivity|]. now apply Qltb_true. }
  unfold OldMethodMask.urban_filtered. cbv zeta.
  destruct urban as [u|]; [destruct (count u >? 0) eqn:E|]; cbn [fst snd].
  - intros H. pose proof (count_positive_cell _ _ _ H) as Hcount.
    apply get_tabulate_true in H. destruct H as (_ & _ & H).
    apply andb_true_iff in H. destruct H as [Hm Hu].
    destruct (Hthr Hm) as [Hf Hs].
    split; [exact Hf|]. split; [exact Hs|]. split; [|exact Hcount].
    intros u' [= <-]. now apply negb_true_iff.
  - intros H. destruct (Hthr H) as [Hf Hs].
    split; [exact Hf|]. split; [exact Hs|].
    split; [|now apply (count_positive_cell _ r c)].
    intros u' [= <-]. apply cells_false_get. apply count_zero_cells.
    rewrite Z.gtb_ltb in E. apply Z.ltb_ge in E. unfold count in *. lia.
  - intros H. destruct (Hthr H) as [Hf Hs].
    split; [exact Hf|]. split; [exact Hs|].
    split; [intros u' [=]|now apply (count_positive_cell _ r c)].
Qed.

(** X13. When nothing is classified the OLD method returns the empty layer
    before it divides by the pixel size; when something is classified and
    the pixel size is zero it raises ZeroDivisionError. *)
Theorem old_method_zero_pixel_size (dem : dem_data)
    (urban : option (array bool)) (p : params) (slope_deg : array (option Q)) :
  _compute_slope_degrees (elevation dem) (pixel_size_m dem) = Ok slope_deg ->
  (snd (OldMethodMask.urban_filtered slope_deg (slope_threshold_deg p)
          (elevation dem) urban) = 0 ->
   compute_old_delineation dem urban p = Ok [])
  /\ (snd (OldMethodMask.urban_filtered slope_deg (slope_threshold_deg p)
             (elevation dem) urban) <> 0 ->
      (pixel_size_m dem == 0)%Q ->
      compute_old_delineation dem urban p = Raise ZeroDivisionError).
Proof.
  intros Hslope. unfold compute_old_delineation.
  rewrite Hslope. cbn [bind]. cbv zeta.
  unfold OldMethodMask.urban_filtered, OldMethodMask.slope_mask. cbv zeta.
  match goal with
  | |- context [let '(_, _) := ?m in _] => destruct m as [mask n]
  end.
  cbn [snd]. split.
  - intros H0. now rewrite H0.
  - intros Hne Hpx. apply Z.eqb_neq in Hne. rewrite Hne.
    unfold Py.div. apply Qeq_bool_iff in Hpx. now rewrite Hpx.
Qed.

End OldMethodFacts.

Lemma classified_cells_finite_steep_nonurban_witness :
  Np.get false
    (fst (OldMethodMask.urban_filtered Examples.ridge_slope (1 # 1)
            (elevation Examples.ridge) (Some Examples.ridge_urban)))
    0 2 = true
  /\ Np.get false (Np.isfinite (elevation Examples.ridge)) 0 2 = true
  /\ (exists s, Np.get None Examples.ridge_slope 0 2 = Some s /\ (1 # 1 < s)%Q)
  /\ (forall u, Some Examples.ridge_urban = Some u ->
                Np.get false u 0 2 = false)
  /\ snd (OldMethodMask.urban_filtered Examples.ridge_slope (1 # 1)
            (elevation Examples.ridge) (Some Examples.ridge_urban)) <> 0.
Proof.
  split; [reflexivity|].
  apply (classified_cells_finite_steep_nonurban Examples.ridge_slope (1 # 1)
           (elevation Examples.ridge) (Some Examples.ridge_urban) 0 2).
  reflexivity.
Defined.

Lemma old_method_zero_pixel_size_witness :
  OldMethod._compute_slope_degrees (TK := Examples.tk_rows)
    (elevation Examples.ridge_unscaled) (pixel_size_m Examples.ridge_unscaled)
  = Ok Examples.ridge_unscaled_slope
  /\ OldMethod.compute_old_delineation (TK := Examples.tk_rows)
       Examples.ridge_unscaled None Examples.old_params = Ok []
  /\ OldMethod.compute_old_delineation (TK := Examples.tk_rows)
       Examples.ridge_unscaled None Examples.old_params_permissive
     = Raise ZeroDivisionError.
Proof.
  assert (Hslope :
    OldMethod._compute_slope_degrees (TK := Examples.tk_rows)
      (elevation Examples.ridge_unscaled) (pixel_size_m Examples.ridge_unscaled)
    = Ok Examples.ridge_unscaled_slope) by reflexivity.
  split; [exact Hslope|]. split.
  - apply (old_method_zero_pixel_size (TK := Examples.tk_rows)
             Examples.ridge_unscaled None Examples.old_params _ Hslope).
    reflexivity.
  - apply (old_method_zero_pixel_size (TK := Examples.tk_rows)
             Examples.ridge_unscaled None Examples.old_params_permissive
             _ Hslope); [vm_compute; discriminate|reflexivity].
Defined.

(** ** Statistics *)

Section StatisticsFacts.

Import Np Stats.

Lemma fold_left_Qmax_ge (l : list Q) (x y : Q) :
  In y (x :: l) -> (y <= fold_left Qmax l x)%Q.
Proof.
  revert x y. induction l as [|z l IH]; intros x y H; simpl in *.
  - destruct H as [->|[]]. apply Qle_refl.
  - destruct H as [->|[->|H]].
    + eapply Qle_trans; [apply Q.le_max_l|]. apply IH. now left.
    + eapply Qle_trans; [apply Q.le_max_r|]. apply IH. now left.
    + apply IH. now right.
Qed.




End StatisticsFacts.


Section HillDistanceFacts.

Import Np Stats.

Context {G : Type} `{SH : Shapely G}.

(** What one hill appends is nothing or a single row carrying its own
    position and the position of another candidate. *)
Lemma hill_distance_shape (geoms : list G) (max_distance_m : Q) (i : nat)
    (geom : G) :
  hill_distance geoms max_distance_m i geom = []
  \/ exists j d, j <> i
       /\ hill_distance geoms max_distance_m i geom
          = [mkDistanceRow i (Z.of_nat j) d].
Proof.
  unfold hill_distance.
  destruct (nearest_fold geoms i geom
              (strtree_query geoms (buffer geom max_distance_m)) None (-1))
    as [[Hres _]|(j & _ & Hne & Hres & _)]; rewrite Hres.
  - now left.
  - destruct (Py.Qltb _ _); [|now left].
    right. eexists j, _. split; [exact Hne|reflexivity].
Qed.

Lemma enumerate_rows_wellformed (geoms : list G) (max_distance_m : Q)
    (l : list G) (a : nat) :
  let rows :=
    flat_map (fun ig => hill_distance geoms max_distance_m (fst ig) (snd ig))
             (combine (seq a (length l)) l) in
  StronglySorted lt (map hill_id rows)
  /\ Forall (fun id => (a <= id)%nat) (map hill_id rows)
  /\ Forall (fun row => 0 <= nearest_id row
                        /\ nearest_id row <> Z.of_nat (hill_id row)) rows.
Proof.
  revert a. induction l as [|g l IH]; intros a; cbn zeta.
  - cbn. repeat split; constructor.
  - cbn [length seq combine flat_map fst snd].
    destruct (IH (S a)) as (Hs & Hlo & Hwf). cbn zeta in Hs, Hlo, Hwf.
    destruct (hill_distance_shape geoms max_distance_m a g)
      as [->|(j & d & Hne & ->)]; cbn [app map].
    + split; [exact Hs|]. split; [|exact Hwf].
      eapply Forall_impl; [|exact Hlo]. cbn. intros; lia.
    + split; [|split].
      * constructor; [exact Hs|].
        eapply Forall_impl; [|exact Hlo]. cbn. intros; lia.
      * constructor; [cbn; lia|].
        eapply Forall_impl; [|exact Hlo]. cbn. intros; lia.
      * constructor; [|exact Hwf]. cbn. split; lia.
Qed.

(** X18. The distance table has at most one row per hill, in ascending order
    of [hill_id]; no row names the hill itself or the initial index -1 as
    the nearest one; and the function returns [None], never an empty
    table. *)
Theorem hill_distance_table_wellformed (explode_raises : bool)
    (hills_gdf : GeoDataFrame G) (max_distance_m : Q) :
  StronglySorted lt
    (map hill_id
       (table_rows (compute_hill_distances explode_raises hills_gdf
                      max_distance_m)))
  /\ (forall row,
        In row (table_rows (compute_hill_distances explode_raises hills_gdf
                              max_distance_m)) ->
        0 <= nearest_id row /\ nearest_id row <> Z.of_nat (hill_id row))
  /\ compute_hill_distances explode_raises hills_gdf max_distance_m <> Some [].
Proof.
  unfold compute_hill_distances.
  destruct hills_gdf as [|row0 rest]; cbn [table_rows].
  { split; [constructor|]. split; [intros row []|discriminate]. }
  cbv zeta.
  match goal with |- context [(length ?h <? 2)%nat] => set (hills := h) end.
  destruct (length hills <? 2)%nat; cbn [table_rows].
  { split; [constructor|]. split; [intros row []|discriminate]. }
  destruct (enumerate_rows_wellformed (map geometry hills) max_distance_m
              (map geometry hills) 0) as (Hs & _ & Hwf).
  cbn zeta in Hs, Hwf.
  destruct (flat_map _ _) as [|r0 rows] eqn:E; cbn [table_rows].
  { split; [constructor|]. split; [intros row []|discriminate]. }
  split; [exact Hs|]. split; [|discriminate].
  intros row Hin. rewrite Forall_forall in Hwf. now apply Hwf.
Qed.

(** X19. With a symmetric distance, the hill named as nearest has a row of its
    own, and its own nearest neighbour is no farther away. *)
Theorem nearest_hill_has_a_row (hills_gdf : GeoDataFrame G)
    (max_distance_m : Q) (row : distance_row) :
  (forall g j,
      In j (strtree_query (map geometry (explode hills_gdf)) g) ->
      (j < length (map geometry (explode hills_gdf)))%nat) ->
  (forall i j gi gj,
      nth_error (map geometry (explode hills_gdf)) i = Some gi ->
      nth_error (map geometry (explode hills_gdf)) j = Some gj ->
      (distance gi gj < max_distance_m)%Q ->
      In j (strtree_query (map geometry (explode hills_gdf))
              (buffer gi max_distance_m))) ->
  (forall i j gi gj,
      nth_error (map geometry (explode hills_gdf)) i = Some gi ->
      nth_error (map geometry (explode hills_gdf)) j = Some gj ->
      (distance gi gj == distance gj gi)%Q) ->
  In row (table_rows (compute_hill_distances false hills_gdf max_distance_m)) ->
  exists row' part nearest nearest',
    In row' (table_rows
               (compute_hill_distances false hills_gdf max_distance_m))
    /\ Z.of_nat (hill_id row') = nearest_id row
    /\ nth_error (map geometry (explode hills_gdf)) (hill_id row) = Some part
    /\ nth_error (map geometry (explode hills_gdf)) (hill_id row') = Some nearest
    /\ distance_m row = Py.round (distance part nearest) 1
    /\ distance_m row' = Py.round (distance nearest nearest') 1
    /\ (distance nearest nearest' <= distance part nearest)%Q.
Proof.
  rewrite !explode_parts. intros Hrange Hcomplete Hsym Hin.
  destruct (table_rows_nearest hills_gdf max_distance_m Hrange Hcomplete row Hin)
    as (gi & j & gj & Hi & Hj & Hne & Hid & Hd & Hlt & _).
  assert (Hnb : exists k gk,
    nth_error (flat_map parts (map geometry hills_gdf)) k = Some gk
    /\ k <> j /\ (distance gj gk < max_distance_m)%Q).
  { exists (hill_id row), gi. repeat split; auto.
    now rewrite (Hsym _ _ _ _ Hj Hi). }
  apply (table_covers hills_gdf max_distance_m Hrange Hcomplete j gj Hj) in Hnb.
  destruct Hnb as (row' & Hin' & Hid').
  destruct (table_rows_nearest hills_gdf max_distance_m Hrange Hcomplete
              row' Hin')
    as (gj' & k & gk & Hj' & Hk & Hnek & _ & Hd' & _ & Hmin).
  rewrite Hid' in Hj'.
  rewrite Hj in Hj'. injection Hj' as <-.
  exists row', gi, gj, gk. rewrite Hid'.
  repeat split; auto.
  specialize (Hmin (hill_id row) gi Hi).
  rewrite Hid' in Hmin. rewrite (Hsym _ _ _ _ Hi Hj).
  apply Hmin. congruence.
Qed.

End HillDistanceFacts.

Lemma three_hills_symmetric (i j : nat) (gi gj : Transect.geom) :
  nth_error (map geometry (Stats.explode Examples.three_hills)) i = Some gi ->
  nth_error (map geometry (Stats.explode Examples.three_hills)) j = Some gj ->
  (distance gi gj == distance gj gi)%Q.
Proof.
  intros Hi Hj.
  destruct i as [|[|[|i]]]; cbn in Hi; try (destruct i; discriminate);
    injection Hi as <-;
    destruct j as [|[|[|j]]]; cbn in Hj; try (destruct j; discriminate);
    injection Hj as <-; reflexivity.
Qed.

Lemma nearest_hill_has_a_row_witness :
  (forall g j,
      In j (strtree_query (map geometry (Stats.explode Examples.three_hills)) g) ->
      (j < length (map geometry (Stats.explode Examples.three_hills)))%nat)
  /\ (forall i j gi gj,
        nth_error (map geometry (Stats.explode Examples.three_hills)) i = Some gi ->
        nth_error (map geometry (Stats.explode Examples.three_hills)) j = Some gj ->
        (distance gi gj < 1000 # 1)%Q ->
        In j (strtree_query (map geometry (Stats.explode Examples.three_hills))
                (buffer gi (1000 # 1))))
  /\ (forall i j gi gj,
        nth_error (map geometry (Stats.explode Examples.three_hills)) i = Some gi ->
        nth_error (map geometry (Stats.explode Examples.three_hills)) j = Some gj ->
        (distance gi gj == distance gj gi)%Q)
  /\ In (Stats.mkDistanceRow 2 1 (Py.round (300 # 1) 1))
        (Stats.table_rows
           (Stats.compute_hill_distances false Examples.three_hills (1000 # 1)))
  /\ exists row' part nearest nearest',
      In row' (Stats.table_rows
                 (Stats.compute_hill_distances false Examples.three_hills
                    (1000 # 1)))
      /\ Z.of_nat (Stats.hill_id row') = 1
      /\ nth_error (map geometry (Stats.explode Examples.three_hills)) 2 = Some part
      /\ nth_error (map geometry (Stats.explode Examples.three_hills))
           (Stats.hill_id row') = Some nearest
      /\ Py.round (300 # 1) 1 = Py.round (distance part nearest) 1
      /\ Stats.distance_m row' = Py.round (distance nearest nearest') 1
      /\ (distance nearest nearest' <= distance part nearest)%Q.
Proof.
  assert (Hin : In (Stats.mkDistanceRow 2 1 (Py.round (300 # 1) 1))
                  (Stats.table_rows
                     (Stats.compute_hill_distances false Examples.three_hills
                        (1000 # 1)))).
  { rewrite three_hills_distances. cbn. tauto. }
  split; [exact (transect_query_in_range _)|].
  split; [exact three_hills_query_complete|].
  split; [exact three_hills_symmetric|].
  split; [exact Hin|].
  exact (nearest_hill_has_a_row Examples.three_hills (1000 # 1) _
           (transect_query_in_range _) three_hills_query_complete
           three_hills_symmetric Hin).
Defined.

(** ** The run as a whole *)

Section RunFacts.

Import Np.

Context {G : Type} `{SH : Shapely G} `{TK : Toolkit G}.

Lemma finite_values_nonempty (Zg : array (option Q)) :
  any (isfinite Zg) = true -> finite_values Zg <> [] /\ ravel Zg <> [].
Proof.
  unfold any, isfinite, finite_values. rewrite ravel_map2d.
  induction (ravel Zg) as [|x l IH]; cbn; [discriminate|].
  destruct x as [q|]; cbn.
  - intros _. split; discriminate.
  - intros H. destruct (IH H) as [H1 _]. split; [exact H1|discriminate].
Qed.

(** X21. A run returns its layers and statistics exactly when the DEM has a
    finite value and both delineations return; every other run ends in an
    exception. *)
Theorem run_analysis_returns_iff (dem : dem_data) (aoi : G)
    (districts : list (Stats.district G)) (urban : option (array bool))
    (explode_raises : bool) (old_params : OldMethod.params)
    (new_params : NewMethod.params) :
  (exists a, Core.run_analysis dem aoi districts urban explode_raises
               old_params new_params = Ok a)
  <-> any (isfinite (elevation dem)) = true
      /\ (exists old_gdf,
            OldMethod.compute_old_delineation dem urban old_params = Ok old_gdf)
      /\ (exists new_gdf,
            NewMethod.compute_new_delineation dem new_params = Ok new_gdf).
Proof.
  unfold Core.run_analysis. split.
  - intros [a H].
    destruct (ravel (elevation dem)) eqn:Eravel; cbn [bind] in H;
      [discriminate|].
    destruct (OldMethod.compute_old_delineation dem urban old_params)
      as [old_gdf|e]; cbn [bind] in H; [|discriminate].
    destruct (NewMethod.compute_new_delineation dem new_params)
      as [new_gdf|e]; cbn [bind] in H; [|discriminate].
    destruct (any (isfinite (elevation dem))) eqn:Efin.
    + split; [reflexivity|]. split; eexists; reflexivity.
    + match type of H with
      | context [Stats.compute_statistics ?o ?n ?d ?m] =>
        destruct (statistics_no_finite o n d m Efin) as [e He];
          rewrite He in H
      end.
      discriminate.
  - intros (Hfin & [old_gdf Hold] & [new_gdf Hnew]).
    destruct (finite_values_nonempty _ Hfin) as [Hvals Hravel].
    destruct (ravel (elevation dem)); [contradiction|]. cbn [bind].
    rewrite Hold, Hnew. cbn [bind].
    unfold Stats.compute_statistics, Stats.elevation_statistics.
    destruct (finite_values (elevation dem)) as [|v vs]; [contradiction|].
    cbn. eexists. reflexivity.
Qed.

End RunFacts.

(** ** Contour levels and traced contours *)

Section ContourFacts.

Import Np NewMethod.



Lemma multiples_sorted (start step : Q) (a n : nat) :
  (0 <= step)%Q ->
  StronglySorted Qle
    (map (fun i => (start + inject_Z (Z.of_nat i) * step)%Q) (seq a n)).
Proof.
  intros Hstep. revert a. induction n as [|n IH]; intros a; cbn.
  - constructor.
  - constructor; [apply IH|].
    apply Forall_forall. intros v Hv.
    apply in_map_iff in Hv. destruct Hv as (i & <- & Hi).
    apply in_seq in Hi.
    apply Qplus_le_r. apply Qmult_le_compat_r; [|exact Hstep].
    rewrite <- Zle_Qle. lia.
Qed.


End ContourFacts.


Section TracedContours.

Import Np NewMethod.

Context {G : Type} `{SH : Shapely G} `{TK : Toolkit G}.

(** Every contour a path contributes carries the level it was traced at
    and a valid polygon of positive area. *)
Lemma closed_ring_sound (pixel_size level : Q) (path : mpl_path)
    (c : closed_contour G) :
  In c (closed_ring pixel_size level path) ->
  cc_elevation c = level
  /\ is_valid (cc_geometry c) = true /\ (0 < area (cc_geometry c))%Q
  /\ (3 < length (vertices path))%nat
  /\ Polygon (vertices path) = Some (cc_geometry c).
Proof.
  unfold closed_ring.
  destruct (codes path); [|intros []].
  destruct (3 <? length (vertices path))%nat eqn:Elen; [|intros []].
  destruct (allclose _ _ _); [|intros []].
  destruct (Polygon (vertices path)) as [poly|]; [|intros []].
  destruct (is_valid poly && Py.Qltb 0 (area poly)) eqn:E; [|intros []].
  intros [<-|[]]. cbn.
  apply andb_true_iff in E. destruct E as [Hv Ha].
  apply Qltb_true in Ha. apply Nat.ltb_lt in Elen. auto.
Qed.

Lemma StronglySorted_app {A} (R : A -> A -> Prop) (l1 l2 : list A) :
  StronglySorted R l1 -> StronglySorted R l2 ->
  (forall x y, In x l1 -> In y l2 -> R x y) ->
  StronglySorted R (l1 ++ l2).
Proof.
  induction 1 as [|x l1 Hs IH Hx]; intros H2 Hcross; cbn; [exact H2|].
  constructor.
  - apply IH; [exact H2|]. intros a b Ha Hb. apply Hcross; [now right|exact Hb].
  - apply Forall_app. split; [exact Hx|].
    apply Forall_forall. intros y Hy. apply Hcross; [now left|exact Hy].
Qed.

(** The loop over the levels appends to what it was given contours of the
    levels still to trace, in the order of those levels. *)
Lemma trace_levels_appends (dem : dem_data) (filled : array Q)
    (levels : list Q) (acc cs : list (closed_contour G)) :
  trace_levels dem filled levels acc = Ok cs ->
  exists traced,
    cs = acc ++ traced
    /\ Forall (fun c => In (cc_elevation c) levels
                        /\ is_valid (cc_geometry c) = true
                        /\ (0 < area (cc_geometry c))%Q) traced
    /\ (StronglySorted Qle levels -> StronglySorted by_elevation traced).
Proof.
  revert acc cs. induction levels as [|level levels IH]; intros acc cs H; cbn in H.
  - injection H as <-. exists []. rewrite app_nil_r.
    repeat split; constructor.
  - destruct (contour (transform dem) filled level) as [paths|e];
      cbn [bind] in H; [|discriminate].
    apply IH in H. destruct H as (traced & -> & Hall & Hsorted).
    set (new := flat_map (closed_ring (pixel_size_m dem) level) paths).
    assert (Hnew : Forall (fun c => cc_elevation c = level
                                    /\ is_valid (cc_geometry c) = true
                                    /\ (0 < area (cc_geometry c))%Q) new).
    { apply Forall_forall. intros c Hc. apply in_flat_map in Hc.
      destruct Hc as (path & _ & Hc). apply closed_ring_sound in Hc. tauto. }
    exists (new ++ traced). split; [now rewrite app_assoc|]. split.
    + apply Forall_app. split.
      * eapply Forall_impl; [|exact Hnew]. cbn.
        intros c (-> & Hv & Ha). split; [now left|auto].
      * eapply Forall_impl; [|exact Hall]. cbn.
        intros c (Hin & Hv & Ha). split; [now right|auto].
    + intros Hs. inversion Hs as [|? ? Hs' Hlevel]; subst.
      rewrite Forall_forall in Hnew, Hall, Hlevel.
      apply StronglySorted_app.
      * clear - Hnew. induction new as [|c new IHnew]; constructor.
        -- apply IHnew. intros x Hx. apply Hnew. now right.
        -- apply Forall_forall. intros y Hy. unfold by_elevation.
           destruct (Hnew c (or_introl eq_refl)) as [-> _].
           destruct (Hnew y (or_intror Hy)) as [-> _]. apply Qle_refl.
      * now apply Hsorted.
      * intros x y Hx Hy. unfold by_elevation.
        destruct (Hnew x Hx) as [-> _].
        destruct (Hall y Hy) as [Hin _]. now apply Hlevel.
Qed.

(** X6. Every closed contour kept by the tracing loop has the elevation of
    one of the requested levels and a valid polygon of positive area. *)
Theorem traced_contours_valid (dem : dem_data) (filled : array Q)
    (levels : list Q) (cs : list (closed_contour G)) :
  trace_levels dem filled levels [] = Ok cs ->
  forall c, In c cs ->
    In (cc_elevation c) levels
    /\ is_valid (cc_geometry c) = true
    /\ (0 < area (cc_geometry c))%Q.
Proof.
  intros H c Hc. apply trace_levels_appends in H.
  destruct H as (traced & -> & Hall & _). cbn in Hc.
  rewrite Forall_forall in Hall. now apply Hall.
Qed.

Lemma sort_contours_sorted_id (l : list (closed_contour G)) :
  StronglySorted by_elevation l -> sort_contours l = l.
Proof.
  induction 1 as [|x l Hs IH Hx]; [reflexivity|].
  change (insert_contour x (sort_contours l) = x :: l).
  rewrite IH. now apply insert_contour_stable.
Qed.

(** X7. For a positive contour interval the contours come out of the tracing
    loop in ascending order of elevation already, so that the sort before
    the enclosure search leaves the list as it is. *)
Theorem sort_after_tracing_is_identity (dem : dem_data) (filled : array Q)
    (contour_interval : Q) (levels : list Q) (cs : list (closed_contour G)) :
  (0 < contour_interval)%Q ->
  contour_levels filled contour_interval = Ok levels ->
  trace_levels dem filled levels [] = Ok cs ->
  sort_contours cs = cs.
Proof.
  intros Hci Hlev Htrace.
  assert (Hsorted : StronglySorted Qle levels).
  { unfold contour_levels in Hlev.
    destruct (min_list (ravel filled)) as [lo|]; [|discriminate].
    destruct (max_list (ravel filled)) as [hi|]; [|discriminate].
    destruct (Qeq_bool contour_interval 0); [discriminate|].
    injection Hlev as <-. unfold arange.
    apply multiples_sorted. now apply Qlt_le_weak. }
  apply trace_levels_appends in Htrace.
  destruct Htrace as (traced & -> & _ & Hs). cbn.
  apply sort_contours_sorted_id. now apply Hs.
Qed.

Lemma scan_contours_sound (cs : list (closed_contour G)) (pt : Q * Q)
    (pe thr : Q) (h : hill_footprint G) :
  In h (scan_contours cs pt pe thr) ->
  scan_contours cs pt pe thr = [h]
  /\ (thr <= relief h)%Q
  /\ relief h = (peak_elev h - base_elev h)%Q
  /\ peak_elev h = pe
  /\ exists c, In c cs /\ contains (cc_geometry c) pt = true
               /\ base_elev h = cc_elevation c
               /\ hill_geometry h = cc_geometry c.
Proof.
  destruct (scan_contours_first cs pt pe thr)
    as [[_ ->]|(before & c & after & Hcs & _ & Hc & ->)]; [intros []|].
  destruct (Py.Qleb thr (pe - cc_elevation c)) eqn:E; [|intros []].
  intros [<-|[]]. cbn. apply Qleb_true in E.
  repeat split; auto.
  exists c. repeat split; auto. rewrite Hcs. apply in_elt.
Qed.

Lemma scan_contours_length (cs : list (closed_contour G)) (pt : Q * Q)
    (pe thr : Q) :
  (length (scan_contours cs pt pe thr) <= 1)%nat.
Proof.
  destruct (scan_contours_first cs pt pe thr)
    as [[_ ->]|(before & c & after & _ & _ & _ & ->)]; [cbn; lia|].
  destruct (Py.Qleb _ _); cbn; lia.
Qed.

(** X10. The enclosure search keeps at most one footprint per peak; every
    footprint has a relief of at least the threshold, equal to its peak
    elevation minus its base elevation, and belongs to a peak it was
    given and a contour it was given that contains this peak. *)
Theorem hill_footprints_sound (tr : Affine) (filled : array Q)
    (contours : list (closed_contour G)) (peaks : list (nat * nat)) (thr : Q) :
  (length (enclosure_search tr filled contours peaks thr) <= length peaks)%nat
  /\ forall h, In h (enclosure_search tr filled contours peaks thr) ->
       (thr <= relief h)%Q
       /\ relief h = (peak_elev h - base_elev h)%Q
       /\ exists pk c,
            In pk peaks /\ In c contours
            /\ peak_elev h = peak_elevation filled pk
            /\ base_elev h = cc_elevation c
            /\ hill_geometry h = cc_geometry c
            /\ contains (cc_geometry c) (peak_point tr pk) = true.
Proof.
  unfold enclosure_search. split.
  - induction peaks as [|pk peaks IH]; cbn; [lia|].
    rewrite length_app.
    pose proof (scan_contours_length (sort_contours contours)
                  (peak_point tr pk) (peak_elevation filled pk) thr).
    lia.
  - intros h Hh. apply in_flat_map in Hh. destruct Hh as (pk & Hpk & Hh).
    apply scan_contours_sound in Hh.
    destruct Hh as (_ & Hthr & Hrel & Hpe & c & Hc & Hcont & Hbase & Hgeom).
    split; [exact Hthr|]. split; [exact Hrel|].
    exists pk, c. repeat split; auto.
    eapply Permutation_in; [apply Permutation_sym, sort_contours_perm|exact Hc].
Qed.

End TracedContours.

Lemma traced_contours_valid_witness :
  NewMethod.trace_levels (TK := Examples.tk_rows) Examples.ridge
    (NewMethod.Z_filled (elevation Examples.ridge)) [100; 150]%Q []
  = Ok [NewMethod.mkContour 100 [(150 # 2, 330 # 2)];
        NewMethod.mkContour 150 [(210 # 2, 270 # 2)]]%Q
  /\ In (NewMethod.mkContour 150 [(210 # 2, 270 # 2)]%Q)
        [NewMethod.mkContour 100 [(150 # 2, 330 # 2)];
         NewMethod.mkContour 150 [(210 # 2, 270 # 2)]]%Q
  /\ In (150 : Q) [100; 150]%Q
  /\ is_valid ([(210 # 2, 270 # 2)]%Q : Transect.geom) = true
  /\ (0 < area ([(210 # 2, 270 # 2)]%Q : Transect.geom))%Q.
Proof.
  assert (H : NewMethod.trace_levels (TK := Examples.tk_rows) Examples.ridge
                (NewMethod.Z_filled (elevation Examples.ridge)) [100; 150]%Q []
              = Ok [NewMethod.mkContour 100 [(150 # 2, 330 # 2)];
                    NewMethod.mkContour 150 [(210 # 2, 270 # 2)]]%Q)
    by reflexivity.
  assert (Hin : In (NewMethod.mkContour 150 [(210 # 2, 270 # 2)]%Q)
                  [NewMethod.mkContour 100 [(150 # 2, 330 # 2)];
                   NewMethod.mkContour 150 [(210 # 2, 270 # 2)]]%Q)
    by (cbn; tauto).
  split; [exact H|]. split; [exact Hin|].
  exact (traced_contours_valid (TK := Examples.tk_rows) Examples.ridge _ _ _ H
           _ Hin).
Defined.

Lemma sort_after_tracing_is_identity_witness :
  (0 < 50 # 1)%Q
  /\ NewMethod.contour_levels (NewMethod.Z_filled (elevation Examples.ridge))
       (50 # 1) = Ok [0; 50; 100; 150; 200]%Q
  /\ NewMethod.trace_levels (TK := Examples.tk_rows) Examples.ridge
       (NewMethod.Z_filled (elevation Examples.ridge))
       [0; 50; 100; 150; 200]%Q []
     = Ok [NewMethod.mkContour 0 [(-30 # 2, 570 # 2)];
           NewMethod.mkContour 50 [(90 # 2, 390 # 2)];
           NewMethod.mkContour 100 [(150 # 2, 330 # 2)];
           NewMethod.mkContour 150 [(210 # 2, 270 # 2)];
           NewMethod.mkContour 200 [(210 # 2, 270 # 2)]]%Q
  /\ NewMethod.sort_contours
       [NewMethod.mkContour 0 [(-30 # 2, 570 # 2)];
        NewMethod.mkContour 50 [(90 # 2, 390 # 2)];
        NewMethod.mkContour 100 [(150 # 2, 330 # 2)];
        NewMethod.mkContour 150 [(210 # 2, 270 # 2)];
        NewMethod.mkContour 200 [(210 # 2, 270 # 2)]]%Q
     = [NewMethod.mkContour 0 [(-30 # 2, 570 # 2)];
        NewMethod.mkContour 50 [(90 # 2, 390 # 2)];
        NewMethod.mkContour 100 [(150 # 2, 330 # 2)];
        NewMethod.mkContour 150 [(210 # 2, 270 # 2)];
        NewMethod.mkContour 200 [(210 # 2, 270 # 2)]]%Q.
Proof.
  split; [reflexivity|]. split; [reflexivity|]. split; [reflexivity|].
  apply (sort_after_tracing_is_identity (TK := Examples.tk_rows)
           Examples.ridge (NewMethod.Z_filled (elevation Examples.ridge))
           (50 # 1) [0; 50; 100; 150; 200]%Q); reflexivity.
Defined.

(** ** Peaks *)

Section Peaks.

Import Np Ndimage NewMethod.

Lemma fold_left_Qmax_le (l : list Q) (x hi : Q) :
  (x <= hi)%Q -> (forall y, In y l -> (y <= hi)%Q) ->
  (fold_left Qmax l x <= hi)%Q.
Proof.
  revert x. induction l as [|z l IH]; intros x Hx Hl; cbn; [exact Hx|].
  apply IH.
  - apply Q.max_lub; [exact Hx|]. apply Hl. now left.
  - intros y Hy. apply Hl. now right.
Qed.

Lemma maximum_filter_bounds (g : array Q) (size : Z) (r c : nat) :
  1 <= size -> (r < nrows g)%nat -> (c < ncols g)%nat ->
  (forall r' c', (r' < nrows g)%nat -> (c' < ncols g)%nat ->
                 (get 0%Q g r' c' <= get 0%Q g r c)%Q) ->
  (get 0%Q (maximum_filter g size) r c == get 0%Q g r c)%Q.
Proof.
  intros Hs Hr Hc Hmax. unfold maximum_filter.
  rewrite get_tabulate by assumption.
  pose proof (window_values_centre g size r c Hs Hr Hc) as Hcentre.
  destruct (window_values g size r c) as [|x l] eqn:E; [contradiction|].
  cbn. apply Qle_antisym.
  - assert (Hcells : forall y, In y (x :: l) -> (y <= get 0%Q g r c)%Q).
    { intros y Hy. rewrite <- E in Hy.
      apply window_values_cells in Hy; [|lia|lia].
      destruct Hy as (r' & c' & Hr' & Hc' & ->). now apply Hmax. }
    apply fold_left_Qmax_le.
    + apply Hcells. now left.
    + intros y Hy. apply Hcells. now right.
  - now apply fold_left_Qmax_ge.
Qed.

Lemma In_argwhere_tabulate (n k : nat) (f : nat -> nat -> bool) (r c : nat) :
  In (r, c) (argwhere (tabulate n k f))
  <-> (r < n)%nat /\ (c < k)%nat /\ f r c = true.
Proof.
  unfold argwhere. rewrite nrows_tabulate. split.
  - intros H. apply in_flat_map in H. destruct H as (r' & Hr' & H).
    apply in_flat_map in H. destruct H as (c' & Hc' & H).
    destruct (get false (tabulate n k f) r' c') eqn:E; [|contradiction].
    destruct H as [[= <- <-]|[]].
    now apply get_tabulate_true in E.
  - intros (Hr & Hc & Hf).
    apply in_flat_map. exists r. split; [apply in_seq; lia|].
    apply in_flat_map. exists c. split.
    + apply in_seq. split; [lia|]. cbn.
      unfold tabulate.
      rewrite (nth_indep _ [] (map (fun c0 => f 0%nat c0) (seq 0 k)))
        by now rewrite length_map, length_seq.
      rewrite (map_nth (fun r0 => map (fun c0 => f r0 c0) (seq 0 k))
                 (seq 0 n) 0%nat r).
      now rewrite length_map, length_seq.
    + rewrite get_tabulate by assumption. rewrite Hf. now left.
Qed.

(** X9. Peaks are found at finite cells only, and a finite cell that no cell
    of the filled grid exceeds is always among them. *)
Theorem peaks_at_finite_cells (Zg : array (option Q)) (window : Z)
    (r c : nat) :
  1 <= window ->
  (In (r, c) (argwhere (peaks_mask Zg (Z_filled Zg) window)) ->
   get false (isfinite Zg) r c = true)
  /\ ((r < nrows Zg)%nat -> (c < ncols Zg)%nat ->
      get false (isfinite Zg) r c = true ->
      (forall r' c', (r' < nrows Zg)%nat -> (c' < ncols Zg)%nat ->
                     (get 0%Q (Z_filled Zg) r' c'
                      <= get 0%Q (Z_filled Zg) r c)%Q) ->
      In (r, c) (argwhere (peaks_mask Zg (Z_filled Zg) window))).
Proof.
  intros Hw. destruct (Z_filled_shape Zg) as [Hn Hm].
  unfold peaks_mask. split.
  - intros H. apply In_argwhere_tabulate in H.
    destruct H as (_ & _ & H). apply andb_true_iff in H. tauto.
  - intros Hr Hc Hfin Hmax. apply In_argwhere_tabulate.
    rewrite Hn, Hm. split; [exact Hr|]. split; [exact Hc|].
    rewrite Hfin, andb_true_r. apply Qeq_bool_iff. symmetry.
    apply maximum_filter_bounds; rewrite ?Hn, ?Hm; assumption.
Qed.

End Peaks.

Lemma peaks_at_finite_cells_witness :
  1 <= 3
  /\ (In (0%nat, 2%nat)
         (Np.argwhere (NewMethod.peaks_mask Examples.small_grid
                         (NewMethod.Z_filled Examples.small_grid) 3)) ->
      Np.get false (Np.isfinite Examples.small_grid) 0 2 = true)
  /\ ((0 < Np.nrows Examples.small_grid)%nat ->
      (2 < Np.ncols Examples.small_grid)%nat ->
      Np.get false (Np.isfinite Examples.small_grid) 0 2 = true ->
      (forall r' c', (r' < Np.nrows Examples.small_grid)%nat ->
                     (c' < Np.ncols Examples.small_grid)%nat ->
                     (Np.get 0%Q (NewMethod.Z_filled Examples.small_grid) r' c'
                      <= Np.get 0%Q (NewMethod.Z_filled Examples.small_grid) 0 2)%Q) ->
      In (0%nat, 2%nat)
         (Np.argwhere (NewMethod.peaks_mask Examples.small_grid
                         (NewMethod.Z_filled Examples.small_grid) 3))).
Proof.
  split; [lia|].
  apply (peaks_at_finite_cells Examples.small_grid 3 0 2). lia.
Defined.

Example peaks_of_small_grid :
  Np.argwhere (NewMethod.peaks_mask Examples.small_grid
                 (NewMethod.Z_filled Examples.small_grid) 3)
  = [(0, 2); (1, 0)]%nat.
Proof. reflexivity. Qed.

(** ** Tile names *)

Section TileNames.

Import SrtmDownload.

Lemma all_below (P : nat -> bool) (N : nat) :
  forallb P (seq 0 N) = true -> forall n, (n < N)%nat -> P n = true.
Proof.
  intros H n Hn. rewrite forallb_forall in H. apply H, in_seq. lia.
Qed.

Lemma format_2_digits (n : nat) :
  (n < 100)%nat ->
  exists a b,
    PyStr.format_0d 2 n = String a (String b EmptyString)
    /\ PyStr.int (String a (String b EmptyString)) = Some (Z.of_nat n).
Proof.
  intros Hn.
  pose proof (all_below
    (fun n => match PyStr.format_0d 2 n with
              | String a (String b EmptyString) =>
                match PyStr.int (String a (String b EmptyString)) with
                | Some z => z =? Z.of_nat n
                | None => false
                end
              | _ => false
              end) 100 ltac:(vm_compute; reflexivity) n Hn) as H.
  cbv beta in H.
  destruct (PyStr.format_0d 2 n) as [|a [|b [|c s]]]; try discriminate.
  destruct (PyStr.int (String a (String b EmptyString))) as [z|] eqn:E;
    [|discriminate].
  apply Z.eqb_eq in H. subst z. now exists a, b.
Qed.

Lemma format_3_digits (n : nat) :
  (n < 1000)%nat ->
  exists a b c,
    PyStr.format_0d 3 n = String a (String b (String c EmptyString))
    /\ PyStr.int (String a (String b (String c EmptyString)))
       = Some (Z.of_nat n).
Proof.
  intros Hn.
  pose proof (all_below
    (fun n => match PyStr.format_0d 3 n with
              | String a (String b (String c EmptyString)) =>
                match PyStr.int (String a (String b (String c EmptyString))) with
                | Some z => z =? Z.of_nat n
                | None => false
                end
              | _ => false
              end) 1000 ltac:(vm_compute; reflexivity) n Hn) as H.
  cbv beta in H.
  destruct (PyStr.format_0d 3 n) as [|a [|b [|c [|d s]]]]; try discriminate.
  destruct (PyStr.int (String a (String b (String c EmptyString))))
    as [z|] eqn:E; [|discriminate].
  apply Z.eqb_eq in H. subst z. now exists a, b, c.
Qed.

(** Reading a tile name back gives the tile it was made for. *)
Lemma tile_name_parses (lat lon : Z) :
  -99 <= lat <= 99 -> -999 <= lon <= 999 ->
  tile_request_box (tile_name lat lon) = inr (lat, lat + 1, lon, lon + 1).
Proof.
  intros Hlat Hlon.
  destruct (format_2_digits (Z.abs_nat lat) ltac:(lia)) as (a & b & E2 & I2).
  destruct (format_3_digits (Z.abs_nat lon) ltac:(lia)) as (c & d & e & E3 & I3).
  unfold tile_name. rewrite E2, E3.
  destruct (0 <=? lat) eqn:Elat; destruct (0 <=? lon) eqn:Elon;
    unfold tile_request_box; cbn [append String.get PyStr.slice Nat.sub
                                    String.substring];
    rewrite I2, I3; cbn [Ascii.eqb Bool.eqb];
    try apply Z.leb_le in Elat; try apply Z.leb_gt in Elat;
    try apply Z.leb_le in Elon; try apply Z.leb_gt in Elon;
    rewrite !Zabs2Nat.id_abs;
    repeat f_equal; lia.
Qed.

(** X23. Round trip: for latitudes of at most two digits and longitudes of at
    most three, the box parsed from the name of the tile at [(lat, lon)]
    is the one-degree box with that south-west corner. *)
Theorem tile_name_round_trip (lat lon : Z) :
  -99 <= lat <= 99 -> -999 <= lon <= 999 ->
  tile_request_box (tile_name lat lon) = inr (lat, lat + 1, lon, lon + 1).
Proof. apply tile_name_parses. Qed.

(** X24. Distinct tiles of that range have distinct names, hence distinct
    cache files. *)
Theorem tile_name_injective (lat lon lat' lon' : Z) :
  -99 <= lat <= 99 -> -999 <= lon <= 999 ->
  -99 <= lat' <= 99 -> -999 <= lon' <= 999 ->
  tile_name lat lon = tile_name lat' lon' ->
  lat = lat' /\ lon = lon'.
Proof.
  intros Hlat Hlon Hlat' Hlon' E.
  pose proof (tile_name_parses lat lon Hlat Hlon) as P.
  rewrite E, (tile_name_parses lat' lon' Hlat' Hlon') in P.
  injection P as -> _ -> _. now split.
Qed.

Lemma In_range (a b z : Z) : a <= z < b -> In z (PyStr.range a b).
Proof.
  intros H. unfold PyStr.range. apply in_map_iff.
  exists (Z.to_nat (z - a)). split; [lia|]. apply in_seq. lia.
Qed.

(** X25. The requested tiles cover the bounding box: the tile of every point
    of the box is in the list. *)
Theorem srtm_tiles_cover_bounds (minx miny maxx maxy x y : Q) :
  (minx <= x <= maxx)%Q -> (miny <= y <= maxy)%Q ->
  In (tile_name (Qfloor y) (Qfloor x))
     (get_srtm_tile_names (minx, miny, maxx, maxy)).
Proof.
  intros [Hx1 Hx2] [Hy1 Hy2]. unfold get_srtm_tile_names, Py.floor.
  apply in_flat_map. exists (Qfloor y). split.
  - apply In_range. split; [now apply Qfloor_resp_le|].
    apply Qfloor_resp_le in Hy2. lia.
  - apply in_map. apply In_range. split; [now apply Qfloor_resp_le|].
    apply Qfloor_resp_le in Hx2. lia.
Qed.

Lemma length_flat_map_const {A B} (f : A -> list B) (l : list A) (k : nat) :
  (forall x, length (f x) = k) -> length (flat_map f l) = (length l * k)%nat.
Proof.
  intros H. induction l as [|x l IH]; cbn; [reflexivity|].
  now rewrite length_app, H, IH.
Qed.

(** X26. The number of requested tiles is the number of whole-degree rows
    times the number of whole-degree columns the box touches; a box whose
    maximum lies in an earlier degree than its minimum gets none. *)
Theorem srtm_tile_count (minx miny maxx maxy : Q) :
  length (get_srtm_tile_names (minx, miny, maxx, maxy))
  = (Z.to_nat (Qfloor maxy - Qfloor miny + 1)
     * Z.to_nat (Qfloor maxx - Qfloor minx + 1))%nat.
Proof.
  unfold get_srtm_tile_names, Py.floor.
  rewrite (length_flat_map_const _ _
             (Z.to_nat (Qfloor maxx - Qfloor minx + 1))).
  - unfold PyStr.range. rewrite length_map, length_seq.
    f_equal. f_equal. lia.
  - intros lat. unfold PyStr.range. rewrite !length_map, length_seq.
    f_equal. lia.
Qed.

(** X27. The Copernicus tile list names the same tiles, in the same order, as
    the SRTM tile list: the SRTM name used for the fallback download of a
    tile is the name [get_srtm_tile_names] gives it, and the id stored
    with a tile is the Copernicus id of its own corner. *)
Theorem provider_tiles_agree (bounds : Q * Q * Q * Q) :
  map (fun tile : Z * Z * string =>
         DemProviders.srtm_tile_id (fst (fst tile)) (snd (fst tile)))
      (DemProviders.get_tile_names_for_bounds bounds)
  = get_srtm_tile_names bounds
  /\ map (fun tile : Z * Z * string =>
            DemProviders._cop_tile_id (fst (fst tile)) (snd (fst tile)))
         (DemProviders.get_tile_names_for_bounds bounds)
     = map snd (DemProviders.get_tile_names_for_bounds bounds).
Proof.
  destruct bounds as [[[minx miny] maxx] maxy].
  unfold DemProviders.get_tile_names_for_bounds, get_srtm_tile_names.
  split.
  - induction (PyStr.range (Py.floor miny) (Py.floor maxy + 1)) as [|lat l IH];
      cbn; [reflexivity|].
    rewrite map_app, IH, map_map. reflexivity.
  - induction (PyStr.range (Py.floor miny) (Py.floor maxy + 1)) as [|lat l IH];
      cbn; [reflexivity|].
    rewrite !map_app, IH, !map_map. reflexivity.
Qed.

End TileNames.

Lemma tile_name_round_trip_witness :
  -99 <= -5 <= 99 /\ -999 <= -120 <= 999
  /\ SrtmDownload.tile_request_box (SrtmDownload.tile_name (-5) (-120))
     = inr (-5, -5 + 1, -120, -120 + 1).
Proof.
  split; [lia|]. split; [lia|].
  apply tile_name_round_trip; lia.
Defined.

Lemma tile_name_injective_witness :
  -99 <= 28 <= 99 /\ -999 <= 77 <= 999
  /\ -99 <= 28 <= 99 /\ -999 <= 77 <= 999
  /\ SrtmDownload.tile_name 28 77 = SrtmDownload.tile_name 28 77
  /\ 28 = 28 /\ 77 = 77.
Proof.
  split; [lia|]. split; [lia|]. split; [lia|]. split; [lia|].
  split; [reflexivity|].
  apply (tile_name_injective 28 77 28 77); try lia. reflexivity.
Defined.

Lemma srtm_tiles_cover_bounds_witness :
  ((764 # 10) <= (77 # 1) <= (771 # 10))%Q
  /\ ((275 # 10) <= (284 # 10) <= (285 # 10))%Q
  /\ In (SrtmDownload.tile_name (Qfloor (284 # 10)) (Qfloor (77 # 1)))
        (SrtmDownload.get_srtm_tile_names
           (764 # 10, 275 # 10, 771 # 10, 285 # 10)%Q).
Proof.
  assert (Hx : ((764 # 10) <= (77 # 1) <= (771 # 10))%Q)
    by (split; discriminate).
  assert (Hy : ((275 # 10) <= (284 # 10) <= (285 # 10))%Q)
    by (split; discriminate).
  split; [exact Hx|]. split; [exact Hy|].
  exact (srtm_tiles_cover_bounds _ _ _ _ _ _ Hx Hy).
Defined.

Example srtm_tiles_of_gurugram :
  SrtmDownload.get_srtm_tile_names (764 # 10, 275 # 10, 771 # 10, 285 # 10)%Q
  = ["N27E076"; "N27E077"; "N28E076"; "N28E077"]%string.
Proof. reflexivity. Qed.

(** A latitude of three digits makes a name that does not read back. *)
Example tile_name_three_digit_latitude :
  SrtmDownload.tile_name 100 7 = "N100E007"%string
  /\ SrtmDownload.tile_request_box (SrtmDownload.tile_name 100 7)
     = inl SrtmDownload.IntValueError.
Proof. split; reflexivity. Qed.

(** ** The projected coordinate system *)

Section UtmZone.

Import CoreCrs.



End UtmZone.


Example utm_crs_of_aravalli :
  CoreCrs.estimate_utm_crs (284 # 10) (77 # 1) = "EPSG:32643"%string.
Proof. reflexivity. Qed.

(** At a longitude of exactly 180 degrees the zone is 61, which is not a
    UTM zone. *)
Example utm_zone_at_180 : CoreCrs.utm_zone (180 # 1) = 61.
Proof. reflexivity. Qed.

(** ** Downloading the tiles of a bounding box *)

Section Downloads.

Import DemProviders.

Context {Path : Type}.

Variables (download_copernicus_tile download_srtm_tile_opentopo :
             Z -> Z -> string -> option Path)
          (merge_srtm_tiles : list Path -> result unit).

(** X28. A download proceeds with partial coverage.  It fails with "Failed to
    download any DEM tiles" when no source has any tile of the box; when
    it returns, the merged list is not empty, has at most one file per
    tile, and each file is the Copernicus file of a tile of the box, or,
    where Copernicus was not selected or had no such tile, its SRTM
    file. *)
Theorem download_dem_partial_coverage (bounds : Q * Q * Q * Q)
    (provider : string) :
  ((forall lat lon tile_id,
       In (lat, lon, tile_id) (get_tile_names_for_bounds bounds) ->
       download_copernicus_tile lat lon tile_id = None
       /\ download_srtm_tile_opentopo lat lon (srtm_tile_id lat lon) = None) ->
   download_dem_for_bounds download_copernicus_tile
     download_srtm_tile_opentopo merge_srtm_tiles bounds provider
   = Raise (LibraryError "RuntimeError: Failed to download any DEM tiles"))
  /\ (forall paths,
        download_dem_for_bounds download_copernicus_tile
          download_srtm_tile_opentopo merge_srtm_tiles bounds provider
        = Ok paths ->
        paths <> []
        /\ (length paths <= length (get_tile_names_for_bounds bounds))%nat
        /\ merge_srtm_tiles paths = Ok tt
        /\ forall path, In path paths ->
             exists lat lon tile_id,
               In (lat, lon, tile_id) (get_tile_names_for_bounds bounds)
               /\ ((provider = "copernicus"%string
                    /\ download_copernicus_tile lat lon tile_id = Some path)
                   \/ ((provider <> "copernicus"%string
                        \/ download_copernicus_tile lat lon tile_id = None)
                       /\ download_srtm_tile_opentopo lat lon
                            (srtm_tile_id lat lon) = Some path))).
Proof.
  unfold download_dem_for_bounds.
  set (tiles := get_tile_names_for_bounds bounds).
  set (per_tile := fun tile : Z * Z * string => _).
  assert (Hone : forall tile, (length (per_tile tile) <= 1)%nat).
  { intros [[lat lon] tile_id]. unfold per_tile.
    destruct (String.eqb provider "copernicus");
      [destruct (download_copernicus_tile lat lon tile_id)|];
      try destruct (download_srtm_tile_opentopo lat lon (srtm_tile_id lat lon));
      cbn; lia. }
  assert (Hsrc : forall tile path, In path (per_tile tile) ->
    (provider = "copernicus"%string
     /\ download_copernicus_tile (fst (fst tile)) (snd (fst tile)) (snd tile)
        = Some path)
    \/ ((provider <> "copernicus"%string
         \/ download_copernicus_tile (fst (fst tile)) (snd (fst tile)) (snd tile)
            = None)
        /\ download_srtm_tile_opentopo (fst (fst tile)) (snd (fst tile))
             (srtm_tile_id (fst (fst tile)) (snd (fst tile))) = Some path)).
  { intros [[lat lon] tile_id] path. unfold per_tile. cbn [fst snd].
    destruct (String.eqb provider "copernicus") eqn:Ep.
    - apply String.eqb_eq in Ep.
      destruct (download_copernicus_tile lat lon tile_id) as [p|] eqn:Ec.
      + intros [<-|[]]. left. auto.
      + destruct (download_srtm_tile_opentopo lat lon (srtm_tile_id lat lon))
          as [p|] eqn:Es; [|intros []].
        intros [<-|[]]. right. auto.
    - apply String.eqb_neq in Ep.
      destruct (download_srtm_tile_opentopo lat lon (srtm_tile_id lat lon))
        as [p|] eqn:Es; [|intros []].
      intros [<-|[]]. right. auto. }
  split.
  - intros Hnone.
    replace (flat_map per_tile tiles) with (@nil Path); [reflexivity|].
    symmetry.
    induction tiles as [|[[lat lon] tile_id] rest IH]; [reflexivity|].
    cbn [flat_map].
    destruct (Hnone lat lon tile_id (or_introl eq_refl)) as [Hc Hs].
    replace (per_tile (lat, lon, tile_id)) with (@nil Path).
    + cbn. apply IH. intros lat' lon' id' Hin. apply Hnone. now right.
    + unfold per_tile. rewrite Hc, Hs.
      now destruct (String.eqb provider "copernicus").
  - intros paths H.
    destruct (flat_map per_tile tiles) as [|p0 ps] eqn:E; [discriminate|].
    destruct (merge_srtm_tiles (p0 :: ps)) as [[]|e] eqn:Em;
      cbn [bind] in H; [|discriminate].
    injection H as <-.
    split; [discriminate|]. split; [|split; [exact Em|]].
    + rewrite <- E. clear E Em.
      induction tiles as [|tile rest IH]; cbn; [lia|].
      rewrite length_app. specialize (Hone tile). lia.
    + intros path Hin. rewrite <- E in Hin.
      apply in_flat_map in Hin. destruct Hin as ([[lat lon] tile_id] & Ht & Hp).
      exists lat, lon, tile_id. split; [exact Ht|].
      exact (Hsrc _ _ Hp).
Qed.

End Downloads.

(** ** Elevation within a polygon *)

Section PolygonElevation.

Import Np StatsPolygon.

Context {G : Type} `{SH : Shapely G} `{TK : Toolkit G}.


End PolygonElevation.

(** Two tiles, Copernicus has the first only and SRTM the second only:
    both are merged, each from the source that has it. *)
Example download_from_both_sources :
  DemProviders.download_dem_for_bounds
    (fun lat lon tile_id =>
       if lon =? 76 then Some ("COP_" ++ tile_id)%string else None)
    (fun lat lon tile_id =>
       if lon =? 77 then Some ("SRTM_" ++ tile_id)%string else None)
    (fun _ => Ok tt)
    (765 # 10, 282 # 10, 771 # 10, 285 # 10)%Q "copernicus"
  = Ok ["COP_N28_00_E076_00"; "SRTM_N28E077"]%string.
Proof. reflexivity. Qed.
